(** * clai_queue_transcripts_lambda: parsers, ranking, dedup gate, batching

    A shallow embedding of [utils/cleaning.py], [utils/queue_management.py],
    [utils/data_processing.py] and [lambda_function.py].

    Modelling conventions.
    - A Python [str] is a [string]; [len] is [String.length].
    - A pandas DataFrame is the list of its rows, in index order.  A cell
      of a frame built from JSON is [Absent] (the entry has no such key; NaN
      in the frame), [Null] (JSON null; None in the frame) or [Val v].
      A column exists in a frame built from entries when at least one entry
      has the key.  Entries follow the export's schema: a field that is
      present holds a JSON string (a list of string maps for "subtitles").
    - [preprocess_data_clai] projects no columns: the frame it returns has
      every key of the entries as a column.  Of these the queue code reads
      "type", so an entry of the single-type export carries this key
      besides the four the parser reads.  The keys "video_id",
      "channel_name" and "status" are overwritten by the parser; a key
      "watched_at", which would give the frame two columns of that name,
      is outside the schema.
    - A raised exception is the [Raise] case of [result]; everything else is
      [Ok].
    - The embedding starts after [json.loads]: the parsers take the decoded
      entries.  [json.loads], [dateutil.parser.isoparse], [os.path.splitext]
      and the AWS clients are library code and appear as parameters.
    - A [datetime] is its instant: whole seconds and the microsecond; time
      zones are not modelled.
    - Logging is left out, and so is the text rendering of a message
      ([str], [json.dumps]): a message holds the values that are rendered.
      [put_item], [put_object] and [send_message_batch] are taken to
      return. *)

From Stdlib Require Import ZArith Lia Ascii String.
From Equations Require Import Equations.
From stdpp Require Import base decidable option list gmap strings sorting.

Open Scope Z_scope.
#[local] Set Warnings "-clear-no-such-hyp".

(** ** Exceptions and results *)

Inductive exn : Type :=
| KeyError (missing : list string)
| IndexError
| TypeError
| ValueError (msg : string)
| JSONDecodeError
| ClientError (code : string).

Inductive result (A : Type) : Type :=
| Ok (a : A)
| Raise (e : exn).
Arguments Ok {A} a.
Arguments Raise {A} e.

Definition bind {A B} (m : result A) (k : A → result B) : result B :=
  match m with
  | Ok a => k a
  | Raise e => Raise e
  end.

Notation "'let*' x ':=' m 'in' k" := (bind m (fun x => k))
  (at level 10, x pattern, m at level 100, k at level 200).

(** [Series.apply(f)]: [f] runs on every row in order, the first exception
    aborts. *)
Fixpoint apply {A B} (f : A → result B) (rows : list A) : result (list B) :=
  match rows with
  | [] => Ok []
  | r :: rows' =>
      let* b := f r in
      let* bs := apply f rows' in
      Ok (b :: bs)
  end.

(** ** Cells of a frame built from JSON entries *)

Inductive cell (A : Type) : Type :=
| Absent
| Null
| Val (a : A).
Arguments Absent {A}.
Arguments Null {A}.
Arguments Val {A} a.

Definition notna {A} (c : cell A) : bool :=
  match c with Val _ => true | _ => false end.

Definition present {A} (c : cell A) : bool :=
  match c with Absent => false | _ => true end.

(** The column [col] exists in the frame built from [entries]. *)
Definition has_column {E A} (col : E → cell A) (entries : list E) : bool :=
  existsb (fun e => present (col e)) entries.

(** ** Timestamps and column values *)

Record datetime : Type := { epoch_second : Z; microsecond : Z }.

Global Instance datetime_eq_dec : EqDecision datetime.
Proof. solve_decision. Defined.

(** What a cell of the column [watched_at] can hold: text, a parsed time,
    NaT, or nothing (NaN or None). *)
Inductive value : Type :=
| VStr (s : string)
| VTime (dt : datetime)
| VNaT
| VNaN.

(** One row of the frame the parsers hand to the queue code.  [type] and
    [status] are [None] when the frame has no such column; otherwise they
    hold the cell as [str] renders it. *)
Record record : Type := {
  video_id : string;
  channel_name : string;
  title : string;
  watched_at : value;
  type : option string;
  status : option string
}.

(** ** cleaning.py *)

(** [str.split(sep)] for a one-character separator. *)
Fixpoint split (sep : ascii) (s : string) : list string :=
  match s with
  | EmptyString => [EmptyString]
  | String c s' =>
      if Ascii.eqb c sep then EmptyString :: split sep s'
      else match split sep s' with
           | [] => [String c EmptyString]
           | piece :: pieces => String c piece :: pieces
           end
  end.

(** [url.split('=')[-1]] *)
Definition get_video_id (url : string) : string :=
  List.last (split "=" url) EmptyString.

(** [list(subtitles[0].values())[0]] *)
Definition extract_channel_name (subtitles : list (list (string * string)))
  : result string :=
  match subtitles with
  | [] => Raise IndexError
  | first :: _ =>
      match first with
      | [] => Raise IndexError
      | (_, v) :: _ => Ok v
      end
  end.

(** [df.drop_duplicates(col)]: the first row of every key is kept. *)
Fixpoint drop_duplicates_from {A} (key : A → string) (seen : gset string)
    (df : list A) : list A :=
  match df with
  | [] => []
  | r :: df' =>
      if decide (key r ∈ seen) then drop_duplicates_from key seen df'
      else r :: drop_duplicates_from key ({[key r]} ∪ seen) df'
  end.

Definition drop_duplicates {A} (key : A → string) (df : list A) : list A :=
  drop_duplicates_from key ∅ df.

(** [dropna(subset=cols)] raises [KeyError] with the columns of [cols] the
    frame does not have. *)
Definition missing_columns (cols : list (string * bool)) : list string :=
  fst <$> filter (fun c => snd c = false) cols.

Definition check_columns (cols : list (string * bool)) : result unit :=
  match missing_columns cols with
  | [] => Ok tt
  | missing => Raise (KeyError missing)
  end.

(** What [str] makes of a cell of a text column: the text, "nan" for a
    key the entry does not have, "None" for null. *)
Definition str_cell (c : cell string) : string :=
  match c with
  | Val s => s
  | Absent => "nan"
  | Null => "None"
  end.

Module Watch.

(** One entry of the single-type export: the four keys the parser reads,
    and the key "type", which the parser does not read and the frame
    carries along. *)
Record entry : Type := {
  titleUrl : cell string;
  title : cell string;
  subtitles : cell (list (list (string * string)));
  time : cell string;
  type : cell string
}.

(** A row that passed [dropna]: the four columns hold values; the cell of
    the column "type" is as it was. *)
Record row : Type := {
  r_titleUrl : string;
  r_title : string;
  r_subtitles : list (list (string * string));
  r_time : string;
  r_type : cell string
}.

Definition complete (e : entry) : option row :=
  match titleUrl e, title e, subtitles e, time e with
  | Val u, Val t, Val s, Val tm =>
      Some {| r_titleUrl := u; r_title := t; r_subtitles := s; r_time := tm;
              r_type := type e |}
  | _, _, _, _ => None
  end.

(** The column "type" of the frame built from [raw], read in the row
    [r]: nothing when no entry has the key, so that the frame has no such
    column, and otherwise the cell as [str] renders it. *)
Definition passed_type (raw : list entry) (r : row) : option string :=
  if has_column type raw then Some (str_cell (r_type r)) else None.

(** [df.dropna(subset=["titleUrl", "title", "subtitles", "time"])] *)
Definition dropna (df : list entry) : result (list row) :=
  let* _ := check_columns [("titleUrl", has_column titleUrl df);
                           ("title", has_column title df);
                           ("subtitles", has_column subtitles df);
                           ("time", has_column time df)] in
  Ok (omap complete df).

End Watch.

(** [preprocess_data_clai], after [json.loads].  The result keeps the
    columns the queue code reads, and [status]; the parser itself adds no
    column "type". *)
Definition preprocess_data_clai (raw : list Watch.entry) : result (list record) :=
  let* df := Watch.dropna raw in
  let* names := apply (fun r => extract_channel_name (Watch.r_subtitles r)) df in
  let ids := map (fun r => get_video_id (Watch.r_titleUrl r)) df in
  let df := zip df (zip names ids) in
  let df := filter (fun r => String.length (snd (snd r)) = 11%nat) df in
  let df := drop_duplicates (fun r => snd (snd r)) df in
  Ok (map (fun r =>
             {| video_id := snd (snd r);
                channel_name := fst (snd r);
                title := Watch.r_title (fst r);
                watched_at := VStr (Watch.r_time (fst r));
                type := Watch.passed_type raw (fst r);
                status := Some "CREATED" |}) df).

Definition sample_watch (u t c tm : string) : Watch.entry :=
  {| Watch.titleUrl := Val u; Watch.title := Val t;
     Watch.subtitles := Val [[("name", c); ("url", "x")]]; Watch.time := Val tm;
     Watch.type := Absent |}.

(** An entry of an export whose entries have a key "type". *)
Definition sample_watch_typed (u t c tm : string) (ty : cell string)
  : Watch.entry :=
  {| Watch.titleUrl := Val u; Watch.title := Val t;
     Watch.subtitles := Val [[("name", c); ("url", "x")]]; Watch.time := Val tm;
     Watch.type := ty |}.

(** An export of the single-type format whose entries have a key "type",
    but for the last. *)
Definition sample_typed : list Watch.entry :=
  [sample_watch_typed "https://www.youtube.com/watch?v=dQw4w9WgXcQ" "a" "ch" "t1"
                      (Val "watch");
   sample_watch_typed "https://www.youtube.com/watch?v=aaaaaaaaaaa" "b" "ch" "t2"
                      (Val "like");
   sample_watch_typed "https://www.youtube.com/watch?v=bbbbbbbbbbb" "c" "ch" "t3"
                      Absent].

(** ** Sorting and ranking primitives of pandas *)

(** A stable sort: rows with equal keys keep their order.  This is what
    [sort_values] does for a list of several columns (a lexsort). *)
Fixpoint insert_sorted {A} (le : A → A → bool) (x : A) (l : list A) : list A :=
  match l with
  | [] => [x]
  | y :: l' => if le x y then x :: l else y :: insert_sorted le x l'
  end.

Fixpoint sort_stable {A} (le : A → A → bool) (l : list A) : list A :=
  match l with
  | [] => []
  | x :: l' => insert_sorted le x (sort_stable le l')
  end.

(** Lexicographic combination of two comparisons. *)
Definition lex (c1 c2 : comparison) : comparison :=
  match c1 with Eq => c2 | _ => c1 end.

(** [na_position='last']: a missing key is larger than every key. *)
Definition compare_na_last {A} (cmp : A → A → comparison) (a b : option A)
  : comparison :=
  match a, b with
  | Some x, Some y => cmp x y
  | Some _, None => Lt
  | None, Some _ => Gt
  | None, None => Eq
  end.

Definition not_gt (c : comparison) : bool :=
  match c with Gt => false | _ => true end.

Definition compare_datetime (a b : datetime) : comparison :=
  lex (Z.compare (epoch_second a) (epoch_second b))
      (Z.compare (microsecond a) (microsecond b)).

Definition time_of (v : value) : option datetime :=
  match v with VTime dt => Some dt | _ => None end.

Definition is_cmp (c : comparison) (a b : datetime) : bool :=
  bool_decide (compare_datetime a b = c).

(** The number of times of [xs] (NaT apart) that satisfy [p]. *)
Definition count_times (p : datetime → bool) (xs : list (option datetime)) : nat :=
  length (List.filter (fun x => match x with Some y => p y | None => false end) xs).

(** [rank(method='first', ascending=False)] for the value [x] that comes
    after the values [before] in the series [all]: one plus the number of
    larger values plus the number of equal values seen before.  NaT has no
    rank (NaN). *)
Definition rank_of (all before : list (option datetime)) (x : option datetime)
  : option nat :=
  match x with
  | None => None
  | Some v => Some (1 + count_times (fun y => is_cmp Gt y v) all
                      + count_times (fun y => is_cmp Eq y v) before)%nat
  end.

Fixpoint rank_first_from (all before xs : list (option datetime))
  : list (option nat) :=
  match xs with
  | [] => []
  | x :: xs' => rank_of all before x :: rank_first_from all (before ++ [x]) xs'
  end.

Definition rank_first_desc (xs : list (option datetime)) : list (option nat) :=
  rank_first_from xs [] xs.

(** [max()] of a group, NaT skipped; NaT when the group has no time. *)
Definition max_time (xs : list (option datetime)) : option datetime :=
  foldr (fun x acc =>
           match x, acc with
           | Some a, Some b => if is_cmp Gt a b then Some a else Some b
           | Some a, None => Some a
           | None, _ => acc
           end) None xs.

(** The frame inside [reorder_frame] once the two rank columns are there. *)
Record ranked : Type := {
  base : record;
  sub_group_rank : option nat;
  video_rank_within_group : option nat
}.

Section Ranking.

(** [dateutil.parser.isoparse] on a string; [None] is [ValueError]. *)
Variable isoparse : string → option datetime.

(** The inner [to_datetime] of [convert_to_datetime].  [isoparse] takes
    [len] of its argument, which raises [TypeError] for anything that is
    not a string; only [ValueError] is caught.  [int(x / 10000)] rounds
    towards zero. *)
Definition to_datetime (val : value) : result value :=
  match val with
  | VStr s =>
      match isoparse s with
      | Some dt =>
          Ok (VTime {| epoch_second := epoch_second dt;
                       microsecond := microsecond dt ÷ 10000 * 10000 |})
      | None => Ok VNaT
      end
  | _ => Raise TypeError
  end.

Definition set_watched_at (r : record) (v : value) : record :=
  {| video_id := video_id r; channel_name := channel_name r;
     title := title r; watched_at := v; type := type r;
     status := status r |}.

Definition convert_to_datetime (df : list record) : result (list record) :=
  apply (fun r => let* v := to_datetime (watched_at r) in
                  Ok (set_watched_at r v)) df.

Definition group_times (df : list record) (name : string)
  : list (option datetime) :=
  (fun r => time_of (watched_at r))
    <$> filter (fun r => channel_name r = name) df.

(** The group keys of [groupby('channel_name')], sorted. *)
Definition group_keys (df : list record) : list string :=
  sort_stable (fun a b => not_gt (String.compare a b))
              (remove_dups (channel_name <$> df)).

(** [calculate_sub_group_rank]: one row per channel, in the order of the
    keys, with the rank of the latest time of the channel. *)
Definition calculate_sub_group_rank (df : list record)
  : list (string * option nat) :=
  let keys := group_keys df in
  zip keys (rank_first_desc (map (fun k => max_time (group_times df k)) keys)).

(** [df.merge(sub_group_rank, on='channel_name', how='left')] for one
    row. *)
Definition merge_rank (table : list (string * option nat)) (name : string)
  : option nat :=
  match List.find (fun e => String.eqb (fst e) name) table with
  | Some e => snd e
  | None => None
  end.

(** [rank_within_group]: the rank of every row among the rows of its
    channel. *)
Fixpoint rank_within_from (df before rows : list record) : list (option nat) :=
  match rows with
  | [] => []
  | r :: rows' =>
      rank_of (group_times df (channel_name r))
              (group_times before (channel_name r))
              (time_of (watched_at r))
        :: rank_within_from df (before ++ [r]) rows'
  end.

Definition rank_within_group (df : list record) : list (option nat) :=
  rank_within_from df [] df.

(** The order of [sort_dataframe]: the three columns in turn, ascending,
    NaN last. *)
Definition compare_ranked (a b : ranked) : comparison :=
  lex (compare_na_last Nat.compare (video_rank_within_group a)
                                   (video_rank_within_group b))
 (lex (compare_na_last Nat.compare (sub_group_rank a) (sub_group_rank b))
      (compare_na_last String.compare (type (base a)) (type (base b)))).

Definition sort_dataframe (df : list ranked) : list ranked :=
  sort_stable (fun a b => not_gt (compare_ranked a b)) df.

Definition move_type_to_top (df : list ranked) : list ranked :=
  let df_like := filter (fun r => type (base r) = Some "like") df in
  let df_other := filter (fun r => type (base r) ≠ Some "like") df in
  df_like ++ df_other.

(** The frame with both rank columns, before sorting. *)
Definition with_ranks (df : list record) : list ranked :=
  let table := calculate_sub_group_rank df in
  zip_with (fun r w =>
              {| base := r;
                 sub_group_rank := merge_rank table (channel_name r);
                 video_rank_within_group := w |})
           df (rank_within_group df).

(** The steps of [reorder_frame] after [convert_to_datetime]. *)
Definition reorder_converted (df : list record) : list record :=
  let df := with_ranks df in
  let df := sort_dataframe df in
  let df := move_type_to_top df in
  map base (drop_duplicates (fun r => video_id (base r)) df).

Definition reorder_frame (df : list record) : result (list record) :=
  let* df := convert_to_datetime df in
  Ok (reorder_converted df).

End Ranking.

Module Light.

(** One entry of the "likes" or "subs" list of the multi-type export. *)
Record entry : Type := {
  url : cell string;
  timestamp : cell string;
  title : cell string;
  channelName : cell string
}.

(** A row of the concatenated frame: the entry with its [order] and
    [type] columns. *)
Record tagged : Type := { item : entry; order : nat; kind : string }.

Definition tag (kind : string) (entries : list entry) : list tagged :=
  imap (fun i e => {| item := e; order := i; kind := kind |}) entries.

Definition compare_tagged (a b : tagged) : comparison :=
  lex (String.compare (kind a) (kind b)) (Nat.compare (order a) (order b)).

Definition cell_value (c : cell string) : value :=
  match c with Val s => VStr s | _ => VNaN end.

End Light.

(** A row that passed [dropna(subset=["url", "title", "channelName"])],
    with its [video_id], projected and renamed. *)
Definition light_canonical (t : Light.tagged) : option record :=
  match Light.url (Light.item t), Light.title (Light.item t),
        Light.channelName (Light.item t) with
  | Val u, Val ti, Val c =>
      Some {| video_id := get_video_id u;
              channel_name := c;
              title := ti;
              watched_at := Light.cell_value (Light.timestamp (Light.item t));
              type := Some (Light.kind t);
              status := None |}
  | _, _, _ => None
  end.

Section ParserB.

Variable isoparse : string → option datetime.

(** The frame [preprocess_data_clai_light] hands to [reorder_frame]. *)
Definition light_frame (likes subs : list Light.entry) : result (list record) :=
  let df_likes := Light.tag "like" likes in
  let df_subs := Light.tag "sub" subs in
  let df := df_likes ++ df_subs in
  let df := sort_stable (fun a b => not_gt (Light.compare_tagged a b)) df in
  let* _ := check_columns
              [("url", has_column (fun t => Light.url (Light.item t)) df);
               ("title", has_column (fun t => Light.title (Light.item t)) df);
               ("channelName",
                has_column (fun t => Light.channelName (Light.item t)) df)] in
  let rows := omap light_canonical df in
  let* _ := check_columns
              [("timestamp",
                has_column (fun t => Light.timestamp (Light.item t)) df)] in
  Ok rows.

(** [preprocess_data_clai_light], after [json.loads] and the two [get]s
    that pick the "likes" and "subs" lists (an absent list is empty). *)
Definition preprocess_data_clai_light (likes subs : list Light.entry)
  : result (list record) :=
  let* df := light_frame likes subs in
  reorder_frame isoparse df.

End ParserB.

(** ** Sample data *)

(** A stand-in for [isoparse] in the examples.  It reads the one format
    "YYYY-MM-DDTHH:MM:SS" (as UTC) and rejects every other text. *)
Fixpoint digits_value (acc : Z) (s : string) : option Z :=
  match s with
  | EmptyString => Some acc
  | String c s' =>
      let n := Z.of_nat (nat_of_ascii c) in
      if (48 <=? n) && (n <=? 57) then digits_value (10 * acc + (n - 48)) s'
      else None
  end.

(** Days from 1970-01-01 to the date [y]-[m]-[d] of the Gregorian
    calendar. *)
Definition days_from_civil (y m d : Z) : Z :=
  let y := if m <=? 2 then y - 1 else y in
  let era := y / 400 in
  let yoe := y - era * 400 in
  let doy := (153 * (if 2 <? m then m - 3 else m + 9) + 2) / 5 + d - 1 in
  let doe := yoe * 365 + yoe / 4 - yoe / 100 + doy in
  era * 146097 + doe - 719468.

Definition sample_isoparse (s : string) : option datetime :=
  let field (from len : nat) := digits_value 0 (String.substring from len s) in
  let sep (at_ : nat) (c : string) := bool_decide (String.substring at_ 1 s = c) in
  if bool_decide (String.length s = 19%nat)
     && sep 4%nat "-" && sep 7%nat "-" && sep 10%nat "T"
     && sep 13%nat ":" && sep 16%nat ":"
  then
    y ← field 0%nat 4%nat; m ← field 5%nat 2%nat; d ← field 8%nat 2%nat;
    h ← field 11%nat 2%nat; mi ← field 14%nat 2%nat; sec ← field 17%nat 2%nat;
    if (1 <=? m) && (m <=? 12) && (1 <=? d) && (d <=? 31)
       && (h <? 24) && (mi <? 60) && (sec <? 60)
    then Some {| epoch_second :=
                   days_from_civil y m d * 86400 + h * 3600 + mi * 60 + sec;
                 microsecond := 0 |}
    else None
  else None.

(** Second [ss] of the minute 2023-10-01T00:00, as text and as the
    instant it denotes. *)
Definition minute_text (ss : string) : string := "2023-10-01T00:00:" +:+ ss.
Definition minute_time (ss : Z) : Z := 1696118400 + ss.

Definition sample_light (u ts t c : string) : Light.entry :=
  {| Light.url := Val u; Light.timestamp := Val ts; Light.title := Val t;
     Light.channelName := Val c |}.

Definition rec_at (id ch ti ty : string) (t : Z) : record :=
  {| video_id := id; channel_name := ch; title := ti;
     watched_at := VTime {| epoch_second := t; microsecond := 0 |};
     type := Some ty; status := None |}.

Definition rec (id ch ty : string) (t : Z) : record := rec_at id ch "t" ty t.

(** Two likes of one video, the second with the later time. *)
Definition sample_twice : list Light.entry :=
  [sample_light "https://www.youtube.com/watch?v=dQw4w9WgXcQ"
                (minute_text "10") "first" "ch";
   sample_light "https://www.youtube.com/watch?v=dQw4w9WgXcQ"
                (minute_text "30") "second" "ch"].


(** ** queue_management.py *)

(** The dictionary that [json.dumps] turns into the message body.  The
    fields hold the values handed to [str]. *)
Record message_body : Type := {
  file_id : string;
  body_video_id : string;
  body_channel_name : string;
  body_status : string;
  body_type : string;
  body_title : string;
  body_watched_at : value;
  current_transcript : Z;
  total_transcripts : Z
}.

Record message : Type := { Id : string; MessageBody : message_body }.

(** [DataFrame.iterrows] after [reset_index]: rows with their position. *)
Definition iterrows (df : list record) : list (Z * record) :=
  imap (fun i r => (Z.of_nat i, r)) df.

(** [record.get('type', '')] *)
Definition get_type (r : record) : string := default "" (type r).

(** The dictionary built for one row. *)
Definition message_dict (file_id : string) (total_rows current_transcript : Z)
    (record : record) : message :=
  {| Id := video_id record;
     MessageBody :=
       {| file_id := file_id;
          body_video_id := video_id record;
          body_channel_name := channel_name record;
          body_status := "NEW";
          body_type := get_type record;
          body_title := title record;
          body_watched_at := watched_at record;
          current_transcript := current_transcript;
          total_transcripts := total_rows |} |}.

(** One turn of the loop of [prepare_sqs_messages]. *)
Definition prepare_step (file_id : string) (total_rows : Z)
    (st : list message * gset string) (row : Z * record)
  : list message * gset string :=
  let '(messages, existing_ids) := st in
  let '(idx, record) := row in
  let current_transcript := idx + 1 in
  let existing_ids := {[video_id record]} ∪ existing_ids in
  (messages ++ [message_dict file_id total_rows current_transcript record],
   existing_ids).

(** [prepare_sqs_messages]: the messages, and [existing_ids] as the loop
    leaves it (the set is updated in place). *)
Definition prepare_sqs_messages (df : list record) (existing_ids : gset string)
    (file_id : string) : list message * gset string :=
  let filtered_df := filter (fun r => video_id r ∉ existing_ids) df in
  let total_rows := Z.of_nat (length filtered_df) in
  fold_left (prepare_step file_id total_rows) (iterrows filtered_df)
            ([], existing_ids).

(** [range(start, stop, step)] for a positive step. *)
Equations? range (start stop step : nat) : list nat by wf (stop - start)%nat lt :=
  range start stop step with decide (start < stop ∧ 0 < step)%nat => {
    | left _ => start :: range (start + step) stop step;
    | right _ => [] }.
Proof. lia. Qed.

Definition batch_size : nat := 10.

(** The answer of [send_message_batch]: the ids of the accepted and of the
    rejected entries. *)
Record response : Type := { Successful : list string; Failed : list string }.

Section Queue.

(** The queue: its state, and [sqs_client.send_message_batch] as a
    function of the state and the entries. *)
Variable Q : Type.
Variable send_message_batch : Q → list message → response * Q.

(** State of the loop of [send_messages_to_sqs]: the counter, the queue
    and the batches sent so far. *)
Record sending : Type := {
  successful_messages : Z;
  queue : Q;
  calls : list (list message)
}.

Definition send_step (messages : list message) (st : sending) (i : nat)
  : sending :=
  let batch := take batch_size (drop i messages) in
  let '(response, q) := send_message_batch (queue st) batch in
  {| successful_messages :=
       successful_messages st + Z.of_nat (length (Successful response));
     queue := q;
     calls := calls st ++ [batch] |}.

Definition send_messages_to_sqs (messages : list message) (q : Q) : sending :=
  fold_left (send_step messages) (range 0 (length messages) batch_size)
            {| successful_messages := 0; queue := q; calls := [] |}.

End Queue.
Arguments successful_messages {Q} _.
Arguments queue {Q} _.
Arguments calls {Q} _.

(** ** data_processing.py and lambda_function.py *)

Definition BUCKET_NAME : string := "clai-video-ids".
Definition CLAI_EXPORTS_BUCKET_NAME : string := "clai-youtube-exports".
Definition CLAI_LIGHT_EXPORTS_BUCKET_NAME : string := "clai-light-youtube-exports".
Definition FILE_NAME : string := "all/all.pickle".

(** The trigger event: [event['Records'][i]['body']]; [None] is a missing
    key. *)
Record sqs_record : Type := { body : option string }.
Record event : Type := { Records : option (list sqs_record) }.

Record metadata : Type := {
  md_file_id : string;
  md_s3_bucket : string;
  md_upload_timestamp : string
}.

(** The [result] dictionary of [lambda_handler], after
    [result.update(metadata)]. *)
Record summary : Type := {
  num_videos_before : Z;
  num_videos_after : Z;
  new_videos_added : Z;
  duplicates_not_added : Z;
  messages_sent : Z;
  run : metadata
}.

(** The item written to the table [clai_files_status]; the counts are the
    numbers handed to [str]. *)
Record item : Type := {
  item_file_id : string;
  file_origin_s3_bucket : string;
  transcripts_first : string;
  num_videos_file_unique : Z;
  num_videos_total_before : Z;
  num_videos_total_after : Z;
  num_videos_total_added : Z;
  num_videos_total_duplicate : Z;
  item_messages_sent : Z;
  transcripts_last : option string
}.

(** The message forwarded to the labeling queue. *)
Record forwarded : Type := {
  fwd_body : string;
  MessageGroupId : string;
  MessageDeduplicationId : string
}.

(** Writes and sends, in the order they happen. *)
Inductive effect : Type :=
| SendMessageBatch (entries : list message)
| PutItem (i : item)
| PutObject (bucket key : string) (ids : gset string)
| SendMessage (m : forwarded).

Section Handler.

Variable isoparse : string → option datetime.
(** [json.loads(body)['Records'][0]['s3']]: the bucket name and the
    object key of the notification, or the exception. *)
Variable decode_notification : string → result (string * string).
(** [os.path.splitext(key)[0]] *)
Variable splitext : string → string.
(** [json.loads(raw_data)] read as the entries of either export. *)
Variable decode_watch : string → result (list Watch.entry).
Variable decode_light : string → result (list Light.entry * list Light.entry).
(** The transcript queue and the labeling queue. *)
Variable Q : Type.
Variable send_message_batch : Q → list message → response * Q.
Variable L : Type.
Variable send_message : L → forwarded → result L.

(** What the handler can read and change. *)
Record world : Type := {
  s3_exports : gmap (string * string) string;
  s3_video_ids : option (gset string);
  clai_files_status : gmap string item;
  transcript_queue : Q;
  labeling_queue : L;
  effects : list effect
}.

(** The clock readings of one invocation. *)
Record clock : Type := { utcnow : string; now : string; now_timestamp : string }.

Definition event_body (ev : event) : result string :=
  match Records ev with
  | None => Raise (KeyError ["Records"])
  | Some [] => Raise IndexError
  | Some (r :: _) =>
      match body r with
      | None => Raise (KeyError ["body"])
      | Some b => Ok b
      end
  end.

(** [s3.get_object(...)['Body'].read().decode('utf-8')] *)
Definition get_object (w : world) (bucket key : string) : result string :=
  match s3_exports w !! (bucket, key) with
  | Some text => Ok text
  | None => Raise (ClientError "NoSuchKey")
  end.

(** The branch of [download_and_preprocess_data] on the bucket. *)
Definition preprocess (s3_bucket raw_data : string) : result (list record) :=
  if decide (s3_bucket = CLAI_EXPORTS_BUCKET_NAME) then
    let* raw := decode_watch raw_data in
    preprocess_data_clai raw
  else if decide (s3_bucket = CLAI_LIGHT_EXPORTS_BUCKET_NAME) then
    let* items := decode_light raw_data in
    preprocess_data_clai_light isoparse (fst items) (snd items)
  else Raise (ValueError ("Unknown bucket: " +:+ s3_bucket)).

Definition download_and_preprocess_data (c : clock) (ev : event) (w : world)
  : result (list record * metadata) :=
  let* b := event_body ev in
  let* notification := decode_notification b in
  let s3_bucket := fst notification in
  let s3_key := snd notification in
  let s3_key_base := splitext s3_key in
  let upload_timestamp := utcnow c in
  let* raw_data := get_object w s3_bucket s3_key in
  let* df := preprocess s3_bucket raw_data in
  Ok (df, {| md_file_id := s3_key_base; md_s3_bucket := s3_bucket;
             md_upload_timestamp := upload_timestamp |}).

Definition download_existing_video_ids (w : world) : result (gset string) :=
  match s3_video_ids w with
  | Some ids => Ok ids
  | None => Raise (ClientError "NoSuchKey")
  end.

(** [event.get('Records', [{}])[0].get('body', '{}')]; an empty list of
    records raises [IndexError]. *)
Definition incoming_body (ev : event) : result string :=
  match default [{| body := None |}] (Records ev) with
  | [] => Raise IndexError
  | r :: _ => Ok (default "{}" (body r))
  end.

(** The inner [try] of [lambda_handler]: every exception is logged and
    dropped. *)
Definition forward (c : clock) (ev : event) (file_id : string) (w : world)
  : world :=
  match incoming_body ev with
  | Raise _ => w
  | Ok b =>
      let m := {| fwd_body := b; MessageGroupId := file_id;
                  MessageDeduplicationId :=
                    file_id +:+ "_" +:+ now_timestamp c |} in
      match send_message (labeling_queue w) m with
      | Raise _ => w
      | Ok l =>
          {| s3_exports := s3_exports w; s3_video_ids := s3_video_ids w;
             clai_files_status := clai_files_status w;
             transcript_queue := transcript_queue w;
             labeling_queue := l;
             effects := effects w ++ [SendMessage m] |}
      end
  end.

Definition lambda_handler (c : clock) (ev : event) (w : world)
  : result summary * world :=
  match download_and_preprocess_data c ev w with
  | Raise e => (Raise e, w)
  | Ok (df, metadata) =>
  match download_existing_video_ids w with
  | Raise e => (Raise e, w)
  | Ok existing_ids =>
      let num_ids_before := Z.of_nat (size existing_ids) in
      let '(messages, existing_ids) :=
        prepare_sqs_messages df existing_ids (md_file_id metadata) in
      let sent := send_messages_to_sqs Q send_message_batch messages
                    (transcript_queue w) in
      let num_ids_after := Z.of_nat (size existing_ids) in
      let result :=
        {| num_videos_before := num_ids_before;
           num_videos_after := num_ids_after;
           new_videos_added := num_ids_after - num_ids_before;
           duplicates_not_added :=
             Z.of_nat (length df) - (num_ids_after - num_ids_before);
           messages_sent := successful_messages sent;
           run := metadata |} in
      let num_videos_unique :=
        duplicates_not_added result + new_videos_added result in
      let item :=
        {| item_file_id := md_file_id (run result);
           file_origin_s3_bucket := md_s3_bucket (run result);
           transcripts_first := md_upload_timestamp (run result);
           num_videos_file_unique := num_videos_unique;
           num_videos_total_before := num_videos_before result;
           num_videos_total_after := num_videos_after result;
           num_videos_total_added := new_videos_added result;
           num_videos_total_duplicate := duplicates_not_added result;
           item_messages_sent := messages_sent result;
           transcripts_last :=
             if decide (length messages = 0%nat) then Some (now c) else None |} in
      let grew := bool_decide (new_videos_added result > 0) in
      let w :=
        {| s3_exports := s3_exports w;
           s3_video_ids :=
             if grew then Some existing_ids else s3_video_ids w;
           clai_files_status :=
             <[item_file_id item := item]> (clai_files_status w);
           transcript_queue := queue sent;
           labeling_queue := labeling_queue w;
           effects :=
             effects w ++ map SendMessageBatch (calls sent) ++ [PutItem item]
               ++ (if grew then [PutObject BUCKET_NAME FILE_NAME existing_ids]
                   else []) |} in
      (Ok result, forward c ev (md_file_id (run result)) w)
  end
  end.

(** The Fatal-Input and Fatal-Storage conditions of a run, read on its
    inputs: required fields missing from the trigger event, a raw blob
    that cannot be fetched, an unrecognized origin bucket, a raw blob that
    does not decode or does not parse, an id snapshot that cannot be
    read. *)
Inductive fatal (ev : event) (w : world) : Prop :=
| missing_trigger_fields e :
    event_body ev = Raise e → fatal ev w
| malformed_notification b e :
    event_body ev = Ok b → decode_notification b = Raise e → fatal ev w
| failed_fetch b bucket key :
    event_body ev = Ok b → decode_notification b = Ok (bucket, key) →
    s3_exports w !! (bucket, key) = None → fatal ev w
| unrecognized_origin b bucket key raw_data :
    event_body ev = Ok b → decode_notification b = Ok (bucket, key) →
    s3_exports w !! (bucket, key) = Some raw_data →
    bucket ≠ CLAI_EXPORTS_BUCKET_NAME →
    bucket ≠ CLAI_LIGHT_EXPORTS_BUCKET_NAME → fatal ev w
| malformed_blob b bucket key raw_data e :
    event_body ev = Ok b → decode_notification b = Ok (bucket, key) →
    s3_exports w !! (bucket, key) = Some raw_data →
    preprocess bucket raw_data = Raise e → fatal ev w
| failed_snapshot_read :
    s3_video_ids w = None → fatal ev w.

End Handler.
Arguments s3_exports {Q L} _.
Arguments s3_video_ids {Q L} _.
Arguments clai_files_status {Q L} _.
Arguments transcript_queue {Q L} _.
Arguments labeling_queue {Q L} _.
Arguments effects {Q L} _.

(** The queue run on a list of batches, one call each: the number of
    accepted entries of every call, and the queue afterwards. *)
Fixpoint run_batches {Q} (send_message_batch : Q → list message → response * Q)
    (q : Q) (batches : list (list message)) : list nat * Q :=
  match batches with
  | [] => ([], q)
  | batch :: batches' =>
      let '(response, q') := send_message_batch q batch in
      let '(counts, q'') := run_batches send_message_batch q' batches' in
      (length (Successful response) :: counts, q'')
  end.

Definition sum_counts (counts : list nat) : Z :=
  foldr Z.add 0 (Z.of_nat <$> counts).

(** ** A sample run *)

(** Stand-ins for the library calls and the queues in the examples: the
    body of the trigger names the object key in the exports bucket; the
    raw text "watch" decodes to four entries, any other text is not JSON;
    the transcript queue accepts every entry and keeps the batches; the
    labeling queue accepts every message. *)
Definition sample_notification (b : string) : result (string * string) :=
  Ok (CLAI_EXPORTS_BUCKET_NAME, b).

Definition sample_entries : list Watch.entry :=
  [sample_watch "https://www.youtube.com/watch?v=abc12345678" "a" "ch" "t1";
   sample_watch "https://www.youtube.com/watch?v=bbbbbbbbbbb" "b" "ch" "t2";
   sample_watch "https://www.youtube.com/watch?v=ccccccccccc" "c" "ch" "t3";
   sample_watch "https://www.youtube.com/watch?v=ddddddddddd" "d" "ch" "t4"].

Definition sample_decode_watch (raw : string) : result (list Watch.entry) :=
  if decide (raw = "watch") then Ok sample_entries else Raise JSONDecodeError.

Definition sample_decode_light (raw : string)
  : result (list Light.entry * list Light.entry) :=
  Raise JSONDecodeError.

Definition sample_send (q : list (list message)) (batch : list message)
  : response * list (list message) :=
  ({| Successful := Id <$> batch; Failed := [] |}, q ++ [batch]).

Definition sample_forward (l : unit) (m : forwarded) : result unit := Ok l.

Definition sample_clock : clock :=
  {| utcnow := "2023-10-01 10:00:00"; now := "2023-10-01 12:00:00";
     now_timestamp := "1696154400.0" |}.

Definition sample_event (key : string) : event :=
  {| Records := Some [{| body := Some key |}] |}.

Definition sample_world : world (list (list message)) unit :=
  {| s3_exports := {[ (CLAI_EXPORTS_BUCKET_NAME, "good.json") := "watch";
                      (CLAI_EXPORTS_BUCKET_NAME, "bad.json") := "{" ]};
     s3_video_ids := Some {[ "abc12345678" ]};
     clai_files_status := ∅;
     transcript_queue := [];
     labeling_queue := tt;
     effects := [] |}.

Definition sample_handler :=
  lambda_handler sample_isoparse sample_notification (fun key => key)
                 sample_decode_watch sample_decode_light
                 (list (list message)) sample_send unit sample_forward.

Definition plain_watch (r : string * string * string) : record :=
  {| video_id := fst (fst r); channel_name := "ch"; title := snd (fst r);
     watched_at := VStr (snd r); type := None; status := Some "CREATED" |}.

(** ** Vocabulary of the statements *)

(** The record [r] was made from the entry [e] of the multi-type export. *)
Definition light_source (e : Light.entry) (r : record) : Prop :=
  ∃ u, Light.url e = Val u
       ∧ video_id r = get_video_id u
       ∧ Light.title e = Val (title r)
       ∧ Light.channelName e = Val (channel_name r).

(** A valid input of Parser B: the four columns exist, and an entry with
    URL, title and channel name also has a timestamp. *)
Definition light_valid (likes subs : list Light.entry) : Prop :=
  has_column Light.url (likes ++ subs) = true
  ∧ has_column Light.title (likes ++ subs) = true
  ∧ has_column Light.channelName (likes ++ subs) = true
  ∧ has_column Light.timestamp (likes ++ subs) = true
  ∧ ∀ e, e ∈ likes ++ subs →
         notna (Light.url e) = true → notna (Light.title e) = true →
         notna (Light.channelName e) = true →
         notna (Light.timestamp e) = true.

(** Every row of the frame built by [preprocess_data_clai_light] comes
    from an entry of "likes" and has type "like", or from an entry of
    "subs" and has type "sub". *)
Definition light_row (likes subs : list Light.entry) (r : record) : Prop :=
  (type r = Some "like" ∧ ∃ e, e ∈ likes ∧ light_source e r)
  ∨ (type r = Some "sub" ∧ ∃ e, e ∈ subs ∧ light_source e r).

Definition sample_likes : list Light.entry :=
  [sample_light "u=l1" (minute_text "10") "t" "A";
   sample_light "u=l2" (minute_text "30") "t" "B";
   sample_light "u=l3" "n/a" "t" "B"].

Definition sample_subs : list Light.entry :=
  [sample_light "u=s1" (minute_text "50") "t" "A";
   sample_light "u=l2" (minute_text "55") "t" "C"].

(** A comparison that orders its type totally, up to the keys it reads. *)
Class TotalCompare {A} (cmp : A → A → comparison) : Prop := {
  cmp_refl x : cmp x x = Eq;
  cmp_antisym x y : cmp y x = CompOpp (cmp x y);
  cmp_trans x y z : cmp x y ≠ Gt → cmp y z ≠ Gt → cmp x z ≠ Gt
}.
Arguments cmp_refl {A} cmp {_} x.
Arguments cmp_antisym {A} cmp {_} x y.
Arguments cmp_trans {A} cmp {_} x y z.

(** [a] comes before [b] in [l]. *)
Definition before {A} (l : list A) (a b : A) : Prop :=
  ∃ l1 l2 l3, l = l1 ++ a :: l2 ++ b :: l3.

(** Among rows of one channel with the same time, no row of another type
    comes before a row of type "like". *)
Definition ties_like_first (df : list record) : Prop :=
  ∀ r1 r2 t, before df r1 r2 →
             channel_name r1 = channel_name r2 →
             time_of (watched_at r1) = Some t →
             time_of (watched_at r2) = Some t →
             type r2 = Some "like" → type r1 = Some "like".

(** The row [r] with its rank columns, when the rows [pre] come before it
    in the frame [df]. *)
Definition ranked_after (df pre : list record) (r : record) : ranked :=
  {| base := r;
     sub_group_rank := merge_rank (calculate_sub_group_rank df) (channel_name r);
     video_rank_within_group :=
       rank_of (group_times df (channel_name r))
               (group_times pre (channel_name r))
               (time_of (watched_at r)) |}.

(** A row as [reorder_frame] receives it, with the timestamp as text. *)
Definition raw_rec (id ch ty ts : string) : record :=
  {| video_id := id; channel_name := ch; title := "t"; watched_at := VStr ts;
     type := Some ty; status := None |}.

(** A video liked at time 10 that is also in the "subs" list at time 20. *)
Definition sample_repeated : list record :=
  [raw_rec "Z" "C" "like" (minute_text "08");
   raw_rec "X" "A" "like" (minute_text "10");
   raw_rec "Y" "A" "like" (minute_text "07");
   raw_rec "X" "A" "sub" (minute_text "20")].

(** Two rows of one channel with the same time, the "sub" row first. *)
Definition sample_tied : list record :=
  [rec "1" "A" "sub" 10; rec "2" "A" "like" 10; rec "3" "B" "like" 5].

(** The "like" rows first; the rows of channel A are tied. *)
Definition sample_likes_first : list record :=
  [rec "2" "A" "like" 10; rec "3" "B" "like" 5; rec "1" "A" "sub" 10].

Definition plain (id : string) : record :=
  {| video_id := id; channel_name := "c"; title := "t"; watched_at := VStr "w";
     type := None; status := Some "CREATED" |}.

(** ** Vocabulary of the further properties *)

(** The character [c] occurs in [s]. *)
Fixpoint occurs (c : ascii) (s : string) : bool :=
  match s with
  | EmptyString => false
  | String c' s' => Ascii.eqb c' c || occurs c s'
  end.

(** The video id and the record [preprocess_data_clai] makes of a row that
    passed [dropna], given the channel name extracted for it. *)
Definition watch_id (row : Watch.row) : string :=
  get_video_id (Watch.r_titleUrl row).

Definition watch_record (raw : list Watch.entry) (channel : string)
    (row : Watch.row) : record :=
  {| video_id := watch_id row; channel_name := channel;
     title := Watch.r_title row; watched_at := VStr (Watch.r_time row);
     type := Watch.passed_type raw row; status := Some "CREATED"%string |}.

(** The record [r] is made of the entry [e] of the export [raw]. *)
Definition watch_source (raw : list Watch.entry) (e : Watch.entry)
    (r : record) : Prop :=
  ∃ row channel,
    Watch.complete e = Some row
    ∧ extract_channel_name (Watch.r_subtitles row) = Ok channel
    ∧ r = watch_record raw channel row.

(** The columns [preprocess_data_clai] needs, each with whether the frame
    built from [raw] has it. *)
Definition watch_columns (raw : list Watch.entry) : list (string * bool) :=
  [("titleUrl"%string, has_column Watch.titleUrl raw);
   ("title"%string, has_column Watch.title raw);
   ("subtitles"%string, has_column Watch.subtitles raw);
   ("time"%string, has_column Watch.time raw)].

(** The cell holds text. *)
Definition is_text (v : value) : Prop :=
  match v with VStr _ => True | _ => False end.

(** A parser that reads every text as 5.123456 seconds after the epoch. *)
Definition sample_fraction (s : string) : option datetime :=
  Some {| epoch_second := 5; microsecond := 123456 |}.

(** The frame has the column [type]. *)
Definition typed (df : list ranked) : Prop :=
  Forall (fun x => type (base x) ≠ None) df.

(** The three columns [preprocess_data_clai_light] hands to [dropna], each
    with whether the concatenated frame has it. *)
Definition light_columns (likes subs : list Light.entry) : list (string * bool) :=
  [("url"%string, has_column Light.url (likes ++ subs));
   ("title"%string, has_column Light.title (likes ++ subs));
   ("channelName"%string, has_column Light.channelName (likes ++ subs))].

(** The entry has a URL, a title and a channel name: its row passes
    [dropna]. *)
Definition light_complete (e : Light.entry) : Prop :=
  notna (Light.url e) = true ∧ notna (Light.title e) = true
  ∧ notna (Light.channelName e) = true.



(** The effect is a message to the labeling queue. *)
Definition is_forward (e : effect) : Prop :=
  match e with SendMessage _ => True | _ => False end.

Global Instance is_forward_dec e : Decision (is_forward e).
Proof. destruct e; simpl; apply _. Defined.

(** A transcript queue that rejects every entry. *)
Definition sample_reject (q : list (list message)) (batch : list message)
  : response * list (list message) :=
  ({| Successful := []; Failed := Id <$> batch |}, q ++ [batch]).

(** * Properties *)

(** ** Results *)

Lemma bind_Ok {A B} (m : result A) (k : A → result B) (b : B) :
  bind m k = Ok b → ∃ a, m = Ok a ∧ k a = Ok b.
Proof. destruct m as [a|e]; simpl; [eauto | discriminate]. Qed.

Lemma apply_Ok_length {A B} (f : A → result B) rows out :
  apply f rows = Ok out → length out = length rows.
Proof.
  revert out. induction rows as [|r rows IH]; simpl; intros out H.
  - by simplify_eq.
  - apply bind_Ok in H as (b & _ & H). apply bind_Ok in H as (bs & Hbs & H).
    simplify_eq. simpl. f_equal. by apply IH.
Qed.

(** ** The dedup gate and the batch builder *)

Section Prepare.

Variable file_id : string.

Lemma fold_prepare_step total rows : ∀ (pos : nat → Z) messages ids,
  fold_left (prepare_step file_id total) (imap (fun i r => (pos i, r)) rows)
            (messages, ids)
  = (messages ++ imap (fun i r => message_dict file_id total (pos i + 1) r) rows,
     list_to_set (video_id <$> rows) ∪ ids).
Proof.
  induction rows as [|r rows IH]; intros pos messages ids.
  - simpl. rewrite app_nil_r. f_equal. set_solver.
  - rewrite !imap_cons. simpl.
    change (imap ((fun i r0 => (pos i, r0)) ∘ S) rows)
      with (imap (fun i r0 => ((pos ∘ S) i, r0)) rows).
    rewrite IH, <- app_assoc. simpl. f_equal. set_solver.
Qed.

(** What [prepare_sqs_messages] computes: one message per row whose id is
    not in the set on entry, numbered from 1, and the set with the ids of
    those rows added. *)
Lemma prepare_sqs_messages_spec df ids :
  let filtered := filter (fun r => video_id r ∉ ids) df in
  prepare_sqs_messages df ids file_id
  = (imap (fun i r => message_dict file_id (Z.of_nat (length filtered))
                                   (Z.of_nat i + 1) r) filtered,
     list_to_set (video_id <$> filtered) ∪ ids).
Proof.
  intros filtered. unfold prepare_sqs_messages, iterrows. fold filtered.
  by rewrite fold_prepare_step.
Qed.

Lemma imap_seq_map {A B} (f : nat → A → B) (g : nat → B) (l : list A) :
  (∀ i x, f i x = g i) → ∀ k, imap (fun i => f (k + i)%nat) l = g <$> seq k (length l).
Proof.
  intros Hf. induction l as [|x l IH]; intros k; [done|].
  rewrite imap_cons. simpl. rewrite Nat.add_0_r, Hf. f_equal.
  rewrite <- IH. apply imap_ext. intros i y _. simpl. f_equal. lia.
Qed.

End Prepare.

(** C4.  The messages of [prepare_sqs_messages] carry [current_transcript]
    1, 2, ..., N in output order, and every message carries
    [total_transcripts] = N, where N is the number of messages produced. *)
Theorem C4_positions_contiguous (df : list record) (existing_ids : gset string)
    (file_id : string) :
  let messages := fst (prepare_sqs_messages df existing_ids file_id) in
  let N := length messages in
  (fun m => current_transcript (MessageBody m)) <$> messages
    = Z.of_nat <$> seq 1 N
  ∧ Forall (fun m => total_transcripts (MessageBody m) = Z.of_nat N) messages.
Proof.
  rewrite prepare_sqs_messages_spec. simpl.
  set (filtered := filter _ df). rewrite length_imap. split.
  - rewrite fmap_imap.
    rewrite <- (fmap_S_seq 0), <- list_fmap_compose.
    apply (imap_seq_map (fun i (_ : record) => Z.of_nat i + 1)
                        (Z.of_nat ∘ S) filtered (fun i _ => ltac:(simpl; lia)) 0%nat).
  - apply Forall_forall. intros m Hm.
    apply list_elem_of_lookup in Hm as [i Hm].
    rewrite list_lookup_imap in Hm.
    destruct (filtered !! i); simplify_eq/=. done.
Qed.

(** Testing each row against the growing set is the same as testing
    against the set on entry when no id occurs twice among the rows. *)
Lemma drop_duplicates_from_filter (ids : gset string) (df : list record) :
  ∀ seen : gset string,
    ids ⊆ seen →
    (∀ r, r ∈ df → video_id r ∈ seen → video_id r ∈ ids) →
    NoDup (video_id <$> df) →
    drop_duplicates_from video_id seen df
    = filter (fun r => video_id r ∉ ids) df.
Proof.
  induction df as [|r df IH]; intros seen Hsub Hfresh Hnodup; [done|].
  rewrite fmap_cons in Hnodup. apply NoDup_cons in Hnodup as [Hr Hnodup].
  simpl. rewrite filter_cons.
  destruct (decide (video_id r ∈ seen)) as [Hin|Hout].
  - rewrite decide_False by (intros Hno; apply Hno, Hfresh; [left|done]).
    apply IH; [done| |done]. intros r' Hr'. apply Hfresh. by right.
  - rewrite decide_True by set_solver. f_equal.
    apply IH; [set_solver| |done].
    intros r' Hr' Hin. apply elem_of_union in Hin as [Hin|Hin].
    + apply elem_of_singleton in Hin. exfalso. apply Hr.
      rewrite <- Hin. by apply list_elem_of_fmap_2.
    + apply Hfresh; [by right|done].
Qed.

(** C10, as stated, fails: an id that occurs twice in the input and is not
    in the set on entry is emitted twice, although at the second occurrence
    the id is already in the set. *)
Lemma C10_counterexample :
  Id <$> fst (prepare_sqs_messages [plain "aaaaaaaaaaa"; plain "aaaaaaaaaaa"] ∅ "f")
    = ["aaaaaaaaaaa"; "aaaaaaaaaaa"]
  ∧ video_id <$> drop_duplicates_from video_id ∅
                   [plain "aaaaaaaaaaa"; plain "aaaaaaaaaaa"]
    = ["aaaaaaaaaaa"].
Proof. split; vm_compute; reflexivity. Qed.

(** C10, amended.  When the video_ids of the input are pairwise distinct,
    [prepare_sqs_messages] emits exactly the rows whose id is not yet in
    the set at the moment they are considered (the rows the sequential gate
    [drop_duplicates_from] accepts), numbered in that order, and the set it
    leaves is the set on entry with the accepted ids added.  The test is
    made once, against the set on entry. *)
Theorem C10_dedup_gate (df : list record) (existing_ids : gset string)
    (file_id : string) :
  NoDup (video_id <$> df) →
  let accepted := drop_duplicates_from video_id existing_ids df in
  prepare_sqs_messages df existing_ids file_id
  = (imap (fun i r => message_dict file_id (Z.of_nat (length accepted))
                                   (Z.of_nat i + 1) r) accepted,
     list_to_set (video_id <$> accepted) ∪ existing_ids)
  ∧ accepted = filter (fun r => video_id r ∉ existing_ids) df.
Proof.
  intros Hnodup accepted.
  assert (accepted = filter (fun r => video_id r ∉ existing_ids) df) as ->.
  { by apply drop_duplicates_from_filter. }
  split; [apply prepare_sqs_messages_spec | done].
Qed.

Lemma C10_dedup_gate_witness :
  NoDup (video_id <$> [plain "aaaaaaaaaaa"; plain "bbbbbbbbbbb"])
  ∧ fst (prepare_sqs_messages [plain "aaaaaaaaaaa"; plain "bbbbbbbbbbb"]
                              {[ "aaaaaaaaaaa" ]} "f")
    = [message_dict "f" 1 1 (plain "bbbbbbbbbbb")].
Proof.
  assert (NoDup (video_id <$> [plain "aaaaaaaaaaa"; plain "bbbbbbbbbbb"])) as H.
  { simpl. repeat constructor; set_solver. }
  split; [exact H|].
  destruct (C10_dedup_gate [plain "aaaaaaaaaaa"; plain "bbbbbbbbbbb"]
              {[ "aaaaaaaaaaa" ]} "f" H) as [-> _].
  vm_compute. reflexivity.
Defined.

(** ** Chunked delivery *)

Lemma range_cons start stop step :
  (start < stop)%nat → (0 < step)%nat →
  range start stop step = start :: range (start + step) stop step.
Proof.
  intros. rewrite range_equation_1. simpl.
  destruct (decide _); simpl; [done|lia].
Qed.

Lemma range_nil start stop step :
  (stop ≤ start)%nat → range start stop step = [].
Proof.
  intros. rewrite range_equation_1. simpl.
  destruct (decide _); simpl; [lia|done].
Qed.

(** [range] yields [start], [start + step], ... : one index for every
    started block of [step] positions below [stop]. *)
Lemma range_spec step : (0 < step)%nat → ∀ n start stop,
  n = ((stop - start + (step - 1)) / step)%nat →
  range start stop step = (fun k => start + k * step)%nat <$> seq 0 n.
Proof.
  intros Hstep. induction n as [|n IH]; intros start stop Hn.
  - apply range_nil. symmetry in Hn. apply Nat.div_small_iff in Hn; lia.
  - assert (start < stop)%nat as Hlt.
    { destruct (decide (start < stop)%nat) as [|Hge]; [done|].
      replace (stop - start)%nat with 0%nat in Hn by lia.
      rewrite Nat.div_small in Hn; lia. }
    rewrite range_cons by done. rewrite <- cons_seq, fmap_cons.
    f_equal; [lia|].
    rewrite <- fmap_S_seq, <- list_fmap_compose.
    rewrite (IH (start + step)%nat stop).
    + apply list_fmap_ext. intros _ k _. simpl. lia.
    + destruct (decide (start + step ≤ stop)%nat) as [Hle|Hgt].
      * replace (stop - start + (step - 1))%nat
          with (stop - (start + step) + (step - 1) + 1 * step)%nat in Hn by lia.
        rewrite Nat.div_add in Hn by lia. lia.
      * replace (stop - (start + step))%nat with 0%nat by lia.
        rewrite Nat.div_small by lia.
        assert ((stop - start + (step - 1)) / step < 2)%nat; [|lia].
        apply Nat.Div0.div_lt_upper_bound. lia.
Qed.

Section Sending.

Context {Q : Type} (send_message_batch : Q → list message → response * Q).

Lemma fold_send_step messages : ∀ idxs (st : sending Q),
  let batches := (fun i => take batch_size (drop i messages)) <$> idxs in
  let ran := run_batches send_message_batch (queue st) batches in
  fold_left (send_step Q send_message_batch messages) idxs st
  = {| successful_messages := successful_messages st + sum_counts (fst ran);
       queue := snd ran;
       calls := calls st ++ batches |}.
Proof.
  induction idxs as [|i idxs IH]; intros st.
  - simpl. destruct st. simpl. rewrite app_nil_r. f_equal. unfold sum_counts.
    simpl. lia.
  - cbn [fold_left]. rewrite IH. cbv zeta. unfold send_step.
    rewrite fmap_cons. cbn [run_batches].
    destruct (send_message_batch _ _) as [r q']. cbn [queue calls successful_messages].
    destruct (run_batches _ _ _) as [counts q'']. cbn [fst snd].
    rewrite <- app_assoc. f_equal.
    unfold sum_counts. rewrite fmap_cons. simpl. lia.
Qed.

(** C5.  For M messages, [send_messages_to_sqs] calls
    [send_message_batch] once for each of the ceil(M/10) consecutive
    chunks of ten, whatever the queue answers, and returns the sum of the
    numbers of entries the queue accepted in these calls. *)
Theorem C5_chunked_delivery (messages : list message) (q : Q) :
  let st := send_messages_to_sqs Q send_message_batch messages q in
  let M := length messages in
  calls st = (fun k => take 10 (drop (k * 10) messages))
               <$> seq 0 ((M + 9) / 10)%nat
  ∧ length (calls st) = ((M + 9) / 10)%nat
  ∧ concat (calls st) = messages
  ∧ successful_messages st
    = sum_counts (fst (run_batches send_message_batch q (calls st))).
Proof.
  intros st M.
  assert (range 0 M batch_size = (fun k => k * 10)%nat <$> seq 0 ((M + 9) / 10)%nat)
    as Hrange.
  { rewrite (range_spec batch_size ltac:(unfold batch_size; lia)
               ((M + 9) / 10)%nat 0%nat M)
      by (unfold batch_size; f_equal; lia).
    done. }
  assert (st = {| successful_messages :=
                    0 + sum_counts (fst (run_batches send_message_batch q
                          ((fun i => take batch_size (drop i messages))
                             <$> range 0 M batch_size)));
                  queue := snd (run_batches send_message_batch q
                          ((fun i => take batch_size (drop i messages))
                             <$> range 0 M batch_size));
                  calls := [] ++ ((fun i => take batch_size (drop i messages))
                             <$> range 0 M batch_size) |}) as Hst.
  { unfold st, send_messages_to_sqs. by rewrite fold_send_step. }
  rewrite Hrange, <- list_fmap_compose in Hst.
  change ((fun i => take batch_size (drop i messages)) ∘ (fun k => k * 10)%nat)
    with (fun k => take 10 (drop (k * 10) messages)) in Hst.
  rewrite Hst. cbn [calls successful_messages app].
  split; [done|]. split; [by rewrite length_fmap, length_seq|].
  split; [|lia].
  clear. subst M.
  remember ((length messages + 9) / 10)%nat as n eqn:Hn.
  revert messages Hn. induction n as [|n IH]; intros messages Hn.
  - symmetry in Hn. apply Nat.div_small_iff in Hn; [|lia].
    destruct messages; [done|simpl in Hn; lia].
  - rewrite <- cons_seq, fmap_cons, <- fmap_S_seq, <- list_fmap_compose.
    simpl concat.
    transitivity (take 10 messages ++ drop 10 messages); [|apply take_drop].
    rewrite drop_0. f_equal.
    rewrite <- (IH (drop 10 messages)).
    + f_equal. apply list_fmap_ext. intros _ k _. simpl.
      by rewrite drop_drop.
    + rewrite length_drop.
      destruct (decide (10 ≤ length messages)%nat).
      * replace (length messages + 9)%nat
          with (length messages - 10 + 9 + 1 * 10)%nat in Hn by lia.
        rewrite Nat.div_add in Hn by lia. lia.
      * assert ((length messages + 9) / 10 < 2)%nat.
        { apply Nat.Div0.div_lt_upper_bound. lia. }
        replace (length messages - 10)%nat with 0%nat by lia.
        rewrite Nat.div_small by lia. lia.
Qed.

End Sending.

(** ** The handler *)

Lemma size_list_to_set_le (l : list string) :
  (size (list_to_set l : gset string) ≤ length l)%nat.
Proof.
  induction l as [|x l IH].
  - rewrite list_to_set_nil, size_empty. simpl. lia.
  - rewrite list_to_set_cons, size_union_alt, size_singleton. simpl.
    assert (size (list_to_set l ∖ {[x]} : gset string)
            ≤ size (list_to_set l : gset string))%nat; [|lia].
    apply subseteq_size. set_solver.
Qed.

(** The set [prepare_sqs_messages] leaves contains the set on entry and
    has at most one more id per row of the frame. *)
Lemma prepare_sqs_messages_grows df (ids : gset string) file_id :
  let ids' := snd (prepare_sqs_messages df ids file_id) in
  ids ⊆ ids' ∧ (size ids ≤ size ids' ≤ size ids + length df)%nat.
Proof.
  rewrite prepare_sqs_messages_spec. simpl.
  set (filtered := filter _ df).
  assert (length filtered ≤ length df)%nat by apply length_filter.
  split; [set_solver|]. split.
  - apply subseteq_size. set_solver.
  - rewrite size_union_alt.
    pose proof (size_list_to_set_le (video_id <$> filtered)) as Hle.
    rewrite length_fmap in Hle.
    assert (size (ids ∖ list_to_set (video_id <$> filtered)) ≤ size ids)%nat.
    { apply subseteq_size. set_solver. }
    lia.
Qed.

Section HandlerFacts.

Context (isoparse : string → option datetime)
        (decode_notification : string → result (string * string))
        (splitext : string → string)
        (decode_watch : string → result (list Watch.entry))
        (decode_light : string → result (list Light.entry * list Light.entry))
        {Q : Type} (send_message_batch : Q → list message → response * Q)
        {L : Type} (send_message : L → forwarded → result L).

Abbreviation handler :=
  (lambda_handler isoparse decode_notification splitext decode_watch
                  decode_light Q send_message_batch L send_message).
Abbreviation download :=
  (download_and_preprocess_data isoparse decode_notification splitext
                                decode_watch decode_light Q L).
Abbreviation is_fatal :=
  (fatal isoparse decode_notification decode_watch decode_light Q L).

Lemma forward_keeps c ev file_id (w : world Q L) :
  let w' := forward Q L send_message c ev file_id w in
  s3_exports w' = s3_exports w ∧ s3_video_ids w' = s3_video_ids w
  ∧ clai_files_status w' = clai_files_status w
  ∧ transcript_queue w' = transcript_queue w.
Proof.
  unfold forward. destruct (incoming_body ev); [|done].
  by destruct (send_message _ _).
Qed.

Lemma fatal_raises ev (w : world Q L) c :
  is_fatal ev w →
  (∃ e, download c ev w = Raise e)
  ∨ (∃ e, download_existing_video_ids Q L w = Raise e).
Proof.
  unfold download_and_preprocess_data, get_object.
  destruct 1 as [e H|b e H1 H2|b bucket key H1 H2 H3
                |b bucket key raw H1 H2 H3 Hne1 Hne2
                |b bucket key raw e H1 H2 H3 H4|H].
  - left. exists e. by rewrite H.
  - left. exists e. rewrite H1. simpl. by rewrite H2.
  - left. eexists. rewrite H1. simpl. rewrite H2. simpl. by rewrite H3.
  - left. eexists. rewrite H1. simpl. rewrite H2. simpl. rewrite H3. simpl.
    unfold preprocess. by rewrite !decide_False.
  - left. exists e. rewrite H1. simpl. rewrite H2. simpl. rewrite H3. simpl.
    by rewrite H4.
  - right. eexists. unfold download_existing_video_ids. by rewrite H.
Qed.

(** C6.  When a Fatal-Input or Fatal-Storage condition holds for a run,
    [lambda_handler] raises, and the world it leaves is the world it
    found: no item is put in the status table, the id snapshot is not
    written, nothing is sent. *)
Theorem C6_fatal_leaves_state_untouched c ev (w : world Q L) :
  is_fatal ev w →
  ∃ e, handler c ev w = (Raise e, w).
Proof.
  intros Hfatal. unfold lambda_handler.
  destruct (download c ev w) as [[df md]|e] eqn:Hdl; [|by exists e].
  destruct (download_existing_video_ids Q L w) as [ids|e] eqn:Hids;
    [|by exists e].
  destruct (fatal_raises ev w c Hfatal) as [[e He]|[e He]]; congruence.
Qed.

(** C1.  In a run whose two downloads succeed, the id set after the
    dedup gate contains the set before it, the reported
    [new_videos_added] is the growth of the set, [new_videos_added] and
    [duplicates_not_added] add up to the number of rows of the frame,
    and the snapshot left in storage contains the one that was read. *)
Theorem C1_dedup_gate_monotonic c ev (w : world Q L) df md ids :
  download c ev w = Ok (df, md) →
  download_existing_video_ids Q L w = Ok ids →
  let ids' := snd (prepare_sqs_messages df ids (md_file_id md)) in
  ∃ res w',
    handler c ev w = (Ok res, w')
    ∧ ids ⊆ ids'
    ∧ num_videos_before res = Z.of_nat (size ids)
    ∧ num_videos_after res = Z.of_nat (size ids')
    ∧ Z.of_nat (size ids') - Z.of_nat (size ids) = new_videos_added res
    ∧ new_videos_added res + duplicates_not_added res = Z.of_nat (length df)
    ∧ 0 ≤ new_videos_added res ∧ 0 ≤ duplicates_not_added res
    ∧ ∃ stored, s3_video_ids w' = Some stored ∧ ids ⊆ stored.
Proof.
  intros Hdl Hids ids'.
  destruct (prepare_sqs_messages_grows df ids (md_file_id md))
    as (Hsub & Hlo & Hhi). fold ids' in Hsub, Hlo, Hhi.
  destruct (handler c ev w) as [r w'] eqn:Hrun.
  unfold lambda_handler in Hrun. rewrite Hdl, Hids in Hrun.
  destruct (prepare_sqs_messages df ids (md_file_id md))
    as [messages ids''] eqn:Hprep.
  simpl in ids'. subst ids'.
  injection Hrun as <- <-.
  eexists _, _. split; [reflexivity|].
  split; [done|]. split; [done|]. split; [done|]. split; [done|].
  cbn [new_videos_added duplicates_not_added].
  split; [lia|]. split; [lia|]. split; [lia|].
  match goal with |- context [forward _ _ _ _ _ ?f ?w0] =>
    destruct (forward_keeps c ev f w0) as (_ & Hkeep & _) end.
  rewrite Hkeep. cbn [s3_video_ids]. case_bool_decide.
  - by exists ids''.
  - exists ids. split; [|done].
    unfold download_existing_video_ids in Hids.
    by destruct (s3_video_ids w); simplify_eq.
Qed.

End HandlerFacts.

Lemma C6_fatal_leaves_state_untouched_witness :
  fatal sample_isoparse sample_notification sample_decode_watch
        sample_decode_light (list (list message)) unit
        (sample_event "bad.json") sample_world
  ∧ ∃ e, sample_handler sample_clock (sample_event "bad.json") sample_world
         = (Raise e, sample_world).
Proof.
  assert (fatal sample_isoparse sample_notification sample_decode_watch
            sample_decode_light (list (list message)) unit
            (sample_event "bad.json") sample_world) as Hfatal.
  { apply (malformed_blob _ _ _ _ _ _ _ _ "bad.json"
             CLAI_EXPORTS_BUCKET_NAME "bad.json" "{" JSONDecodeError);
      vm_compute; reflexivity. }
  split; [exact Hfatal|].
  exact (C6_fatal_leaves_state_untouched sample_isoparse sample_notification
           (fun key => key) sample_decode_watch sample_decode_light sample_send
           sample_forward sample_clock (sample_event "bad.json") sample_world
           Hfatal).
Defined.

Lemma C1_dedup_gate_monotonic_witness :
  ∃ res w',
    sample_handler sample_clock (sample_event "good.json") sample_world
    = (Ok res, w')
    ∧ num_videos_before res = 1
    ∧ new_videos_added res + duplicates_not_added res = 4.
Proof.
  destruct (C1_dedup_gate_monotonic sample_isoparse sample_notification
              (fun key => key) sample_decode_watch sample_decode_light
              sample_send sample_forward sample_clock
              (sample_event "good.json") sample_world
              (plain_watch <$> [("abc12345678", "a", "t1"); ("bbbbbbbbbbb", "b", "t2");
                                ("ccccccccccc", "c", "t3"); ("ddddddddddd", "d", "t4")])
              {| md_file_id := "good.json";
                 md_s3_bucket := CLAI_EXPORTS_BUCKET_NAME;
                 md_upload_timestamp := "2023-10-01 10:00:00" |}
              {[ "abc12345678" ]})
    as (res & w' & Hrun & _ & Hbefore & _ & _ & Hsum & _).
  - vm_compute. reflexivity.
  - vm_compute. reflexivity.
  - exists res, w'. split; [exact Hrun|]. split.
    + rewrite Hbefore. vm_compute. reflexivity.
    + rewrite Hsum. reflexivity.
Defined.

(** ** [drop_duplicates] *)

Section DropDuplicates.

Context {A : Type} (key : A → string).

Lemma drop_duplicates_from_sublist (df : list A) : ∀ seen,
  sublist (drop_duplicates_from key seen df) df.
Proof.
  induction df as [|r df IH]; intros seen; simpl; [constructor|].
  destruct (decide _); [apply sublist_cons|apply sublist_skip]; apply IH.
Qed.

Lemma drop_duplicates_from_fresh (df : list A) : ∀ seen r,
  r ∈ drop_duplicates_from key seen df → key r ∉ seen.
Proof.
  induction df as [|x df IH]; intros seen r; simpl; [by intros ?%elem_of_nil|].
  destruct (decide _) as [Hin|Hout]; [apply IH|].
  intros [->|Hr]%elem_of_cons; [done|]. apply IH in Hr. set_solver.
Qed.

Lemma drop_duplicates_from_NoDup (df : list A) : ∀ seen,
  NoDup (key <$> drop_duplicates_from key seen df).
Proof.
  induction df as [|x df IH]; intros seen; simpl; [constructor|].
  destruct (decide _) as [Hin|Hout]; [apply IH|].
  rewrite fmap_cons. apply NoDup_cons. split; [|apply IH].
  intros (r & Heq & Hr)%list_elem_of_fmap.
  apply drop_duplicates_from_fresh in Hr. set_solver.
Qed.

(** Every key of the frame that was not seen before survives. *)
Lemma drop_duplicates_from_keys (df : list A) : ∀ seen r,
  r ∈ df → key r ∉ seen → key r ∈ key <$> drop_duplicates_from key seen df.
Proof.
  induction df as [|x df IH]; intros seen r; simpl; [by intros ?%elem_of_nil|].
  intros [->|Hr]%elem_of_cons Hfresh.
  - rewrite decide_False by done. rewrite fmap_cons. left.
  - destruct (decide (key x ∈ seen)); [by apply IH|].
    rewrite fmap_cons. destruct (decide (key r = key x)) as [->|Hne]; [left|].
    right. apply IH; [done|set_solver].
Qed.

(** A frame without repeated keys is left as it is. *)
Lemma drop_duplicates_from_id (df : list A) : ∀ seen,
  NoDup (key <$> df) → (∀ r, r ∈ df → key r ∉ seen) →
  drop_duplicates_from key seen df = df.
Proof.
  induction df as [|x df IH]; intros seen Hnodup Hfresh; [done|].
  rewrite fmap_cons in Hnodup. apply NoDup_cons in Hnodup as [Hx Hnodup].
  simpl. rewrite decide_False by (apply Hfresh; left). f_equal.
  apply IH; [done|]. intros r Hr. apply not_elem_of_union. split.
  - intros Heq%elem_of_singleton. apply Hx. rewrite <- Heq.
    by apply list_elem_of_fmap_2.
  - apply Hfresh. by right.
Qed.

Lemma drop_duplicates_NoDup (df : list A) :
  NoDup (key <$> drop_duplicates key df).
Proof. apply drop_duplicates_from_NoDup. Qed.

Lemma drop_duplicates_sublist (df : list A) :
  sublist (drop_duplicates key df) df.
Proof. apply drop_duplicates_from_sublist. Qed.

Lemma drop_duplicates_keys (df : list A) r :
  r ∈ df → key r ∈ key <$> drop_duplicates key df.
Proof. intros. apply drop_duplicates_from_keys; [done|set_solver]. Qed.

Lemma drop_duplicates_id (df : list A) :
  NoDup (key <$> df) → drop_duplicates key df = df.
Proof. intros. apply drop_duplicates_from_id; [done|set_solver]. Qed.

End DropDuplicates.

(** ** Parser A *)

Lemma apply_Ok_Forall2 {A B} (f : A → result B) rows out :
  apply f rows = Ok out → Forall2 (fun r b => f r = Ok b) rows out.
Proof.
  revert out. induction rows as [|r rows IH]; simpl; intros out H.
  - simplify_eq. constructor.
  - apply bind_Ok in H as (b & Hb & H). apply bind_Ok in H as (bs & Hbs & H).
    simplify_eq. constructor; [done|by apply IH].
Qed.

(** What [preprocess_data_clai] returns: the rows that passed [dropna],
    with channel name and id, filtered on the length of the id and with
    repeated ids dropped. *)
Lemma preprocess_data_clai_Ok raw out :
  preprocess_data_clai raw = Ok out →
  ∃ rows : list (Watch.row * (string * string)),
    Forall (fun r => String.length (snd (snd r)) = 11%nat) rows
    ∧ NoDup ((fun r => snd (snd r)) <$> rows)
    ∧ out = (fun r => {| video_id := snd (snd r);
                        channel_name := fst (snd r);
                        title := Watch.r_title (fst r);
                        watched_at := VStr (Watch.r_time (fst r));
                        type := Watch.passed_type raw (fst r);
                        status := Some "CREATED" |}) <$> rows.
Proof.
  unfold preprocess_data_clai. intros H.
  apply bind_Ok in H as (df & _ & H). apply bind_Ok in H as (names & _ & H).
  simplify_eq. eexists. split; [|split; [|reflexivity]].
  - apply Forall_forall. intros r Hr.
    eapply elem_of_sublist in Hr; [|apply drop_duplicates_sublist].
    by apply list_elem_of_filter in Hr as [Hlen _].
  - apply drop_duplicates_NoDup.
Qed.

(** ** The stable sort *)

Section Sort.

Context {A : Type} (le : A → A → bool).

Lemma insert_sorted_Permutation x l : insert_sorted le x l ≡ₚ x :: l.
Proof.
  induction l as [|y l IH]; simpl; [done|].
  destruct (le x y); [done|]. rewrite IH. apply Permutation_swap.
Qed.

Lemma sort_stable_Permutation l : sort_stable le l ≡ₚ l.
Proof.
  induction l as [|x l IH]; simpl; [done|].
  by rewrite insert_sorted_Permutation, IH.
Qed.

Lemma sort_stable_elem_of x l : x ∈ sort_stable le l ↔ x ∈ l.
Proof. by rewrite sort_stable_Permutation. Qed.

Lemma sort_stable_length l : length (sort_stable le l) = length l.
Proof. by rewrite sort_stable_Permutation. Qed.

End Sort.

(** ** The ranking engine: what it keeps *)

Lemma rank_within_from_length df : ∀ before rows,
  length (rank_within_from df before rows) = length rows.
Proof.
  intros before rows. revert before.
  induction rows as [|r rows IH]; intros before; simpl; [done|].
  by rewrite IH.
Qed.

Lemma zip_with_fmap_l {A B C} (f : A → B → C) (g : C → A) l k :
  (∀ a b, g (f a b) = a) → length l = length k → g <$> zip_with f l k = l.
Proof.
  intros Hg. revert k. induction l as [|a l IH]; intros [|b k] Hlen;
    simplify_eq/=; [done|]. by rewrite Hg, IH.
Qed.

Lemma with_ranks_base df : base <$> with_ranks df = df.
Proof.
  unfold with_ranks. apply zip_with_fmap_l; [done|].
  unfold rank_within_group. by rewrite rank_within_from_length.
Qed.

Lemma move_type_to_top_Permutation df : move_type_to_top df ≡ₚ df.
Proof.
  unfold move_type_to_top. induction df as [|r df IH]; [done|].
  rewrite !filter_cons.
  destruct (decide (type (base r) = Some "like")) as [Hl|Hl].
  - rewrite decide_False by (intros Hn; by apply Hn). simpl. by rewrite IH.
  - rewrite decide_True by done. rewrite <- Permutation_middle. by rewrite IH.
Qed.

Lemma sorted_ranks_Permutation df :
  base <$> move_type_to_top (sort_dataframe (with_ranks df)) ≡ₚ df.
Proof.
  rewrite move_type_to_top_Permutation. unfold sort_dataframe.
  rewrite sort_stable_Permutation. by rewrite with_ranks_base.
Qed.

(** [reorder_converted] returns rows of its argument, one for every
    video_id of the argument. *)
Lemma reorder_converted_elem_of df r :
  r ∈ reorder_converted df → r ∈ df.
Proof.
  unfold reorder_converted. intros (x & -> & Hx)%list_elem_of_fmap.
  eapply elem_of_sublist in Hx; [|apply drop_duplicates_sublist].
  rewrite <- (sorted_ranks_Permutation df). by apply list_elem_of_fmap_2.
Qed.

Lemma reorder_converted_NoDup df :
  NoDup (video_id <$> reorder_converted df).
Proof.
  unfold reorder_converted. rewrite <- list_fmap_compose.
  apply (drop_duplicates_NoDup (fun r => video_id (base r))).
Qed.

Lemma reorder_converted_ids df r :
  r ∈ df → video_id r ∈ video_id <$> reorder_converted df.
Proof.
  intros Hr. rewrite <- (sorted_ranks_Permutation df) in Hr.
  apply list_elem_of_fmap in Hr as (x & -> & Hx).
  unfold reorder_converted. rewrite <- list_fmap_compose.
  by apply (drop_duplicates_keys (fun r => video_id (base r))).
Qed.

(** ** Parser B *)

Lemma check_columns_Ok cols u : check_columns cols = Ok u → missing_columns cols = [].
Proof. unfold check_columns. by destruct (missing_columns cols). Qed.

Lemma light_frame_Ok likes subs df :
  light_frame likes subs = Ok df →
  df = omap light_canonical
         (sort_stable (fun a b => not_gt (Light.compare_tagged a b))
                      (Light.tag "like" likes ++ Light.tag "sub" subs)).
Proof.
  unfold light_frame. intros H.
  apply bind_Ok in H as (_ & _ & H). apply bind_Ok in H as (_ & _ & H).
  by simplify_eq.
Qed.

Lemma tag_elem_of kind entries t :
  t ∈ Light.tag kind entries → Light.kind t = kind ∧ Light.item t ∈ entries.
Proof.
  unfold Light.tag. intros (i & e & -> & He)%elem_of_lookup_imap. simpl.
  split; [done|]. by eapply list_elem_of_lookup_2.
Qed.

Lemma light_canonical_Some t r :
  light_canonical t = Some r →
  light_source (Light.item t) r ∧ type r = Some (Light.kind t) ∧ status r = None
  ∧ watched_at r = Light.cell_value (Light.timestamp (Light.item t)).
Proof.
  unfold light_canonical, light_source.
  destruct (Light.url _) as [| |u] eqn:Hu; try done.
  destruct (Light.title _) as [| |ti] eqn:Hti; try done.
  destruct (Light.channelName _) as [| |c] eqn:Hc; try done.
  intros [= <-]. simpl. eauto 10.
Qed.

Lemma light_frame_rows likes subs df r :
  light_frame likes subs = Ok df → r ∈ df → light_row likes subs r.
Proof.
  intros -> %light_frame_Ok (t & Ht & Hr)%list_elem_of_omap.
  apply sort_stable_elem_of in Ht.
  apply light_canonical_Some in Hr as (Hsrc & Hty & _).
  apply elem_of_app in Ht as [Ht|Ht]; apply tag_elem_of in Ht as [Hk He];
    rewrite Hk in Hty; [left|right]; eauto.
Qed.

Section ParserFacts.

Context (isoparse : string → option datetime).

Lemma convert_to_datetime_Ok df df' :
  convert_to_datetime isoparse df = Ok df' →
  Forall2 (fun r r' => ∃ v, to_datetime isoparse (watched_at r) = Ok v
                            ∧ r' = set_watched_at r v) df df'.
Proof.
  intros H%apply_Ok_Forall2. eapply Forall2_impl; [exact H|].
  intros r r' Hr. simpl in Hr.
  apply bind_Ok in Hr as (v & Hv & Hr). simplify_eq. eauto.
Qed.

Lemma preprocess_data_clai_light_Ok likes subs out :
  preprocess_data_clai_light isoparse likes subs = Ok out →
  ∃ df df', light_frame likes subs = Ok df
            ∧ convert_to_datetime isoparse df = Ok df'
            ∧ out = reorder_converted df'.
Proof.
  unfold preprocess_data_clai_light, reorder_frame. intros H.
  apply bind_Ok in H as (df & Hdf & H). apply bind_Ok in H as (df' & Hdf' & H).
  simplify_eq. eauto.
Qed.

Lemma light_row_converted likes subs r v :
  light_row likes subs r → light_row likes subs (set_watched_at r v).
Proof. done. Qed.

Lemma preprocess_data_clai_light_rows likes subs out r :
  preprocess_data_clai_light isoparse likes subs = Ok out →
  r ∈ out → light_row likes subs r.
Proof.
  intros (df & df' & Hdf & Hdf' & ->)%preprocess_data_clai_light_Ok Hr.
  apply reorder_converted_elem_of in Hr.
  apply convert_to_datetime_Ok in Hdf'.
  apply list_elem_of_lookup in Hr as [i Hi].
  destruct (Forall2_lookup_r _ _ _ _ _ Hdf' Hi) as (r0 & Hr0 & v & _ & ->).
  apply light_row_converted. eapply light_frame_rows; [done|].
  by eapply list_elem_of_lookup_2.
Qed.

End ParserFacts.

(** [drop_duplicates] keeps, of the rows with a given key, the first one. *)
Lemma drop_duplicates_from_first {A} (key : A → string) (k : string) (df : list A) :
  ∀ seen,
    filter (fun r => key r = k) (drop_duplicates_from key seen df)
    = if decide (k ∈ seen) then [] else take 1 (filter (fun r => key r = k) df).
Proof.
  induction df as [|x df IH]; intros seen; simpl.
  - by destruct (decide _).
  - rewrite (filter_cons _ x df).
    destruct (decide (key x ∈ seen)) as [Hin|Hout];
      rewrite ?filter_cons, IH; repeat case_decide; subst;
      try done; set_solver.
Qed.

Lemma drop_duplicates_first {A} (key : A → string) (k : string) (df : list A) :
  filter (fun r => key r = k) (drop_duplicates key df)
  = take 1 (filter (fun r => key r = k) df).
Proof.
  unfold drop_duplicates. rewrite drop_duplicates_from_first.
  by rewrite decide_False by set_solver.
Qed.

(** ** Parser B on valid input *)

Lemma apply_total {A B} (f : A → result B) rows :
  Forall (fun r => ∃ b, f r = Ok b) rows → ∃ out, apply f rows = Ok out.
Proof.
  induction 1 as [|r rows [b Hb] _ [out IH]]; simpl; [eauto|].
  rewrite Hb. simpl. rewrite IH. simpl. eauto.
Qed.

Lemma has_column_true {E A} (col : E → cell A) entries :
  has_column col entries = true ↔ ∃ e, e ∈ entries ∧ present (col e) = true.
Proof.
  unfold has_column. rewrite existsb_exists.
  split; intros (e & He & Hp); exists e; by rewrite ?list_elem_of_In in *.
Qed.

Lemma has_column_tagged {A} (col : Light.entry → cell A) likes subs :
  has_column (fun t => col (Light.item t))
    (sort_stable (fun a b => not_gt (Light.compare_tagged a b))
                 (Light.tag "like" likes ++ Light.tag "sub" subs))
  = has_column col (likes ++ subs).
Proof.
  apply eq_true_iff_eq. rewrite !has_column_true. split.
  - intros (t & Ht & Hp). exists (Light.item t). split; [|done].
    apply sort_stable_elem_of in Ht.
    apply elem_of_app in Ht as [Ht|Ht]; apply tag_elem_of in Ht as [_ ?];
      set_solver.
  - intros (e & He & Hp).
    assert (∃ t, t ∈ Light.tag "like" likes ++ Light.tag "sub" subs
                 ∧ Light.item t = e) as (t & Ht & <-).
    { apply elem_of_app in He as [He|He];
        apply list_elem_of_lookup in He as [i Hi].
      - exists {| Light.item := e; Light.order := i; Light.kind := "like" |}.
        split; [|done]. apply elem_of_app. left.
        by apply (elem_of_lookup_imap_2
                    (fun i e => {| Light.item := e; Light.order := i;
                                   Light.kind := "like" |}) likes e i).
      - exists {| Light.item := e; Light.order := i; Light.kind := "sub" |}.
        split; [|done]. apply elem_of_app. right.
        by apply (elem_of_lookup_imap_2
                    (fun i e => {| Light.item := e; Light.order := i;
                                   Light.kind := "sub" |}) subs e i). }
    exists t. split; [|done]. by apply sort_stable_elem_of.
Qed.





Lemma sample_light_valid : light_valid sample_likes sample_subs.
Proof.
  repeat split; try reflexivity.
  intros e He _ _ _. simpl in He.
  repeat (apply elem_of_cons in He as [->|He]; [reflexivity|]).
  by apply elem_of_nil in He.
Defined.

Example preprocess_data_clai_light_ex :
  preprocess_data_clai_light sample_isoparse sample_likes sample_subs
  = Ok [ rec "l2" "B" "like" (minute_time 30);
         rec "l1" "A" "like" (minute_time 10);
         {| video_id := "l3"; channel_name := "B"; title := "t";
            watched_at := VNaT; type := Some "like"; status := None |};
         rec "s1" "A" "sub" (minute_time 50) ].
Proof. vm_compute. reflexivity. Qed.

(** ** Comparisons *)

Section TotalCompare.

Context {A : Type} (cmp : A → A → comparison) `{!TotalCompare cmp}.

Lemma cmp_eq_sym x y : cmp x y = Eq → cmp y x = Eq.
Proof. intros H. by rewrite (cmp_antisym cmp x y), H. Qed.

Lemma cmp_lt_gt x y : cmp x y = Lt ↔ cmp y x = Gt.
Proof. rewrite (cmp_antisym cmp x y). destruct (cmp x y); naive_solver. Qed.

Lemma cmp_eq_trans x y z : cmp x y = Eq → cmp y z = Eq → cmp x z = Eq.
Proof.
  intros Hxy Hyz.
  assert (cmp x z ≠ Gt) by (apply (cmp_trans cmp x y z); congruence).
  assert (cmp z x ≠ Gt) as Hzx.
  { apply (cmp_trans cmp z y x).
    - rewrite (cmp_antisym cmp y z), Hyz. done.
    - rewrite (cmp_antisym cmp x y), Hxy. done. }
  rewrite (cmp_antisym cmp x z) in Hzx. destruct (cmp x z); done.
Qed.

Lemma cmp_lt_le x y z : cmp x y = Lt → cmp y z ≠ Gt → cmp x z = Lt.
Proof.
  intros Hxy Hyz.
  assert (cmp x z ≠ Gt) by (apply (cmp_trans cmp x y z); congruence).
  destruct (cmp x z) eqn:Hxz; [|done|done]. exfalso.
  assert (cmp y x ≠ Gt) as Hyx.
  { apply (cmp_trans cmp y z x); [done|].
    by rewrite (cmp_antisym cmp x z), Hxz. }
  apply Hyx. by apply cmp_lt_gt.
Qed.

Lemma cmp_le_lt x y z : cmp x y ≠ Gt → cmp y z = Lt → cmp x z = Lt.
Proof.
  intros Hxy Hyz.
  assert (cmp x z ≠ Gt) by (apply (cmp_trans cmp x y z); congruence).
  destruct (cmp x z) eqn:Hxz; [|done|done]. exfalso.
  assert (cmp z y ≠ Gt) as Hzy.
  { apply (cmp_trans cmp z x y); [|done].
    by rewrite (cmp_antisym cmp x z), Hxz. }
  apply Hzy. by apply cmp_lt_gt.
Qed.

Lemma cmp_eq_l x y z : cmp x y = Eq → cmp x z = cmp y z.
Proof.
  intros Hxy. destruct (cmp y z) eqn:Hyz.
  - by apply (cmp_eq_trans x y z).
  - apply (cmp_le_lt x y z); [congruence|done].
  - apply cmp_lt_gt. apply cmp_lt_gt in Hyz.
    apply (cmp_lt_le z y x); [done|].
    rewrite (cmp_antisym cmp x y), Hxy. done.
Qed.

Lemma cmp_eq_r x y z : cmp y z = Eq → cmp x y = cmp x z.
Proof.
  intros Hyz. rewrite (cmp_antisym cmp y x), (cmp_antisym cmp z x). f_equal.
  by apply cmp_eq_l.
Qed.

End TotalCompare.

Global Instance lex_total {A} (c1 c2 : A → A → comparison) :
  TotalCompare c1 → TotalCompare c2 →
  TotalCompare (fun a b => lex (c1 a b) (c2 a b)).
Proof.
  intros H1 H2. split.
  - intros x. by rewrite (cmp_refl c1), (cmp_refl c2).
  - intros x y. rewrite (cmp_antisym c1 x y), (cmp_antisym c2 x y).
    by destruct (c1 x y).
  - intros x y z Hxy Hyz.
    destruct (c1 x y) eqn:E1; simpl in Hxy; [|clear Hxy|done].
    + rewrite (cmp_eq_l c1 x y z E1).
      destruct (c1 y z) eqn:E2; simpl in *; [|done|done].
      by apply (cmp_trans c2 x y z).
    + assert (c1 y z ≠ Gt) by (destruct (c1 y z); done).
      by rewrite (cmp_lt_le c1 x y z).
Qed.

Global Instance on_total {A B} (f : A → B) (cmp : B → B → comparison) :
  TotalCompare cmp → TotalCompare (fun a b => cmp (f a) (f b)).
Proof.
  intros H. split; intros.
  - apply (cmp_refl cmp).
  - apply (cmp_antisym cmp).
  - by eapply (cmp_trans cmp).
Qed.

Global Instance na_last_total {A} (cmp : A → A → comparison) :
  TotalCompare cmp → TotalCompare (compare_na_last cmp).
Proof.
  intros H. split.
  - intros [x|]; simpl; [apply (cmp_refl cmp)|done].
  - intros [x|] [y|]; simpl; try done. apply (cmp_antisym cmp).
  - intros [x|] [y|] [z|]; simpl; try done. apply (cmp_trans cmp).
Qed.

Global Instance nat_compare_total : TotalCompare Nat.compare.
Proof.
  split.
  - apply Nat.compare_refl.
  - intros x y. apply Nat.compare_antisym.
  - intros x y z. rewrite !Nat.compare_gt_iff. lia.
Qed.

Global Instance Z_compare_total : TotalCompare Z.compare.
Proof.
  split.
  - apply Z.compare_refl.
  - intros x y. apply Z.compare_antisym.
  - intros x y z. rewrite !Z.compare_gt_iff. lia.
Qed.

Lemma ascii_compare_total : TotalCompare Ascii.compare.
Proof.
  unfold Ascii.compare. split.
  - intros x. apply N.compare_refl.
  - intros x y. apply N.compare_antisym.
  - intros x y z. rewrite !N.compare_gt_iff. lia.
Qed.

Global Instance string_compare_total : TotalCompare String.compare.
Proof.
  pose proof ascii_compare_total as Ha. split.
  - induction x as [|a x IH]; simpl; [done|].
    by rewrite (cmp_refl Ascii.compare).
  - intros x y. apply String.compare_antisym.
  - induction x as [|a x IH]; intros [|b y] [|c z]; simpl; try done.
    destruct (Ascii.compare a b) eqn:E1; [|intros _|done].
    + rewrite (cmp_eq_l Ascii.compare a b c E1).
      destruct (Ascii.compare b c); [apply IH|done|done].
    + intros Hbc.
      assert (Ascii.compare b c ≠ Gt) by (by destruct (Ascii.compare b c)).
      by rewrite (cmp_lt_le Ascii.compare a b c).
Qed.

Global Instance compare_datetime_total : TotalCompare compare_datetime.
Proof.
  apply (lex_total (fun a b => Z.compare (epoch_second a) (epoch_second b))
                   (fun a b => Z.compare (microsecond a) (microsecond b)));
    apply _.
Qed.

Global Instance compare_ranked_total : TotalCompare compare_ranked.
Proof.
  apply (lex_total
           (fun a b => compare_na_last Nat.compare (video_rank_within_group a)
                                                   (video_rank_within_group b))
           (fun a b => lex (compare_na_last Nat.compare (sub_group_rank a)
                                                        (sub_group_rank b))
                           (compare_na_last String.compare (type (base a))
                                                           (type (base b))))).
  - apply (on_total video_rank_within_group). apply _.
  - apply (lex_total
             (fun a b => compare_na_last Nat.compare (sub_group_rank a)
                                                     (sub_group_rank b))
             (fun a b => compare_na_last String.compare (type (base a))
                                                        (type (base b)))).
    + apply (on_total sub_group_rank). apply _.
    + apply (on_total (fun a => type (base a))). apply _.
Qed.

Lemma compare_datetime_eq a b : compare_datetime a b = Eq → a = b.
Proof.
  unfold compare_datetime. destruct a as [s1 u1], b as [s2 u2]. simpl.
  destruct (Z.compare_spec s1 s2); simpl; try done.
  intros ->%Z.compare_eq. by subst.
Qed.

(** ** The stable sort, for a total comparison *)

Section SortTotal.

Context {A : Type} (cmp : A → A → comparison) `{!TotalCompare cmp}.

Let le (a b : A) : bool := not_gt (cmp a b).
Let R (a b : A) : Prop := cmp a b ≠ Gt.

Lemma not_gt_true a b : not_gt (cmp a b) = true ↔ cmp a b ≠ Gt.
Proof. by destruct (cmp a b). Qed.

Lemma insert_sorted_sorted x l :
  StronglySorted R l → StronglySorted R (insert_sorted le x l).
Proof.
  induction 1 as [|y l Hl IH Hy]; simpl.
  - repeat constructor.
  - unfold le at 1. destruct (cmp x y) eqn:E; simpl.
    + constructor; [by constructor|]. constructor; [unfold R; congruence|].
      eapply Forall_impl; [exact Hy|]. intros z Hz. unfold R.
      apply (cmp_trans cmp x y z); [congruence|done].
    + constructor; [by constructor|]. constructor; [unfold R; congruence|].
      eapply Forall_impl; [exact Hy|]. intros z Hz. unfold R.
      apply (cmp_trans cmp x y z); [congruence|done].
    + constructor; [done|].
      apply Forall_forall. intros z Hz.
      rewrite (insert_sorted_Permutation le x l) in Hz.
      apply elem_of_cons in Hz as [->|Hz].
      * unfold R. rewrite (cmp_antisym cmp x y), E. done.
      * by eapply Forall_forall in Hy.
Qed.

Lemma sort_stable_sorted l : StronglySorted R (sort_stable le l).
Proof.
  induction l as [|x l IH]; simpl; [constructor|].
  by apply insert_sorted_sorted.
Qed.

(** Stability: the rows with the keys of [a] keep their order. *)
Lemma insert_sorted_stable a x l :
  filter (fun y => cmp a y = Eq) (insert_sorted le x l)
  = filter (fun y => cmp a y = Eq) (x :: l).
Proof.
  induction l as [|y l IH]; simpl; [done|].
  unfold le at 1. destruct (cmp x y) eqn:E; simpl; try done.
  rewrite (filter_cons _ y (insert_sorted _ _ _)), IH.
  rewrite !filter_cons.
  destruct (decide (cmp a y = Eq)) as [Hy|Hy],
           (decide (cmp a x = Eq)) as [Hx|Hx]; try done.
  exfalso. apply (cmp_eq_sym cmp) in Hx.
  pose proof (cmp_eq_trans cmp x a y Hx Hy). congruence.
Qed.

Lemma sort_stable_stable a l :
  filter (fun y => cmp a y = Eq) (sort_stable le l)
  = filter (fun y => cmp a y = Eq) l.
Proof.
  induction l as [|x l IH]; simpl; [done|].
  by rewrite insert_sorted_stable, !filter_cons, IH.
Qed.

(** Two sorted lists in which the rows of every key come in the same
    order are equal. *)
Lemma sorted_unique l1 : ∀ l2,
  StronglySorted R l1 → StronglySorted R l2 →
  (∀ a, filter (fun y => cmp a y = Eq) l1 = filter (fun y => cmp a y = Eq) l2) →
  l1 = l2.
Proof.
  induction l1 as [|a l1 IH]; intros l2 Hs1 Hs2 Hf.
  - destruct l2 as [|b l2]; [done|]. specialize (Hf b).
    rewrite filter_cons, decide_True in Hf by apply (cmp_refl cmp). done.
  - pose proof (Hf a) as Ha.
    rewrite filter_cons, decide_True in Ha by apply (cmp_refl cmp).
    destruct l2 as [|b l2]; [done|].
    apply StronglySorted_inv in Hs1 as [Hs1 Hall1].
    apply StronglySorted_inv in Hs2 as [Hs2 Hall2].
    assert (cmp a b = Eq) as Hab.
    { assert (a ∈ b :: l2) as Hain.
      { eapply (list_elem_of_filter (fun y => cmp a y = Eq)).
        rewrite <- Ha. left. }
      assert (b ∈ a :: l1) as Hbin.
      { eapply (list_elem_of_filter (fun y => cmp b y = Eq)).
        rewrite (Hf b), filter_cons, decide_True by apply (cmp_refl cmp).
        left. }
      apply elem_of_cons in Hain as [->|Hain]; [apply (cmp_refl cmp)|].
      apply elem_of_cons in Hbin as [->|Hbin]; [apply (cmp_refl cmp)|].
      eapply Forall_forall in Hall1; [|exact Hbin].
      eapply Forall_forall in Hall2; [|exact Hain].
      unfold R in *. rewrite (cmp_antisym cmp a b) in Hall2.
      destruct (cmp a b); done. }
    rewrite filter_cons, decide_True in Ha by done.
    injection Ha as <- Ha. f_equal. apply IH; [done..|].
    intros c. specialize (Hf c). rewrite !filter_cons in Hf.
    destruct (decide (cmp c a = Eq)); [by injection Hf|done].
Qed.

(** The stable sort of a rearrangement of a sorted list that keeps the
    order of the rows of every key is that sorted list. *)
Lemma sort_stable_rearranged l s :
  StronglySorted R s →
  (∀ a, filter (fun y => cmp a y = Eq) l = filter (fun y => cmp a y = Eq) s) →
  sort_stable le l = s.
Proof.
  intros Hs Hf. apply sorted_unique; [apply sort_stable_sorted|done|].
  intros a. by rewrite sort_stable_stable.
Qed.

End SortTotal.

(** ** Ranks *)

Lemma rank_within_from_lookup df rows : ∀ before i r,
  rows !! i = Some r →
  rank_within_from df before rows !! i
  = Some (rank_of (group_times df (channel_name r))
                  (group_times (before ++ take i rows) (channel_name r))
                  (time_of (watched_at r))).
Proof.
  induction rows as [|x rows IH]; intros before i r Hi; [done|].
  destruct i as [|i]; simpl in *.
  - simplify_eq. by rewrite app_nil_r.
  - rewrite (IH _ _ _ Hi). by rewrite <- app_assoc.
Qed.

Lemma count_times_Permutation p xs ys :
  xs ≡ₚ ys → count_times p xs = count_times p ys.
Proof.
  unfold count_times.
  generalize (fun x : option datetime =>
                match x with Some y => p y | None => false end).
  intros q. induction 1 as [|x l l' _ IH|x y l|l l' l'' _ IH1 _ IH2]; simpl.
  - done.
  - destruct (q x); simpl; by rewrite IH.
  - by destruct (q x), (q y).
  - congruence.
Qed.

Lemma group_times_Permutation df df' name :
  df ≡ₚ df' → group_times df name ≡ₚ group_times df' name.
Proof. intros H. unfold group_times. by rewrite H. Qed.

(** ** Ranks do not depend on the order of the rows *)

Lemma filter_eq_NoDup {A} `{EqDecision A} (a : A) (l : list A) :
  NoDup l → filter (fun y => a = y) l = if decide (a ∈ l) then [a] else [].
Proof.
  induction 1 as [|x l Hx Hl IH]; [done|].
  rewrite filter_cons, IH. destruct (decide (a = x)) as [<-|Hne].
  - rewrite (decide_False (P:=a ∈ l)) by done.
    by rewrite (decide_True (P:=a ∈ a :: l)) by left.
  - destruct (decide (a ∈ l)).
    + by rewrite decide_True by (by right).
    + rewrite decide_False; [done|]. by intros [?|?]%elem_of_cons.
Qed.

Lemma string_compare_eq a b : String.compare a b = Eq ↔ a = b.
Proof.
  split; [apply String.compare_eq_iff|].
  intros ->. apply (cmp_refl String.compare).
Qed.

Lemma sort_strings_Permutation (l l' : list string) :
  NoDup l → l ≡ₚ l' →
  sort_stable (fun a b => not_gt (String.compare a b)) l
  = sort_stable (fun a b => not_gt (String.compare a b)) l'.
Proof.
  intros Hl Hperm. assert (NoDup l') as Hl' by (by rewrite <- Hperm).
  apply (sort_stable_rearranged String.compare);
    [apply (sort_stable_sorted String.compare)|].
  intros a. rewrite (sort_stable_stable String.compare).
  rewrite (list_filter_iff (fun y => String.compare a y = Eq) (fun y => a = y) l),
    (list_filter_iff (fun y => String.compare a y = Eq) (fun y => a = y) l')
    by (intros; apply string_compare_eq).
  rewrite !filter_eq_NoDup by done.
  destruct (decide (a ∈ l)) as [Hin|Hout].
  - by rewrite decide_True by (by rewrite <- Hperm).
  - by rewrite decide_False by (by rewrite <- Hperm).
Qed.

Lemma group_keys_Permutation df df' :
  df ≡ₚ df' → group_keys df = group_keys df'.
Proof.
  intros Hperm. unfold group_keys.
  apply sort_strings_Permutation; [apply NoDup_remove_dups|].
  apply NoDup_Permutation; [apply NoDup_remove_dups..|].
  intros x. rewrite !elem_of_remove_dups. by rewrite Hperm.
Qed.

(** [max_time] is the largest time of the list, whatever the order. *)
Lemma max_time_spec xs :
  match max_time xs with
  | Some m => Some m ∈ xs ∧ ∀ y, Some y ∈ xs → compare_datetime y m ≠ Gt
  | None => ∀ y, Some y ∉ xs
  end.
Proof.
  induction xs as [|x xs IH]; simpl.
  - intros y. apply not_elem_of_nil.
  - destruct x as [a|]; destruct (max_time xs) as [m|].
    + destruct IH as [Hm Hmax]. unfold is_cmp. case_bool_decide as Hgt.
      * split; [left|]. intros y [[= ->]|Hy]%elem_of_cons.
        -- by rewrite (cmp_refl compare_datetime).
        -- apply (cmp_trans compare_datetime y m a); [by apply Hmax|].
           rewrite (cmp_antisym compare_datetime a m), Hgt. done.
      * split; [by right|]. intros y [[= ->]|Hy]%elem_of_cons; [done|].
        by apply Hmax.
    + split; [left|]. intros y [[= ->]|Hy]%elem_of_cons.
      * by rewrite (cmp_refl compare_datetime).
      * by apply IH in Hy.
    + destruct IH as [Hm Hmax]. split; [by right|].
      intros y [?|Hy]%elem_of_cons; [done|]. by apply Hmax.
    + intros y [?|Hy]%elem_of_cons; [done|]. by apply IH in Hy.
Qed.

Lemma max_time_Permutation xs ys : xs ≡ₚ ys → max_time xs = max_time ys.
Proof.
  intros Hperm. pose proof (max_time_spec xs) as Hx.
  pose proof (max_time_spec ys) as Hy.
  destruct (max_time xs) as [m|], (max_time ys) as [m'|]; try done.
  - destruct Hx as [Hm Hmax], Hy as [Hm' Hmax']. f_equal.
    apply compare_datetime_eq.
    assert (compare_datetime m m' ≠ Gt) by (apply Hmax'; by rewrite <- Hperm).
    assert (compare_datetime m' m ≠ Gt) as H' by (apply Hmax; by rewrite Hperm).
    rewrite (cmp_antisym compare_datetime m m') in H'.
    by destruct (compare_datetime m m').
  - destruct Hx as [Hm _]. rewrite Hperm in Hm. by apply Hy in Hm.
  - destruct Hy as [Hm _]. rewrite <- Hperm in Hm. by apply Hx in Hm.
Qed.

Lemma calculate_sub_group_rank_Permutation df df' :
  df ≡ₚ df' → calculate_sub_group_rank df = calculate_sub_group_rank df'.
Proof.
  intros Hperm. unfold calculate_sub_group_rank. cbv zeta.
  rewrite (group_keys_Permutation df df' Hperm). do 2 f_equal.
  apply list_fmap_ext. intros _ k _.
  apply max_time_Permutation. by apply group_times_Permutation.
Qed.

(** ** Ranking an already ranked frame *)

Lemma filter_none {A} (P : A → Prop) `{∀ x, Decision (P x)} (l : list A) :
  (∀ x, x ∈ l → ¬ P x) → filter P l = [].
Proof.
  induction l as [|x l IH]; intros Hl; [done|].
  rewrite filter_cons, decide_False by (apply Hl; left).
  apply IH. intros y Hy. apply Hl. by right.
Qed.

Lemma compare_ranked_eq_type a x :
  compare_ranked a x = Eq → type (base x) = type (base a).
Proof.
  unfold compare_ranked, lex.
  destruct (compare_na_last Nat.compare (video_rank_within_group a)
              (video_rank_within_group x)); try done.
  destruct (compare_na_last Nat.compare (sub_group_rank a) (sub_group_rank x));
    try done.
  destruct (type (base a)) as [s|], (type (base x)) as [s'|]; simpl; try done.
  by intros ->%String.compare_eq_iff.
Qed.

(** Moving the rows of type "like" to the top keeps, for every key of the
    sort, the order of the rows with that key. *)
Lemma move_type_to_top_stable a S :
  filter (fun y => compare_ranked a y = Eq) (move_type_to_top S)
  = filter (fun y => compare_ranked a y = Eq) S.
Proof.
  unfold move_type_to_top. cbv zeta. rewrite filter_app, !list_filter_filter.
  destruct (decide (type (base a) = Some "like")) as [Hlike|Hother].
  - rewrite (filter_none (fun x => compare_ranked a x = Eq
                                   ∧ type (base x) ≠ Some "like")).
    + rewrite app_nil_r. apply list_filter_iff. intros x. split; [by intros [? _]|].
      intros Heq. split; [done|]. by rewrite (compare_ranked_eq_type a x Heq).
    + intros x _ [Heq Hne]. apply Hne.
      by rewrite (compare_ranked_eq_type a x Heq).
  - rewrite (filter_none (fun x => compare_ranked a x = Eq
                                   ∧ type (base x) = Some "like")).
    + simpl. apply list_filter_iff. intros x. split; [by intros [? _]|].
      intros Heq. split; [done|]. by rewrite (compare_ranked_eq_type a x Heq).
    + intros x _ [Heq Hlike]. apply Hother.
      by rewrite <- (compare_ranked_eq_type a x Heq).
Qed.

Lemma sort_dataframe_move S :
  sort_dataframe (move_type_to_top (sort_dataframe S)) = sort_dataframe S.
Proof.
  unfold sort_dataframe at 1.
  apply (sort_stable_rearranged compare_ranked).
  - apply (sort_stable_sorted compare_ranked).
  - intros a. apply move_type_to_top_stable.
Qed.

(** ** Order of two rows in a frame *)

Section Before.

Context {A : Type}.
Implicit Types l k : list A.

Local Ltac norm_app :=
  repeat first [rewrite <- app_assoc | rewrite <- app_comm_cons]; try done.

Lemma before_elem_of l a b : before l a b → a ∈ l ∧ b ∈ l.
Proof.
  intros (l1 & l2 & l3 & ->). split.
  - apply elem_of_app. right. left.
  - apply elem_of_app. right. right. apply elem_of_app. right. left.
Qed.

Lemma before_fmap {B} (f : A → B) l a b :
  before l a b → before (f <$> l) (f a) (f b).
Proof.
  intros (l1 & l2 & l3 & ->). exists (f <$> l1), (f <$> l2), (f <$> l3).
  by rewrite fmap_app, fmap_cons, fmap_app, fmap_cons.
Qed.

Lemma before_filter (P : A → Prop) `{∀ x, Decision (P x)} l a b :
  before l a b → P a → P b → before (filter P l) a b.
Proof.
  intros (l1 & l2 & l3 & ->) Ha Hb.
  exists (filter P l1), (filter P l2), (filter P l3).
  rewrite filter_app, filter_cons, decide_True by done.
  by rewrite filter_app, filter_cons, decide_True by done.
Qed.

Lemma before_app_l l k a b : before l a b → before (l ++ k) a b.
Proof.
  intros (l1 & l2 & l3 & ->). exists l1, l2, (l3 ++ k).
  by norm_app.
Qed.

Lemma before_app_r l k a b : before k a b → before (l ++ k) a b.
Proof.
  intros (l1 & l2 & l3 & ->). exists (l ++ l1), l2, l3. by norm_app.
Qed.

Lemma before_app_lr l k a b : a ∈ l → b ∈ k → before (l ++ k) a b.
Proof.
  intros (l1 & l2 & ->)%list_elem_of_split (k1 & k2 & ->)%list_elem_of_split.
  exists l1, (l2 ++ k1), k2. by norm_app.
Qed.

Lemma before_total l a b :
  a ∈ l → b ∈ l → a ≠ b → before l a b ∨ before l b a.
Proof.
  intros (l1 & l2 & ->)%list_elem_of_split Hb Hne.
  apply elem_of_app in Hb as [Hb|Hb].
  - right. apply list_elem_of_split in Hb as (k1 & k2 & ->).
    exists k1, k2, l2. by norm_app.
  - apply elem_of_cons in Hb as [->|Hb]; [done|]. left.
    apply list_elem_of_split in Hb as (k1 & k2 & ->). by exists l1, k1, k2.
Qed.

Lemma NoDup_split_unique l x a1 a2 b1 b2 :
  NoDup l → l = a1 ++ x :: a2 → l = b1 ++ x :: b2 → a1 = b1.
Proof.
  intros Hnodup -> Heq. revert b1 Hnodup Heq.
  induction a1 as [|y a1 IH]; intros [|z b1] Hnodup Heq; simplify_eq/=.
  - done.
  - apply NoDup_cons in Hnodup as [Hz _]. exfalso. apply Hz.
    rewrite elem_of_app, elem_of_cons. auto.
  - apply NoDup_cons in Hnodup as [Hz _]. exfalso. apply Hz.
    rewrite elem_of_app, elem_of_cons. auto.
  - f_equal. apply NoDup_cons in Hnodup as [_ Hnodup]. by apply IH.
Qed.

Lemma before_prefix l l1 l2 a b :
  NoDup l → l = l1 ++ b :: l2 → a ∈ l1 ↔ before l a b.
Proof.
  intros Hnodup Hl. split.
  - intros (k1 & k2 & ->)%list_elem_of_split. exists k1, k2, l2.
    rewrite Hl. by norm_app.
  - intros (k1 & k2 & k3 & Hk).
    assert (l1 = k1 ++ a :: k2) as ->.
    { apply (NoDup_split_unique l b l1 l2 (k1 ++ a :: k2) k3); [done..|].
      rewrite Hk. by norm_app. }
    rewrite elem_of_app, elem_of_cons. auto.
Qed.

Lemma before_ne l a b : NoDup l → before l a b → a ≠ b.
Proof.
  intros Hnodup (l1 & l2 & l3 & ->) ->.
  apply NoDup_app in Hnodup as (_ & _ & Hnodup).
  apply NoDup_cons in Hnodup as [Hb _]. apply Hb.
  rewrite elem_of_app, elem_of_cons. auto.
Qed.

Lemma before_asym l a b : NoDup l → before l a b → before l b a → False.
Proof.
  intros Hnodup (l1 & l2 & l3 & Hl) Hba.
  apply (before_prefix l l1 (l2 ++ b :: l3) b a Hnodup Hl) in Hba.
  rewrite Hl in Hnodup. apply NoDup_app in Hnodup as (_ & Hdisj & _).
  apply (Hdisj b Hba). right. apply elem_of_app. right. left.
Qed.

End Before.

Section BeforeSorted.

Context {A : Type} (cmp : A → A → comparison) `{!TotalCompare cmp}.

Lemma sorted_before l a b :
  StronglySorted (fun x y => cmp x y ≠ Gt) l → before l a b → cmp a b ≠ Gt.
Proof.
  intros Hsorted (l1 & l2 & l3 & ->).
  apply StronglySorted_app_1_r, StronglySorted_inv in Hsorted as [_ Hall].
  eapply Forall_forall in Hall; [exact Hall|].
  apply elem_of_app. right. left.
Qed.

(** In a sorted list a row with smaller keys comes first. *)
Lemma before_sorted l a b :
  StronglySorted (fun x y => cmp x y ≠ Gt) l →
  a ∈ l → b ∈ l → cmp a b = Lt → before l a b.
Proof.
  intros Hsorted Ha Hb Hlt.
  assert (a ≠ b) as Hne by (intros ->; by rewrite (cmp_refl cmp) in Hlt).
  destruct (before_total l a b Ha Hb Hne) as [|Hba]; [done|].
  apply (sorted_before l b a Hsorted) in Hba.
  by apply (cmp_lt_gt cmp) in Hlt.
Qed.

End BeforeSorted.

Lemma move_type_to_top_before S x' x :
  before S x' x →
  (type (base x) = Some "like" → type (base x') = Some "like") →
  before (move_type_to_top S) x' x.
Proof.
  intros Hb Hlike. unfold move_type_to_top. cbv zeta.
  destruct (decide (type (base x) = Some "like")) as [Hx|Hx].
  - apply before_app_l, before_filter; auto.
  - destruct (decide (type (base x') = Some "like")) as [Hx'|Hx'].
    + apply before_elem_of in Hb as [H1 H2].
      apply before_app_lr; by apply list_elem_of_filter.
    + apply before_app_r, before_filter; auto.
Qed.

(** ** Ranks by position *)

Lemma with_ranks_imap df :
  with_ranks df = imap (fun i r => ranked_after df (take i df) r) df.
Proof.
  unfold with_ranks, rank_within_group. apply list_eq. intros i.
  rewrite lookup_zip_with, list_lookup_imap.
  destruct (df !! i) as [r|] eqn:Hi; simpl; [|done].
  by rewrite (rank_within_from_lookup df df [] i r Hi).
Qed.

Lemma with_ranks_split df l1 r l2 :
  df = l1 ++ r :: l2 → ranked_after df l1 r ∈ with_ranks df.
Proof.
  intros ->. rewrite with_ranks_imap. apply elem_of_lookup_imap.
  exists (length l1), r. split.
  - by rewrite take_app_length.
  - by apply list_lookup_middle.
Qed.

Lemma with_ranks_elem_of df x :
  x ∈ with_ranks df →
  ∃ l1 l2, df = l1 ++ base x :: l2 ∧ x = ranked_after df l1 (base x).
Proof.
  rewrite with_ranks_imap. intros (i & r & -> & Hi)%elem_of_lookup_imap.
  exists (take i df), (drop (S i) df). simpl.
  split; [|done]. symmetry. by apply take_drop_middle.
Qed.

(** The rows tied with a time [t] in the channel [c]. *)
Lemma count_times_tied l c t :
  count_times (fun y => is_cmp Eq y t) (group_times l c)
  = length (filter (fun r => channel_name r = c
                             ∧ time_of (watched_at r) = Some t) l).
Proof.
  unfold count_times, group_times. induction l as [|r l IH]; [done|].
  rewrite !filter_cons.
  destruct (decide (channel_name r = c)) as [Hc|Hc].
  - rewrite fmap_cons. simpl. destruct (time_of (watched_at r)) as [y|] eqn:Hy.
    + unfold is_cmp at 1. case_bool_decide as Heq.
      * apply compare_datetime_eq in Heq as ->.
        rewrite decide_True by done. simpl. by rewrite IH.
      * rewrite decide_False; [done|]. intros [_ [= ->]].
        by rewrite (cmp_refl compare_datetime) in Heq.
    + rewrite decide_False by (by intros [_ ?]). done.
  - rewrite decide_False by (by intros [? _]). done.
Qed.

(** Of two tied rows the earlier one has the smaller rank. *)
Lemma tied_rank_lt df l1 l2 l3 r' r t :
  df = l1 ++ r' :: l2 ++ r :: l3 →
  channel_name r' = channel_name r →
  time_of (watched_at r') = Some t → time_of (watched_at r) = Some t →
  compare_ranked (ranked_after df l1 r') (ranked_after df (l1 ++ r' :: l2) r) = Lt.
Proof.
  intros Hdf Hc Ht' Ht. unfold compare_ranked, ranked_after. simpl.
  rewrite Ht', Ht, Hc. simpl. rewrite !count_times_tied.
  rewrite filter_app, filter_cons, decide_True by done.
  rewrite length_app. simpl.
  match goal with |- lex ?c _ = Lt => assert (c = Lt) as ->; [|done] end.
  apply Nat.compare_lt_iff. lia.
Qed.

(** ** Ranking a ranked frame again *)

Section Rerank.

Context (df : list record).
Hypothesis Hnodup : NoDup (video_id <$> df).
Hypothesis Hties : ties_like_first df.

Let top : list ranked := move_type_to_top (sort_dataframe (with_ranks df)).

Lemma rerank_rows_NoDup : NoDup df.
Proof using Hnodup. by eapply NoDup_fmap_1. Qed.

Lemma rerank_top_Permutation : base <$> top ≡ₚ df.
Proof. apply sorted_ranks_Permutation. Qed.

Lemma rerank_top : reorder_converted df = base <$> top.
Proof using Hnodup.
  unfold reorder_converted. fold top. f_equal.
  apply drop_duplicates_id. rewrite (list_fmap_compose base video_id).
  by rewrite rerank_top_Permutation.
Qed.

Lemma rerank_top_elem_of x : x ∈ top ↔ x ∈ with_ranks df.
Proof.
  unfold top. rewrite move_type_to_top_Permutation. unfold sort_dataframe.
  by rewrite sort_stable_Permutation.
Qed.

(** Two tied rows keep their order. *)
Lemma rerank_before r' r t :
  channel_name r' = channel_name r →
  time_of (watched_at r') = Some t → time_of (watched_at r) = Some t →
  before df r' r → before (reorder_converted df) r' r.
Proof using Hnodup Hties.
  intros Hc Ht' Ht Hb. pose proof Hb as (l1 & l2 & l3 & Hdf).
  set (x' := ranked_after df l1 r').
  set (x := ranked_after df (l1 ++ r' :: l2) r).
  assert (x' ∈ with_ranks df) as Hx' by (by eapply with_ranks_split).
  assert (x ∈ with_ranks df) as Hx.
  { apply (with_ranks_split df _ r l3). rewrite Hdf.
    by rewrite <- app_assoc, <- app_comm_cons. }
  assert (compare_ranked x' x = Lt) as Hlt by (by eapply tied_rank_lt).
  rewrite rerank_top.
  change r' with (base x'). change r with (base x). apply before_fmap.
  apply move_type_to_top_before.
  - apply (before_sorted compare_ranked); [|..|done].
    + apply (sort_stable_sorted compare_ranked).
    + unfold sort_dataframe. by rewrite sort_stable_Permutation.
    + unfold sort_dataframe. by rewrite sort_stable_Permutation.
  - simpl. by apply (Hties r' r t).
Qed.

End Rerank.

Lemma ties_like_first_sym_before df r' r t :
  NoDup (video_id <$> df) → ties_like_first df →
  channel_name r' = channel_name r →
  time_of (watched_at r') = Some t → time_of (watched_at r) = Some t →
  before df r' r ↔ before (reorder_converted df) r' r.
Proof.
  intros Hnodup Hties Hc Ht' Ht. split; [by eapply rerank_before|].
  intros Hb.
  assert (NoDup (reorder_converted df)) as Hnodup'.
  { rewrite rerank_top by done. rewrite rerank_top_Permutation.
    by apply rerank_rows_NoDup. }
  pose proof (before_ne _ _ _ Hnodup' Hb) as Hne.
  pose proof (before_elem_of _ _ _ Hb) as [Hr' Hr].
  rewrite rerank_top, rerank_top_Permutation in Hr', Hr by done.
  destruct (before_total df r' r Hr' Hr Hne) as [|Hrev]; [done|].
  exfalso. apply (before_asym _ _ _ Hnodup' Hb).
  by apply (rerank_before df Hnodup Hties r r' t).
Qed.

(** C8, amended.  On a frame with pairwise distinct video_ids in which,
    among the rows of one channel with the same time, no row of another
    type comes before a row of type "like", the ranking steps of
    [reorder_frame] (everything after the timestamps are parsed) are
    idempotent: ranking the ranked frame again gives the same frame. *)
Theorem C8_rerank_fixed (df : list record) :
  NoDup (video_id <$> df) → ties_like_first df →
  reorder_converted (reorder_converted df) = reorder_converted df.
Proof.
  intros Hnodup Hties.
  set (top := move_type_to_top (sort_dataframe (with_ranks df))).
  pose proof (rerank_top df Hnodup) as Hg. fold top in Hg.
  pose proof (rerank_top_Permutation df) as Hperm. fold top in Hperm.
  pose proof (rerank_rows_NoDup df Hnodup) as Hrows.
  assert (NoDup (base <$> top)) as Hrows' by (by rewrite Hperm).
  assert (with_ranks (base <$> top) = top) as Hranks.
  { rewrite with_ranks_imap, imap_fmap.
    transitivity (imap (const id) top);
      [|by rewrite imap_const, list_fmap_id].
    apply imap_ext. intros k x Hk. unfold const, id, compose.
    assert (x ∈ with_ranks df) as Hx.
    { apply rerank_top_elem_of. by eapply list_elem_of_lookup_2. }
    apply with_ranks_elem_of in Hx as (l1 & l2 & Hdf & Hx).
    rewrite Hx at 2. set (r := base x) in *.
    assert ((base <$> top) !! k = Some r) as Hk'
      by (by rewrite list_lookup_fmap, Hk).
    pose proof (take_drop_middle _ _ _ Hk') as Hsplit. symmetry in Hsplit.
    unfold ranked_after. f_equal.
    - by rewrite (calculate_sub_group_rank_Permutation _ _ Hperm).
    - unfold rank_of. destruct (time_of (watched_at r)) as [t|] eqn:Ht; [|done].
      f_equal. f_equal; [f_equal|].
      + apply count_times_Permutation. by apply group_times_Permutation.
      + rewrite !count_times_tied. apply Permutation_length.
        apply NoDup_Permutation.
        * apply NoDup_filter.
          apply (sublist_NoDup (take k (base <$> top)) (base <$> top));
            [done|apply sublist_take].
        * apply NoDup_filter. rewrite Hdf in Hrows.
          by apply NoDup_app in Hrows as (? & _ & _).
        * intros r'. rewrite !list_elem_of_filter.
          rewrite (before_prefix _ _ _ r' r Hrows' Hsplit).
          rewrite (before_prefix _ _ _ r' r Hrows Hdf).
          rewrite <- Hg.
          split; intros [[Hc Ht'] Hb]; (split; [done|]);
            by apply (ties_like_first_sym_before df r' r t). }
  rewrite Hg at 1. unfold reorder_converted at 1. rewrite Hranks.
  unfold top at 1. rewrite sort_dataframe_move.
  fold top. rewrite Hg. f_equal.
  apply drop_duplicates_id. by rewrite (list_fmap_compose base video_id), Hperm.
Qed.

(** A frame in which the rows of type "like" come first has its ties in
    the right order. *)
Lemma likes_first_ties (likes others : list record) :
  Forall (fun r => type r = Some "like") likes →
  Forall (fun r => type r ≠ Some "like") others →
  ties_like_first (likes ++ others).
Proof.
  intros Hlikes Hothers r1 r2 t (l1 & l2 & l3 & Hsplit) _ _ _ Hlike.
  assert (likes ++ others = (l1 ++ r1 :: l2) ++ r2 :: l3) as Heq.
  { by rewrite Hsplit, <- app_assoc, <- app_comm_cons. }
  apply app_eq_inv in Heq as [(k & Hl & Ho)|(k & Hl & Ho)].
  - destruct k as [|x k]; simpl in Ho.
    + exfalso. rewrite <- Ho in Hothers.
      apply Forall_cons in Hothers as [Hne _]. by apply Hne.
    + simplify_eq. rewrite Forall_forall in Hlikes. apply Hlikes.
      apply elem_of_app. left. apply elem_of_app. right. left.
  - exfalso. rewrite Forall_forall in Hothers. apply (Hothers r2); [|done].
    rewrite Ho. apply elem_of_app. right. left.
Qed.

(** An already sorted list is left as it is. *)
Lemma sort_stable_sorted_id {A} (cmp : A → A → comparison) `{!TotalCompare cmp} l :
  StronglySorted (fun x y => cmp x y ≠ Gt) l →
  sort_stable (fun a b => not_gt (cmp a b)) l = l.
Proof. intros Hsorted. by apply (sort_stable_rearranged cmp). Qed.

Global Instance compare_tagged_total : TotalCompare Light.compare_tagged.
Proof.
  apply (lex_total (fun a b => String.compare (Light.kind a) (Light.kind b))
                   (fun a b => Nat.compare (Light.order a) (Light.order b))).
  - apply (on_total Light.kind). apply _.
  - apply (on_total Light.order). apply _.
Qed.

Lemma imap_sorted {A B} (R : B → B → Prop) (l : list A) : ∀ (f : nat → A → B),
  (∀ i j x y, (i < j)%nat → R (f i x) (f j y)) → StronglySorted R (imap f l).
Proof.
  induction l as [|x l IH]; intros f Hf; [constructor|].
  rewrite imap_cons. constructor.
  - apply IH. intros i j a b Hij. apply Hf. lia.
  - apply Forall_forall. intros y (i & a & -> & _)%elem_of_lookup_imap.
    apply Hf. lia.
Qed.

Lemma tag_sorted kind entries :
  StronglySorted (fun x y => Light.compare_tagged x y ≠ Gt) (Light.tag kind entries).
Proof.
  apply (imap_sorted (fun x y => Light.compare_tagged x y ≠ Gt) entries
           (fun i e => {| Light.item := e; Light.order := i; Light.kind := kind |})).
  intros i j x y Hij. unfold Light.compare_tagged. simpl.
  rewrite (cmp_refl String.compare). simpl.
  by rewrite (proj2 (Nat.compare_lt_iff i j) Hij).
Qed.

Lemma tagged_sorted likes subs :
  sort_stable (fun a b => not_gt (Light.compare_tagged a b))
              (Light.tag "like" likes ++ Light.tag "sub" subs)
  = Light.tag "like" likes ++ Light.tag "sub" subs.
Proof.
  apply (sort_stable_sorted_id Light.compare_tagged).
  apply StronglySorted_app_2; [|apply tag_sorted..].
  intros a b [Ha _]%tag_elem_of [Hb _]%tag_elem_of.
  unfold Light.compare_tagged. by rewrite Ha, Hb.
Qed.

(** In the frame Parser B hands to the ranking the rows of type "like"
    come first. *)
Lemma light_frame_likes_first likes subs df :
  light_frame likes subs = Ok df →
  ∃ df_likes df_subs,
    df = df_likes ++ df_subs
    ∧ Forall (fun r => type r = Some "like") df_likes
    ∧ Forall (fun r => type r ≠ Some "like") df_subs.
Proof.
  intros ->%light_frame_Ok. rewrite tagged_sorted, omap_app.
  eexists _, _. split; [reflexivity|].
  split; apply Forall_forall; intros r (t & Ht & Hr)%list_elem_of_omap;
    apply tag_elem_of in Ht as [Hk _];
    apply light_canonical_Some in Hr as (_ & -> & _); by rewrite Hk.
Qed.

(** C8, as stated, fails.  [reorder_frame] cannot be applied to its own
    output at all: the timestamps are no longer text and [to_datetime]
    raises [TypeError].  Ranking the parsed output again changes the order
    when a duplicate video_id was dropped by the first pass (the group
    maxima and the ranks within the group change), and also when two rows
    of one channel are tied and the first pass moved the later one up. *)
Lemma C8_counterexample :
  reorder_frame sample_isoparse sample_repeated
  = Ok [rec "Z" "C" "like" (minute_time 8); rec "X" "A" "like" (minute_time 10);
        rec "Y" "A" "like" (minute_time 7)]
  ∧ reorder_frame sample_isoparse
      [rec "Z" "C" "like" (minute_time 8); rec "X" "A" "like" (minute_time 10);
       rec "Y" "A" "like" (minute_time 7)]
    = Raise TypeError
  ∧ reorder_converted
      [rec "Z" "C" "like" (minute_time 8); rec "X" "A" "like" (minute_time 10);
       rec "Y" "A" "like" (minute_time 7)]
    = [rec "X" "A" "like" (minute_time 10); rec "Z" "C" "like" (minute_time 8);
       rec "Y" "A" "like" (minute_time 7)]
  ∧ video_id <$> reorder_converted sample_tied = ["3"; "2"; "1"]
  ∧ video_id <$> reorder_converted (reorder_converted sample_tied)
    = ["2"; "3"; "1"].
Proof. repeat split; vm_compute; reflexivity. Qed.

Lemma C8_rerank_fixed_witness :
  (NoDup (video_id <$> sample_likes_first) ∧ ties_like_first sample_likes_first)
  ∧ reorder_converted (reorder_converted sample_likes_first)
    = reorder_converted sample_likes_first.
Proof.
  assert (NoDup (video_id <$> sample_likes_first)) as Hnodup.
  { simpl. repeat constructor; set_solver. }
  assert (ties_like_first sample_likes_first) as Hties.
  { apply (likes_first_ties [rec "2" "A" "like" 10; rec "3" "B" "like" 5]
                            [rec "1" "A" "sub" 10]);
      repeat constructor; done. }
  split; [split; [exact Hnodup|exact Hties]|].
  exact (C8_rerank_fixed sample_likes_first Hnodup Hties).
Defined.

(** [convert_to_datetime] changes no other column. *)
Lemma convert_to_datetime_columns isoparse df df' :
  convert_to_datetime isoparse df = Ok df' →
  video_id <$> df' = video_id <$> df ∧ type <$> df' = type <$> df.
Proof.
  intros H%convert_to_datetime_Ok.
  induction H as [|r r' l l' (v & _ & ->) _ [IH1 IH2]]; [done|].
  by rewrite !fmap_cons, IH1, IH2.
Qed.

(** Ranking the output of Parser B again leaves it as it is, when no two
    entries of the input give the same video_id. *)
Lemma preprocess_data_clai_light_rerank isoparse likes subs df out :
  light_frame likes subs = Ok df → NoDup (video_id <$> df) →
  preprocess_data_clai_light isoparse likes subs = Ok out →
  reorder_converted out = out.
Proof.
  intros Hdf Hnodup (df0 & df' & Hdf0 & Hdf' & ->)%preprocess_data_clai_light_Ok.
  rewrite Hdf in Hdf0. simplify_eq.
  destruct (convert_to_datetime_columns isoparse df0 df' Hdf') as [Hids Htypes].
  destruct (light_frame_likes_first likes subs df0 Hdf)
    as (l & o & -> & Hl & Ho).
  apply C8_rerank_fixed; [by rewrite Hids|].
  assert (df' = take (length l) df' ++ drop (length l) df') as ->
    by (by rewrite take_drop).
  assert (type <$> take (length l) df' = type <$> l
          ∧ type <$> drop (length l) df' = type <$> o) as [Ht1 Ht2].
  { rewrite fmap_take, fmap_drop, Htypes, fmap_app.
    rewrite take_app_length', drop_app_length' by (by rewrite length_fmap).
    done. }
  apply likes_first_ties.
  - apply (Forall_fmap type (fun ty => ty = Some "like")). rewrite Ht1.
    by apply Forall_fmap.
  - apply (Forall_fmap type (fun ty => ty ≠ Some "like")). rewrite Ht2.
    by apply Forall_fmap.
Qed.

(** ** Timestamps that do not parse *)

(** Text never makes [to_datetime] raise: what [isoparse] rejects becomes
    NaT. *)
Lemma to_datetime_text isoparse s :
  ∃ v, to_datetime isoparse (VStr s) = Ok v
       ∧ (isoparse s = None → v = VNaT).
Proof.
  simpl. destruct (isoparse s); eexists; (split; [reflexivity|done]).
Qed.

(** [convert_to_datetime] keeps every row. *)
Lemma convert_to_datetime_length isoparse df df' :
  convert_to_datetime isoparse df = Ok df' → length df' = length df.
Proof. apply apply_Ok_length. Qed.

Lemma StronglySorted_lookup_lt {A} (R : A → A → Prop) l :
  StronglySorted R l →
  ∀ i j a b, l !! i = Some a → l !! j = Some b → (i < j)%nat → R a b.
Proof.
  induction 1 as [|x l Hl IH Hx]; intros i j a b Hi Hj Hlt; [done|].
  destruct j as [|j]; [lia|]. destruct i as [|i]; simpl in *.
  - simplify_eq. eapply Forall_forall in Hx; [exact Hx|].
    by eapply list_elem_of_lookup_2.
  - apply (IH i j); [done..|lia].
Qed.

(** In the sorted frame no row without a rank (a row whose time is NaT)
    comes before a row with a rank. *)
Lemma sort_dataframe_nat_last df i j a b :
  sort_dataframe df !! i = Some a → sort_dataframe df !! j = Some b →
  video_rank_within_group a = None → is_Some (video_rank_within_group b) →
  (j < i)%nat.
Proof.
  intros Hi Hj Ha [n Hb].
  pose proof (sort_stable_sorted compare_ranked df) as Hsorted.
  fold (sort_dataframe df) in Hsorted.
  destruct (decide (j < i)%nat) as [|Hge]; [done|]. exfalso.
  destruct (decide (i = j)) as [->|Hne]; [congruence|].
  apply (StronglySorted_lookup_lt _ _ Hsorted i j a b); [done..|lia|].
  unfold compare_ranked. by rewrite Ha, Hb.
Qed.

(** C9.  A record whose timestamp is missing reaches the ranking as NaN:
    [to_datetime] does not return the sentinel for it, it raises
    [TypeError], which nothing catches, and [preprocess_data_clai_light]
    raises with it. *)
Theorem C9_missing_timestamp_raises :
  (∀ isoparse, to_datetime isoparse VNaN = Raise TypeError)
  ∧ preprocess_data_clai_light sample_isoparse
      [sample_light "https://www.youtube.com/watch?v=aaaaaaaaaaa"
                    "2023-10-01T00:00:20" "b" "ch";
       {| Light.url := Val "https://www.youtube.com/watch?v=dQw4w9WgXcQ";
          Light.timestamp := Absent; Light.title := Val "a";
          Light.channelName := Val "ch" |}] []
    = Raise TypeError.
Proof. split; [done|]. vm_compute. reflexivity. Qed.

(** ** Examples *)

Example get_video_id_doc :
  get_video_id "https://www.youtube.com/watch?v=dQw4w9WgXcQ" = "dQw4w9WgXcQ".
Proof. reflexivity. Qed.

Example preprocess_data_clai_ex :
  preprocess_data_clai
    [sample_watch "https://www.youtube.com/watch?v=dQw4w9WgXcQ" "a" "ch" "t1";
     sample_watch "https://www.youtube.com/watch?v=aaaaaaaaaaa" "b" "ch" "t2";
     sample_watch "https://www.youtube.com/watch?v=dQw4w9WgXcQ" "c" "ch" "t3";
     {| Watch.titleUrl := Val "https://www.youtube.com/watch?v=bbbbbbbbbbb";
        Watch.title := Absent; Watch.subtitles := Val [[("name", "ch")]];
        Watch.time := Val "t4"; Watch.type := Absent |};
     sample_watch "https://www.youtube.com/watch?v=ccccccccccc" "e" "ch" "t5"]
  = Ok [ {| video_id := "dQw4w9WgXcQ"; channel_name := "ch"; title := "a";
            watched_at := VStr "t1"; type := None; status := Some "CREATED" |};
         {| video_id := "aaaaaaaaaaa"; channel_name := "ch"; title := "b";
            watched_at := VStr "t2"; type := None; status := Some "CREATED" |};
         {| video_id := "ccccccccccc"; channel_name := "ch"; title := "e";
            watched_at := VStr "t5"; type := None; status := Some "CREATED" |} ].
Proof. vm_compute. reflexivity. Qed.

(** A queue that rejects one entry of every batch of fewer than ten. *)
Example send_messages_to_sqs_ex :
  let reject_one (q : unit) (batch : list message) :=
    ({| Successful := Id <$> (if decide (length batch < 10)%nat
                              then drop 1 batch else batch);
        Failed := [] |}, q) in
  let messages :=
    (fun i => message_dict "f" 23 (Z.of_nat i + 1) (plain "aaaaaaaaaaa"))
      <$> seq 0 23 in
  let st := send_messages_to_sqs unit reject_one messages tt in
  length <$> calls st = [10; 10; 3]%nat ∧ successful_messages st = 22.
Proof. vm_compute. split; reflexivity. Qed.

(** The gate on a set holding one of four ids. *)
Example prepare_sqs_messages_ex :
  let df := plain <$> ["abc12345678"; "bbbbbbbbbbb"; "ccccccccccc"; "ddddddddddd"] in
  let '(messages, ids) := prepare_sqs_messages df {[ "abc12345678" ]} "f" in
  Id <$> messages = ["bbbbbbbbbbb"; "ccccccccccc"; "ddddddddddd"]
  ∧ size ids = 4%nat.
Proof. vm_compute. split; reflexivity. Qed.

(** * Further properties *)

(** ** More on [get_video_id] *)

Lemma append_cons c p s : String c p +:+ s = String c (p +:+ s).
Proof. reflexivity. Qed.

Lemma split_nonempty sep s : split sep s ≠ [].
Proof.
  destruct s as [|c s]; simpl; [done|].
  destruct (Ascii.eqb c sep); [done|]. by destruct (split sep s).
Qed.

Lemma split_no_sep sep s : occurs sep s = false → split sep s = [s].
Proof.
  induction s as [|c s IH]; simpl; [done|].
  intros [Hc Hs]%orb_false_iff. rewrite Hc, IH by done. done.
Qed.

Lemma last_split_cons sep c s :
  List.last (split sep (String c s)) EmptyString
  = if Ascii.eqb c sep then List.last (split sep s) EmptyString
    else if occurs sep s then List.last (split sep s) EmptyString
         else String c s.
Proof.
  simpl. destruct (Ascii.eqb c sep) eqn:Hc.
  - pose proof (split_nonempty sep s). by destruct (split sep s).
  - destruct (occurs sep s) eqn:Hs.
    + destruct (split sep s) as [|piece [|piece' pieces]] eqn:Hsplit.
      * by apply split_nonempty in Hsplit.
      * exfalso. clear Hc. revert piece Hsplit Hs.
        induction s as [|c' s IH]; simpl; [done|]. intros piece.
        destruct (Ascii.eqb c' sep) eqn:Hc'.
        -- pose proof (split_nonempty sep s). destruct (split sep s); naive_solver.
        -- simpl. destruct (split sep s) as [|p ps] eqn:Hsp;
             [by apply split_nonempty in Hsp|].
           intros Heq Hs. simplify_eq. simpl in Hs. eapply IH; eauto.
      * done.
    + by rewrite split_no_sep.
Qed.

Lemma last_split_app sep p s :
  List.last (split sep (p +:+ String sep s)) EmptyString
  = List.last (split sep s) EmptyString.
Proof.
  induction p as [|c p IH].
  - change (EmptyString +:+ String sep s) with (String sep s).
    by rewrite last_split_cons, Ascii.eqb_refl.
  - change (String c p +:+ String sep s) with (String c (p +:+ String sep s)).
    rewrite last_split_cons, IH.
    destruct (Ascii.eqb c sep); [done|].
    replace (occurs sep (p +:+ String sep s)) with true; [done|].
    clear. induction p as [|c' p IH]; simpl.
    + by rewrite Ascii.eqb_refl.
    + rewrite <- IH. by rewrite orb_true_r.
Qed.

(** X1.  The video id is what follows the last "=" of the URL: it holds no
    "=", the URL is the id behind a prefix that is empty or ends in "=",
    and the id of an id is the id itself. *)
Theorem X1_get_video_id_after_last_equals (url : string) :
  occurs "=" (get_video_id url) = false
  ∧ (∃ p, url = p +:+ get_video_id url
          ∧ (p = EmptyString ∨ ∃ p', p = p' +:+ "="))
  ∧ get_video_id (get_video_id url) = get_video_id url.
Proof.
  unfold get_video_id.
  assert (H : occurs "=" (List.last (split "=" url) EmptyString) = false
              ∧ ∃ p, url = p +:+ List.last (split "=" url) EmptyString
                     ∧ (p = EmptyString ∨ ∃ p', p = p' +:+ "=")).
  { induction url as [|c url [IH1 (p & IH2 & IH3)]]; [split; [done|by exists EmptyString; auto]|].
    rewrite last_split_cons. destruct (Ascii.eqb c "=") eqn:Hc.
    - apply Ascii.eqb_eq in Hc as ->. split; [done|].
      exists (String "=" p). split; [by rewrite append_cons, <- IH2|].
      right. destruct IH3 as [->|[p' ->]]; [by exists EmptyString|by exists (String "=" p')].
    - destruct (occurs "=" url) eqn:Hs.
      + split; [done|]. exists (String c p). split; [by rewrite append_cons, <- IH2|].
        right. destruct IH3 as [->|[p' ->]]; [|by exists (String c p')].
        assert (Hu : url = List.last (split "=" url) EmptyString) by exact IH2.
        rewrite <- Hu in IH1. congruence.
      + split; [simpl; by rewrite Hc|]. exists EmptyString. auto. }
  destruct H as [H1 H2]. split; [done|]. split; [done|].
  by rewrite (split_no_sep _ _ H1).
Qed.

(** X2.  [get_video_id] undoes the composition of a URL from a prefix, "="
    and an id without "=", whatever the prefix holds. *)
Theorem X2_get_video_id_of_query (prefix id : string) :
  occurs "=" id = false →
  get_video_id (prefix +:+ "=" +:+ id) = id.
Proof.
  intros H. unfold get_video_id.
  change ("=" +:+ id) with (String "=" id).
  by rewrite last_split_app, split_no_sep.
Qed.

Lemma X2_get_video_id_of_query_witness :
  occurs "=" "PLx" = false
  ∧ get_video_id "https://www.youtube.com/watch?v=dQw4w9WgXcQ&list=PLx" = "PLx".
Proof.
  split; [reflexivity|].
  exact (X2_get_video_id_of_query "https://www.youtube.com/watch?v=dQw4w9WgXcQ&list" "PLx" eq_refl).
Defined.

(** ** More on [preprocess_data_clai] *)

Lemma zip_columns {A B C} (f : A → B) (g : A → C) (l : list A) :
  zip l (zip (f <$> l) (map g l)) = (fun x => (x, (f x, g x))) <$> l.
Proof. induction l as [|x l IH]; [done|]. simpl. by f_equal. Qed.

Lemma map_fmap {A B} (f : A → B) (l : list A) : map f l = f <$> l.
Proof. induction l as [|x l IH]; [done|]. simpl. by f_equal. Qed.

Lemma filter_fmap {A B} (f : A → B) (P : B → Prop) `{!∀ y, Decision (P y)}
    (l : list A) :
  filter P (f <$> l) = f <$> filter (fun x => P (f x)) l.
Proof.
  induction l as [|x l IH]; [done|].
  rewrite fmap_cons, !filter_cons, IH. by destruct (decide (P (f x))).
Qed.

Lemma drop_duplicates_from_fmap {A B} (f : A → B) (key : B → string)
    (l : list A) : ∀ seen,
  drop_duplicates_from key seen (f <$> l)
  = f <$> drop_duplicates_from (fun x => key (f x)) seen l.
Proof.
  induction l as [|x l IH]; intros seen; [done|].
  rewrite fmap_cons. simpl. destruct (decide (key (f x) ∈ seen)); [done|].
  by rewrite fmap_cons, IH.
Qed.

Lemma Watch_dropna_Ok raw df :
  Watch.dropna raw = Ok df ↔
  missing_columns (watch_columns raw) = [] ∧ df = omap Watch.complete raw.
Proof.
  unfold Watch.dropna, check_columns. fold (watch_columns raw).
  destruct (missing_columns (watch_columns raw)); simpl; naive_solver.
Qed.

(** What [preprocess_data_clai] returns, in one expression. *)
Lemma preprocess_data_clai_normal raw out :
  preprocess_data_clai raw = Ok out →
  ∃ channel : Watch.row → string,
    (∀ row, row ∈ omap Watch.complete raw →
            extract_channel_name (Watch.r_subtitles row) = Ok (channel row))
    ∧ out = (fun row => watch_record raw (channel row) row)
              <$> drop_duplicates watch_id
                    (filter (fun row => String.length (watch_id row) = 11%nat)
                            (omap Watch.complete raw)).
Proof.
  unfold preprocess_data_clai. intros H.
  apply bind_Ok in H as (df & Hdf & H). apply bind_Ok in H as (names & Hnames & H).
  apply Watch_dropna_Ok in Hdf as [_ ->]. simplify_eq.
  set (df := omap Watch.complete raw) in *.
  set (channel := fun row => match extract_channel_name (Watch.r_subtitles row) with
                             | Ok c => c | Raise _ => EmptyString end).
  exists channel.
  apply apply_Ok_Forall2 in Hnames.
  assert (Hchan : names = channel <$> df
                  ∧ ∀ row, row ∈ df →
                      extract_channel_name (Watch.r_subtitles row)
                      = Ok (channel row)).
  { clearbody df. induction Hnames as [|row c df names Hrow _ [IH1 IH2]].
    - split; [done|]. by intros ? ?%elem_of_nil.
    - assert (channel row = c) as Hc by (unfold channel; by rewrite Hrow).
      split; [rewrite fmap_cons; by f_equal|].
      intros row' [->|?]%elem_of_cons; [by rewrite Hc|auto]. }
  destruct Hchan as [-> Hchan]. split; [done|].
  fold watch_id. change (fun r : Watch.row => watch_id r) with watch_id.
  rewrite zip_columns, filter_fmap. unfold drop_duplicates.
  rewrite drop_duplicates_from_fmap, map_fmap, <- list_fmap_compose.
  done.
Qed.

Lemma apply_raises {A B} (f : A → result B) (e : exn) (rows : list A) :
  Forall (fun r => (∃ b, f r = Ok b) ∨ f r = Raise e) rows →
  Exists (fun r => f r = Raise e) rows →
  apply f rows = Raise e.
Proof.
  induction rows as [|r rows IH]; intros Hall Hex.
  - by apply Exists_nil in Hex.
  - apply Forall_cons in Hall as [Hr Hall]. simpl.
    destruct Hr as [[b Hb]| ->]; [|done]. rewrite Hb. simpl.
    apply Exists_cons in Hex as [Hex|Hex]; [congruence|].
    by rewrite IH.
Qed.

Lemma extract_channel_name_cases subtitles :
  (∃ c, extract_channel_name subtitles = Ok c)
  ∨ extract_channel_name subtitles = Raise IndexError.
Proof. destruct subtitles as [|[|[k v] first] rest]; simpl; eauto. Qed.

Lemma has_column_complete {A} (col : Watch.entry → cell A) raw e :
  e ∈ raw → notna (col e) = true → has_column col raw = true.
Proof.
  intros He Hc. apply has_column_true. exists e. split; [done|].
  by destruct (col e).
Qed.

Lemma complete_columns raw e row :
  e ∈ raw → Watch.complete e = Some row →
  missing_columns (watch_columns raw) = [].
Proof.
  intros He Hrow. unfold Watch.complete in Hrow.
  destruct (Watch.titleUrl e) as [| |u] eqn:Hu; try done.
  destruct (Watch.title e) as [| |t] eqn:Ht; try done.
  destruct (Watch.subtitles e) as [| |s] eqn:Hs; try done.
  destruct (Watch.time e) as [| |tm] eqn:Htm; try done.
  unfold watch_columns, missing_columns.
  rewrite !(has_column_complete _ raw e) by (done || by rewrite ?Hu, ?Ht, ?Hs, ?Htm).
  done.
Qed.

(** X3.  [preprocess_data_clai] raises [KeyError] exactly when one of the
    four columns it needs is in no entry, and the error then names the
    columns that are absent; on the empty export it names all four. *)
Theorem X3_preprocess_data_clai_KeyError (raw : list Watch.entry) :
  (∀ missing,
     preprocess_data_clai raw = Raise (KeyError missing)
     ↔ missing ≠ [] ∧ missing = missing_columns (watch_columns raw))
  ∧ preprocess_data_clai []
    = Raise (KeyError ["titleUrl"; "title"; "subtitles"; "time"]%string).
Proof.
  split; [|vm_compute; reflexivity]. intros missing.
  unfold preprocess_data_clai, Watch.dropna, check_columns.
  fold (watch_columns raw).
  destruct (missing_columns (watch_columns raw)) as [|c cs] eqn:Hm.
  - simpl. split; [|naive_solver].
    destruct (apply _ _) as [names|e] eqn:Hnames; simpl; [done|].
    intros [= ->]. exfalso.
    assert (Hno : ∀ rows : list Watch.row,
              apply (fun r => extract_channel_name (Watch.r_subtitles r)) rows
              ≠ Raise (KeyError missing)).
    { clear. induction rows as [|r rows IH]; simpl; [done|].
      destruct (extract_channel_name_cases (Watch.r_subtitles r)) as [[c ->]| ->];
        simpl; [|done].
      destruct (apply _ rows); simpl; [done|]. congruence. }
    by eapply Hno.
  - simpl. split; [by intros [= <-]|by intros [_ ->]].
Qed.

Lemma preprocess_data_clai_bad_subtitles (raw : list Watch.entry)
    (rows : list Watch.row) :
  Watch.dropna raw = Ok rows →
  Exists (fun row => extract_channel_name (Watch.r_subtitles row)
                     = Raise IndexError) rows →
  preprocess_data_clai raw = Raise IndexError.
Proof.
  intros Hrows Hbad. unfold preprocess_data_clai. rewrite Hrows. simpl.
  rewrite (apply_raises _ IndexError); [done| |done].
  apply Forall_forall. intros r _. apply extract_channel_name_cases.
Qed.

(** X4.  An entry that has the four fields and an empty list of subtitles,
    or an empty first subtitle, makes [preprocess_data_clai] raise
    [IndexError] for the whole export, also when its URL gives no
    11-character id: the channel names are extracted before the ids are
    looked at. *)
Theorem X4_preprocess_data_clai_IndexError (raw : list Watch.entry)
    (e : Watch.entry) (row : Watch.row) :
  e ∈ raw → Watch.complete e = Some row →
  extract_channel_name (Watch.r_subtitles row) = Raise IndexError →
  preprocess_data_clai raw = Raise IndexError.
Proof.
  intros He Hrow Hsub.
  apply (preprocess_data_clai_bad_subtitles raw (omap Watch.complete raw)).
  - apply Watch_dropna_Ok. split; [|done]. by eapply complete_columns.
  - apply Exists_exists. exists row. split; [|done].
    apply list_elem_of_omap. eauto.
Qed.

Lemma X4_preprocess_data_clai_IndexError_witness :
  preprocess_data_clai
    [sample_watch "https://www.youtube.com/watch?v=abc12345678" "a" "ch" "t1";
     {| Watch.titleUrl := Val "https://www.youtube.com/post/1"%string;
        Watch.title := Val "b"%string; Watch.subtitles := Val [];
        Watch.time := Val "t2"%string; Watch.type := Absent |}]
  = Raise IndexError.
Proof.
  eapply (X4_preprocess_data_clai_IndexError _
            {| Watch.titleUrl := Val "https://www.youtube.com/post/1"%string;
               Watch.title := Val "b"%string; Watch.subtitles := Val [];
               Watch.time := Val "t2"%string; Watch.type := Absent |}).
  - apply list_elem_of_lookup_2 with 1%nat. reflexivity.
  - reflexivity.
  - reflexivity.
Defined.

(** X5.  [preprocess_data_clai] returns a frame exactly when every one of
    the four columns is in some entry and every entry with the four fields
    has a first subtitle with a first value. *)
Theorem X5_preprocess_data_clai_returns (raw : list Watch.entry) :
  (∃ out, preprocess_data_clai raw = Ok out)
  ↔ missing_columns (watch_columns raw) = []
    ∧ ∀ e row, e ∈ raw → Watch.complete e = Some row →
               ∃ c, extract_channel_name (Watch.r_subtitles row) = Ok c.
Proof.
  split.
  - intros [out Hout]. split.
    + unfold preprocess_data_clai in Hout.
      apply bind_Ok in Hout as (df & Hdf & _).
      by apply Watch_dropna_Ok in Hdf as [? _].
    + intros e row He Hrow.
      destruct (extract_channel_name_cases (Watch.r_subtitles row)) as [|Hr];
        [done|].
      rewrite (preprocess_data_clai_bad_subtitles raw (omap Watch.complete raw))
        in Hout; [done| |].
      * apply Watch_dropna_Ok. split; [|done]. by eapply complete_columns.
      * apply Exists_exists. exists row. split; [|done].
        apply list_elem_of_omap. eauto.
  - intros [Hcols Hall]. unfold preprocess_data_clai.
    assert (Watch.dropna raw = Ok (omap Watch.complete raw)) as ->
      by by apply Watch_dropna_Ok.
    simpl.
    destruct (apply_total (fun r => extract_channel_name (Watch.r_subtitles r))
                (omap Watch.complete raw)) as [names ->].
    + apply Forall_forall. intros row (e & He & Hrow)%list_elem_of_omap. eauto.
    + simpl. eauto.
Qed.

Lemma drop_duplicates_from_split {A} (key : A → string) (l : list A) :
  ∀ seen r, r ∈ drop_duplicates_from key seen l →
            ∃ pre post, l = pre ++ r :: post
                        ∧ Forall (fun x => key x ≠ key r) pre.
Proof.
  induction l as [|x l IH]; intros seen r Hr; [by apply elem_of_nil in Hr|].
  simpl in Hr. destruct (decide (key x ∈ seen)) as [Hx|Hx].
  - destruct (IH _ _ Hr) as (pre & post & -> & Hpre).
    exists (x :: pre), post. split; [done|]. constructor; [|done].
    apply drop_duplicates_from_fresh in Hr. congruence.
  - apply elem_of_cons in Hr as [->|Hr].
    + exists [], l. by split.
    + destruct (IH _ _ Hr) as (pre & post & -> & Hpre).
      exists (x :: pre), post. split; [done|]. constructor; [|done].
      apply drop_duplicates_from_fresh in Hr. set_solver.
Qed.

Lemma filter_split {A} (P : A → Prop) `{!∀ x, Decision (P x)} (l : list A) :
  ∀ pre r post, filter P l = pre ++ r :: post →
                ∃ pre' post', l = pre' ++ r :: post' ∧ filter P pre' = pre.
Proof.
  induction l as [|x l IH]; intros pre r post Heq; [by destruct pre|].
  rewrite filter_cons in Heq. destruct (decide (P x)) as [Hx|Hx].
  - destruct pre as [|y pre]; simpl in Heq; injection Heq as -> Heq.
    + by exists [], l.
    + destruct (IH _ _ _ Heq) as (pre' & post' & -> & <-).
      exists (y :: pre'), post'. split; [done|].
      by rewrite filter_cons, decide_True.
  - destruct (IH _ _ _ Heq) as (pre' & post' & -> & <-).
    exists (x :: pre'), post'. split; [done|]. by rewrite filter_cons, decide_False.
Qed.

Lemma omap_split {A B} (f : A → option B) (l : list A) :
  ∀ pre r post, omap f l = pre ++ r :: post →
                ∃ pre' e post', l = pre' ++ e :: post' ∧ f e = Some r
                                ∧ omap f pre' = pre.
Proof.
  induction l as [|x l IH]; intros pre r post Heq; [by destruct pre|].
  simpl in Heq. destruct (f x) as [y|] eqn:Hx.
  - destruct pre as [|y' pre]; simpl in Heq; injection Heq as -> Heq.
    + exists [], x, l. by split.
    + destruct (IH _ _ _ Heq) as (pre' & e & post' & -> & He & <-).
      exists (x :: pre'), e, post'. split; [done|]. split; [done|].
      simpl. by rewrite Hx.
  - destruct (IH _ _ _ Heq) as (pre' & e & post' & -> & He & <-).
    exists (x :: pre'), e, post'. split; [done|]. split; [done|].
    simpl. by rewrite Hx.
Qed.

(** A record of the frame is made of a row that passed [dropna], which is
    the row of some entry; the id of the row has 11 characters, and no
    row with such an id that comes of an earlier entry has the same id. *)
Lemma preprocess_data_clai_kept (raw : list Watch.entry) (out : list record)
    (r : record) :
  preprocess_data_clai raw = Ok out → r ∈ out →
  ∃ channel row pre e post,
    r = watch_record raw channel row
    ∧ raw = pre ++ e :: post
    ∧ Watch.complete e = Some row
    ∧ extract_channel_name (Watch.r_subtitles row) = Ok channel
    ∧ String.length (watch_id row) = 11%nat
    ∧ Forall (fun row' => watch_id row' ≠ watch_id row)
             (filter (fun row => String.length (watch_id row) = 11%nat)
                     (omap Watch.complete pre)).
Proof.
  intros (channel & Hchannel & ->)%preprocess_data_clai_normal Hr.
  apply list_elem_of_fmap in Hr as (row & -> & Hrow).
  apply drop_duplicates_from_split in Hrow as (pre1 & post1 & Hsplit & Hpre1).
  assert (String.length (watch_id row) = 11%nat) as Hlen11.
  { assert (row ∈ filter (fun row => String.length (watch_id row) = 11%nat)
                         (omap Watch.complete raw)) as Hin.
    { rewrite Hsplit. set_solver. }
    by apply list_elem_of_filter in Hin as [? _]. }
  apply filter_split in Hsplit as (pre2 & post2 & Hsplit & <-).
  apply omap_split in Hsplit as (pre & e & post & -> & He & <-).
  exists (channel row), row, pre, e, post. repeat (split; [done|]).
  split; [|done].
  apply Hchannel. apply list_elem_of_omap. exists e. split; [|done]. set_solver.
Qed.

(** X6.  Every record of the frame is made of an entry that has the four
    fields, and of the first such entry with its video id: the entries
    before it in the export give other ids. *)
Theorem X6_preprocess_data_clai_first_entry (raw : list Watch.entry)
    (out : list record) (r : record) :
  preprocess_data_clai raw = Ok out → r ∈ out →
  ∃ pre e post,
    raw = pre ++ e :: post
    ∧ watch_source raw e r
    ∧ ∀ e' row', e' ∈ pre → Watch.complete e' = Some row' →
                 watch_id row' ≠ video_id r.
Proof.
  intros Hout Hr.
  destruct (preprocess_data_clai_kept raw out r Hout Hr)
    as (channel & row & pre & e & post & -> & -> & Hrow & Hchannel & Hlen & Hpre).
  exists pre, e, post. split; [done|]. split; [by exists row, channel|].
  intros e' row' He' Hrow'. simpl.
  destruct (decide (String.length (watch_id row') = 11%nat)) as [H11|H11];
    [|congruence].
  rewrite Forall_forall in Hpre. apply Hpre.
  apply list_elem_of_filter. split; [done|]. apply list_elem_of_omap. eauto.
Qed.

Lemma X6_preprocess_data_clai_first_entry_witness :
  ∃ pre e post,
    sample_entries = pre ++ e :: post
    ∧ watch_source sample_entries e
                    (plain_watch ("bbbbbbbbbbb", "b", "t2")%string)
    ∧ ∀ e' row', e' ∈ pre → Watch.complete e' = Some row' →
                 watch_id row' ≠ "bbbbbbbbbbb"%string.
Proof.
  apply (X6_preprocess_data_clai_first_entry sample_entries
           (plain_watch <$> [("abc12345678", "a", "t1"); ("bbbbbbbbbbb", "b", "t2");
                             ("ccccccccccc", "c", "t3"); ("ddddddddddd", "d", "t4")]%string)).
  - vm_compute. reflexivity.
  - apply list_elem_of_lookup_2 with 1%nat. reflexivity.
Defined.

(** X7.  The ids of the frame are exactly the 11-character ids of the
    entries that have the four fields. They follow the order of the
    export, and the frame has at most as many rows as the export has
    entries. *)
Theorem X7_preprocess_data_clai_ids (raw : list Watch.entry) (out : list record) :
  preprocess_data_clai raw = Ok out →
  (∀ id, id ∈ video_id <$> out
         ↔ String.length id = 11%nat
           ∧ ∃ e row, e ∈ raw ∧ Watch.complete e = Some row ∧ watch_id row = id)
  ∧ video_id <$> out `sublist_of` watch_id <$> omap Watch.complete raw
  ∧ (length out ≤ length raw)%nat.
Proof.
  intros (channel & Hchannel & ->)%preprocess_data_clai_normal.
  rewrite <- list_fmap_compose.
  change (video_id ∘ _) with watch_id.
  set (rows := omap Watch.complete raw).
  set (kept := filter _ rows).
  assert (Hsub : drop_duplicates watch_id kept `sublist_of` rows).
  { etrans; [apply drop_duplicates_sublist|apply sublist_filter]. }
  split; [|split].
  - intros id. split.
    + intros (row & -> & Hrow)%list_elem_of_fmap.
      assert (row ∈ kept) as Hk.
      { eapply elem_of_sublist; [exact Hrow|]. apply drop_duplicates_sublist. }
      apply list_elem_of_filter in Hk as [H11 Hk]. split; [done|].
      apply list_elem_of_omap in Hk as (e & He & Hc). eauto.
    + intros (H11 & e & row & He & Hc & <-).
      apply drop_duplicates_keys.
      apply list_elem_of_filter. split; [done|]. apply list_elem_of_omap. eauto.
  - by apply fmap_sublist.
  - rewrite length_fmap. etrans; [apply sublist_length, Hsub|].
    subst rows. clear. induction raw as [|e raw IH]; [done|].
    cbn [omap list_omap]. destruct (Watch.complete e); cbn [length]; lia.
Qed.

Lemma X7_preprocess_data_clai_ids_witness :
  preprocess_data_clai (sample_entries ++ sample_entries)
  = Ok (plain_watch <$> [("abc12345678", "a", "t1"); ("bbbbbbbbbbb", "b", "t2");
                         ("ccccccccccc", "c", "t3"); ("ddddddddddd", "d", "t4")]%string)
  ∧ (length (plain_watch <$> [("abc12345678", "a", "t1"); ("bbbbbbbbbbb", "b", "t2");
                              ("ccccccccccc", "c", "t3"); ("ddddddddddd", "d", "t4")]%string)
     ≤ length (sample_entries ++ sample_entries))%nat.
Proof.
  assert (H : preprocess_data_clai (sample_entries ++ sample_entries)
              = Ok (plain_watch <$> [("abc12345678", "a", "t1"); ("bbbbbbbbbbb", "b", "t2");
                                     ("ccccccccccc", "c", "t3"); ("ddddddddddd", "d", "t4")]%string))
    by (vm_compute; reflexivity).
  split; [exact H|].
  exact (proj2 (proj2 (X7_preprocess_data_clai_ids _ _ H))).
Defined.

(** ** More on the timestamps *)

(** X8.  A text that parses, to a time whose microseconds are not
    negative, becomes a time of the same second whose microseconds are
    those parsed, cut down to a multiple of 10000: the time is never moved
    forward, and by less than a hundredth of a second backward. *)
Theorem X8_to_datetime_truncates (isoparse : string → option datetime)
    (s : string) (dt : datetime) :
  isoparse s = Some dt → 0 ≤ microsecond dt →
  ∃ dt', to_datetime isoparse (VStr s) = Ok (VTime dt')
         ∧ epoch_second dt' = epoch_second dt
         ∧ microsecond dt' mod 10000 = 0
         ∧ microsecond dt' ≤ microsecond dt < microsecond dt' + 10000.
Proof.
  intros Hs Hm. simpl. rewrite Hs. eexists. split; [done|]. simpl.
  rewrite Z.quot_div_nonneg by lia.
  split; [done|]. split; [by rewrite Z.mod_mul|].
  pose proof (Z.div_mod (microsecond dt) 10000 ltac:(lia)).
  pose proof (Z.mod_pos_bound (microsecond dt) 10000 ltac:(lia)). lia.
Qed.

Lemma X8_to_datetime_truncates_witness :
  ∃ dt', to_datetime sample_fraction (VStr "2023-10-01T00:00:05.123456") = Ok (VTime dt')
         ∧ epoch_second dt' = 5
         ∧ microsecond dt' mod 10000 = 0
         ∧ microsecond dt' ≤ 123456 < microsecond dt' + 10000.
Proof.
  apply (X8_to_datetime_truncates sample_fraction "2023-10-01T00:00:05.123456"
           {| epoch_second := 5; microsecond := 123456 |}).
  - reflexivity.
  - simpl. lia.
Defined.

Lemma to_datetime_cases isoparse v :
  match v with
  | VStr _ => ∃ v', to_datetime isoparse v = Ok v' ∧ ¬ is_text v'
  | _ => to_datetime isoparse v = Raise TypeError
  end.
Proof.
  destruct v as [s| | |]; simpl; try done.
  destruct (isoparse s); eexists; (split; [done|]); simpl; tauto.
Qed.

Lemma convert_to_datetime_result (isoparse : string → option datetime)
    (df : list record) :
  match convert_to_datetime isoparse df with
  | Ok df' =>
      Forall (fun r => is_text (watched_at r)) df
      ∧ Forall2 (fun r r' =>
                   r' = set_watched_at r (watched_at r')
                   ∧ (watched_at r' = VNaT ∨ ∃ dt, watched_at r' = VTime dt))
                df df'
  | Raise e => e = TypeError ∧ Exists (fun r => ¬ is_text (watched_at r)) df
  end.
Proof.
  unfold convert_to_datetime.
  induction df as [|r df IH]; simpl; [by split; constructor|].
  pose proof (to_datetime_cases isoparse (watched_at r)) as Hr.
  destruct (watched_at r) as [s| | |] eqn:Hw;
    try (rewrite Hr; simpl; split; [done|]; apply Exists_cons_hd; rewrite Hw; simpl; tauto).
  destruct Hr as (v & Hv & Hnt). rewrite Hv. simpl.
  destruct (apply _ df) as [df'|e]; simpl.
  - destruct IH as [IH1 IH2]. split.
    + constructor; [by rewrite Hw|done].
    + constructor; [|done]. split; [done|]. simpl.
      simpl in Hv. destruct (isoparse s); simplify_eq; eauto.
  - destruct IH as [-> IH]. split; [done|]. by apply Exists_cons_tl.
Qed.

(** X9.  [convert_to_datetime] returns exactly when every cell of the
    column holds text, and the only exception it raises is [TypeError].
    The frame it returns has the rows of the frame it was given, each with
    a time or NaT in the column and nothing else changed. *)
Theorem X9_convert_to_datetime_outcome (isoparse : string → option datetime)
    (df : list record) :
  ((∃ df', convert_to_datetime isoparse df = Ok df')
   ↔ Forall (fun r => is_text (watched_at r)) df)
  ∧ (∀ e, convert_to_datetime isoparse df = Raise e → e = TypeError)
  ∧ ∀ df', convert_to_datetime isoparse df = Ok df' →
           Forall2 (fun r r' =>
                      r' = set_watched_at r (watched_at r')
                      ∧ (watched_at r' = VNaT ∨ ∃ dt, watched_at r' = VTime dt))
                   df df'.
Proof.
  pose proof (convert_to_datetime_result isoparse df) as H.
  destruct (convert_to_datetime isoparse df) as [df'|e].
  - destruct H as [Htext Hrows]. split; [split; eauto|]. split; [done|].
    by intros ? [= <-].
  - destruct H as [-> Hbad]. split; [|split; [by intros ? [= <-]|done]].
    split; [by intros [? ?]|]. intros Htext. exfalso.
    apply Exists_exists in Hbad as (r & Hr & Hn).
    rewrite Forall_forall in Htext. auto.
Qed.

(** X10.  [convert_to_datetime] cannot be applied to its own result: on a
    frame with at least one row, the second application raises
    [TypeError]. *)
Theorem X10_convert_to_datetime_twice (isoparse isoparse' : string → option datetime)
    (df df' : list record) :
  convert_to_datetime isoparse df = Ok df' → df ≠ [] →
  convert_to_datetime isoparse' df' = Raise TypeError.
Proof.
  intros Hdf Hne.
  pose proof (convert_to_datetime_result isoparse df) as H1. rewrite Hdf in H1.
  destruct H1 as [_ H1].
  pose proof (convert_to_datetime_result isoparse' df') as H2.
  destruct (convert_to_datetime isoparse' df') as [df''|e].
  - destruct H2 as [H2 _]. destruct H1 as [|r r' df df' [_ Hr] _]; [done|].
    apply Forall_cons in H2 as [H2 _].
    destruct Hr as [Hr|[dt Hr]]; rewrite Hr in H2; done.
  - by destruct H2 as [-> _].
Qed.

Lemma X10_convert_to_datetime_twice_witness :
  convert_to_datetime sample_isoparse
    [rec "Z" "C" "like" (minute_time 8); rec "X" "A" "like" (minute_time 10)]
  = Raise TypeError.
Proof.
  apply (X10_convert_to_datetime_twice sample_isoparse sample_isoparse
           [raw_rec "Z" "C" "like" (minute_text "08");
            raw_rec "X" "A" "like" (minute_text "10")]).
  - vm_compute. reflexivity.
  - discriminate.
Defined.

(** ** More on the ranks *)

Lemma count_times_app p xs ys :
  count_times p (xs ++ ys) = (count_times p xs + count_times p ys)%nat.
Proof. unfold count_times. by rewrite List.filter_app, length_app. Qed.

Lemma count_times_cons p x xs :
  count_times p (x :: xs)
  = ((match x with Some y => if p y then 1 else 0 | None => 0 end)
     + count_times p xs)%nat.
Proof. unfold count_times. simpl. destruct x as [y|]; [|done]. by destruct (p y). Qed.

Lemma count_times_sum p q r xs :
  (∀ y, p y = true → r y = true) → (∀ y, q y = true → r y = true) →
  (∀ y, p y = true → q y = true → False) →
  (count_times p xs + count_times q xs ≤ count_times r xs)%nat.
Proof.
  intros Hp Hq Hpq. induction xs as [|x xs IH]; [done|].
  rewrite !count_times_cons. destruct x as [y|]; [|lia].
  specialize (Hp y). specialize (Hq y). specialize (Hpq y).
  destruct (p y), (q y), (r y); try lia; naive_solver.
Qed.

Lemma count_times_length p xs : (count_times p xs ≤ length xs)%nat.
Proof.
  induction xs as [|x xs IH]; [done|]. rewrite count_times_cons. simpl.
  destruct x as [y|]; [destruct (p y)|]; lia.
Qed.

Lemma is_cmp_refl t : is_cmp Eq t t = true.
Proof. unfold is_cmp. apply bool_decide_eq_true, (cmp_refl compare_datetime). Qed.

(** A later time has a smaller rank. *)
Lemma rank_of_later all pre1 post1 pre2 a b :
  all = pre1 ++ Some a :: post1 → compare_datetime a b = Gt →
  ∃ n1 n2, rank_of all pre1 (Some a) = Some n1
           ∧ rank_of all pre2 (Some b) = Some n2 ∧ (n1 < n2)%nat.
Proof.
  intros Hall Hgt. simpl. do 2 eexists. split; [done|]. split; [done|].
  pose proof (count_times_sum (fun y => is_cmp Gt y a) (fun y => is_cmp Eq y a)
                (fun y => is_cmp Gt y b) all) as Hsum.
  assert (Hlt : compare_datetime b a = Lt).
  { by rewrite (cmp_antisym compare_datetime a b), Hgt. }
  unfold is_cmp in Hsum.
  assert (count_times (fun y => is_cmp Eq y a) pre1
          < count_times (fun y => is_cmp Eq y a) all)%nat.
  { rewrite Hall, count_times_app, count_times_cons, is_cmp_refl. lia. }
  unfold is_cmp in *.
  enough (count_times (fun y => bool_decide (compare_datetime y a = Gt)) all
          + count_times (fun y => bool_decide (compare_datetime y a = Eq)) all
          ≤ count_times (fun y => bool_decide (compare_datetime y b = Gt)) all)%nat
    by lia.
  apply Hsum.
  - intros y Hy%bool_decide_eq_true. apply bool_decide_eq_true.
    apply (cmp_lt_gt compare_datetime).
    apply (cmp_lt_le compare_datetime b a y); [done|].
    rewrite (cmp_antisym compare_datetime y a), Hy. done.
  - intros y Hy%bool_decide_eq_true. apply bool_decide_eq_true.
    by rewrite (cmp_eq_l compare_datetime y a b).
  - intros y H1%bool_decide_eq_true H2%bool_decide_eq_true. congruence.
Qed.

(** Of two equal times the earlier one has the smaller rank. *)
Lemma rank_of_tied all pre mid a :
  ∃ n1 n2, rank_of all pre (Some a) = Some n1
           ∧ rank_of all (pre ++ Some a :: mid) (Some a) = Some n2
           ∧ (n1 < n2)%nat.
Proof.
  simpl. do 2 eexists. split; [done|]. split; [done|].
  rewrite count_times_app, count_times_cons, is_cmp_refl. lia.
Qed.

(** A rank lies between 1 and the number of values. *)
Lemma rank_of_bounds all pre post a :
  all = pre ++ Some a :: post →
  ∃ n, rank_of all pre (Some a) = Some n ∧ (1 ≤ n ≤ length all)%nat.
Proof.
  intros Hall. simpl. eexists. split; [done|].
  pose proof (count_times_sum (fun y => is_cmp Gt y a) (fun y => is_cmp Eq y a)
                (fun _ => true) all) as Hsum.
  pose proof (count_times_length (fun _ => true) all).
  assert (count_times (fun y => is_cmp Eq y a) pre
          < count_times (fun y => is_cmp Eq y a) all)%nat.
  { rewrite Hall, count_times_app, count_times_cons, is_cmp_refl. lia. }
  enough (count_times (fun y => is_cmp Gt y a) all
          + count_times (fun y => is_cmp Eq y a) all
          ≤ count_times (fun _ => true) all)%nat by lia.
  apply Hsum; [done..|].
  unfold is_cmp. intros y H1%bool_decide_eq_true H2%bool_decide_eq_true.
  congruence.
Qed.

Lemma rank_first_from_lookup all xs : ∀ before i x,
  xs !! i = Some x →
  rank_first_from all before xs !! i
  = Some (rank_of all (before ++ take i xs) x).
Proof.
  induction xs as [|y xs IH]; intros before i x Hi; [done|].
  destruct i as [|i]; simpl in *.
  - simplify_eq. by rewrite app_nil_r.
  - rewrite (IH _ _ _ Hi). by rewrite <- app_assoc.
Qed.

Lemma rank_first_from_length all xs : ∀ before,
  length (rank_first_from all before xs) = length xs.
Proof. induction xs as [|y xs IH]; intros before; simpl; [done|by rewrite IH]. Qed.

Lemma merge_rank_lookup (table : list (string * option nat)) i c n :
  NoDup (fst <$> table) → table !! i = Some (c, n) → merge_rank table c = n.
Proof.
  unfold merge_rank. revert i. induction table as [|[c' n'] table IH]; intros i Hnd Hi;
    [done|].
  rewrite fmap_cons in Hnd. apply NoDup_cons in Hnd as [Hc' Hnd]. simpl.
  destruct i as [|i]; simpl in Hi.
  - simplify_eq. by rewrite String.eqb_refl.
  - destruct (String.eqb c' c) eqn:Heq.
    + apply String.eqb_eq in Heq as ->. exfalso. apply Hc'.
      apply list_elem_of_fmap. exists (c, n). split; [done|].
      by eapply list_elem_of_lookup_2.
    + by eapply IH.
Qed.

Lemma group_keys_elem_of df c : c ∈ group_keys df ↔ c ∈ channel_name <$> df.
Proof.
  unfold group_keys. by rewrite sort_stable_Permutation, elem_of_remove_dups.
Qed.

Lemma group_keys_NoDup df : NoDup (group_keys df).
Proof.
  unfold group_keys. rewrite sort_stable_Permutation. apply NoDup_remove_dups.
Qed.

Lemma group_keys_sorted df :
  StronglySorted (fun a b => String.compare a b = Lt) (group_keys df).
Proof.
  pose proof (group_keys_NoDup df) as Hnd.
  pose proof (sort_stable_sorted String.compare (remove_dups (channel_name <$> df)))
    as Hs.
  fold (group_keys df) in Hs.
  induction Hs as [|c l Hl IH Hc]; [constructor|].
  apply NoDup_cons in Hnd as [Hc' Hnd]. constructor; [by apply IH|].
  rewrite Forall_forall in Hc |- *. intros c2 Hc2.
  specialize (Hc c2 Hc2). destruct (String.compare c c2) eqn:Hcmp; try done.
  apply string_compare_eq in Hcmp as ->. done.
Qed.

Lemma calculate_sub_group_rank_lookup df i c :
  group_keys df !! i = Some c →
  let maxes := (fun k => max_time (group_times df k)) <$> group_keys df in
  calculate_sub_group_rank df !! i
  = Some (c, rank_of maxes (take i maxes) (max_time (group_times df c))).
Proof.
  intros Hi maxes. unfold calculate_sub_group_rank. cbv zeta.
  change (map ?f ?l) with (f <$> l). fold maxes.
  apply lookup_zip_Some. split; [done|].
  unfold rank_first_desc.
  rewrite (rank_first_from_lookup maxes maxes [] i (max_time (group_times df c))).
  - done.
  - unfold maxes. by rewrite list_lookup_fmap, Hi.
Qed.

Lemma calculate_sub_group_rank_keys df :
  fst <$> calculate_sub_group_rank df = group_keys df.
Proof.
  unfold calculate_sub_group_rank. cbv zeta. apply fst_zip.
  unfold rank_first_desc. rewrite rank_first_from_length.
  change (map ?f ?l) with (f <$> l). by rewrite length_fmap.
Qed.

Lemma group_times_app l1 l2 c :
  group_times (l1 ++ l2) c = group_times l1 c ++ group_times l2 c.
Proof. unfold group_times. by rewrite filter_app, fmap_app. Qed.

Lemma group_times_cons r l c :
  channel_name r = c →
  group_times (r :: l) c = time_of (watched_at r) :: group_times l c.
Proof. intros Hc. unfold group_times. by rewrite filter_cons, decide_True. Qed.

Lemma group_times_elem_of df c x :
  x ∈ group_times df c
  ↔ ∃ r, r ∈ df ∧ channel_name r = c ∧ time_of (watched_at r) = x.
Proof.
  unfold group_times. rewrite list_elem_of_fmap. split.
  - intros (r & -> & [Hc Hr]%list_elem_of_filter). eauto.
  - intros (r & Hr & Hc & <-). exists r. split; [done|].
    by apply list_elem_of_filter.
Qed.

Lemma max_time_None df c :
  max_time (group_times df c) = None
  ↔ ∀ r, r ∈ df → channel_name r = c → time_of (watched_at r) = None.
Proof.
  pose proof (max_time_spec (group_times df c)) as Hspec. split.
  - intros Hm r Hr Hc. rewrite Hm in Hspec.
    destruct (time_of (watched_at r)) as [t|] eqn:Ht; [|done].
    exfalso. apply (Hspec t). apply group_times_elem_of. eauto.
  - intros Hall. destruct (max_time (group_times df c)) as [m|]; [|done].
    destruct Hspec as [(r & Hr & Hc & Ht)%group_times_elem_of _].
    rewrite (Hall r Hr Hc) in Ht. done.
Qed.

(** X11.  [calculate_sub_group_rank] has one row per channel of the frame,
    the channels in ascending order. The rank of a channel is missing
    exactly when none of its rows has a time, and lies between 1 and the
    number of channels otherwise. *)
Theorem X11_calculate_sub_group_rank_channels (df : list record) :
  let table := calculate_sub_group_rank df in
  StronglySorted (fun a b => String.compare a b = Lt) (fst <$> table)
  ∧ (∀ c, c ∈ fst <$> table ↔ c ∈ channel_name <$> df)
  ∧ ∀ c n, (c, n) ∈ table →
           (n = None ↔ ∀ r, r ∈ df → channel_name r = c →
                            time_of (watched_at r) = None)
           ∧ ∀ k, n = Some k → (1 ≤ k ≤ length table)%nat.
Proof.
  intros table. subst table. rewrite calculate_sub_group_rank_keys.
  split; [apply group_keys_sorted|]. split; [apply group_keys_elem_of|].
  intros c n [i Hi]%list_elem_of_lookup_1.
  assert (group_keys df !! i = Some c) as Hc.
  { rewrite <- calculate_sub_group_rank_keys, list_lookup_fmap, Hi. done. }
  rewrite (calculate_sub_group_rank_lookup df i c Hc) in Hi. cbv zeta in Hi.
  injection Hi as <-.
  set (maxes := (fun k => max_time (group_times df k)) <$> group_keys df).
  rewrite <- max_time_None.
  destruct (max_time (group_times df c)) as [m|] eqn:Hm.
  - split; [done|]. intros k Hk.
    destruct (rank_of_bounds maxes (take i maxes) (drop (S i) maxes) m)
      as (n & Hn & Hbound).
    { symmetry. apply take_drop_middle. unfold maxes.
      by rewrite list_lookup_fmap, Hc; simpl; rewrite Hm. }
    rewrite Hn in Hk. injection Hk as <-.
    assert (length (calculate_sub_group_rank df) = length maxes) as ->; [|done].
    rewrite <- (length_fmap fst), calculate_sub_group_rank_keys.
    unfold maxes. by rewrite length_fmap.
  - split; [done|]. by intros k.
Qed.

(** X12.  Of two channels with a time, the one whose latest time is later
    has the smaller rank; when the latest times are equal, the one whose
    name comes first has the smaller rank. *)
Theorem X12_sub_group_rank_order (df : list record) (c1 c2 : string)
    (t1 t2 : datetime) :
  max_time (group_times df c1) = Some t1 →
  max_time (group_times df c2) = Some t2 →
  compare_datetime t1 t2 = Gt ∨ (t1 = t2 ∧ String.compare c1 c2 = Lt) →
  ∃ n1 n2,
    merge_rank (calculate_sub_group_rank df) c1 = Some n1
    ∧ merge_rank (calculate_sub_group_rank df) c2 = Some n2
    ∧ (n1 < n2)%nat.
Proof.
  intros H1 H2 Hord.
  assert (Hkey : ∀ c t, max_time (group_times df c) = Some t →
                        ∃ i, group_keys df !! i = Some c).
  { intros c t Hm. apply list_elem_of_lookup_1, group_keys_elem_of.
    pose proof (max_time_spec (group_times df c)) as Hs. rewrite Hm in Hs.
    destruct Hs as [(r & Hr & Hc & _)%group_times_elem_of _].
    apply list_elem_of_fmap. eauto. }
  destruct (Hkey c1 t1 H1) as [i1 Hi1]. destruct (Hkey c2 t2 H2) as [i2 Hi2].
  set (maxes := (fun k => max_time (group_times df k)) <$> group_keys df).
  assert (Hrank : ∀ i c, group_keys df !! i = Some c →
            merge_rank (calculate_sub_group_rank df) c
            = rank_of maxes (take i maxes) (max_time (group_times df c))).
  { intros i c Hi. eapply merge_rank_lookup.
    - rewrite calculate_sub_group_rank_keys. apply group_keys_NoDup.
    - by apply calculate_sub_group_rank_lookup. }
  rewrite (Hrank i1 c1 Hi1), (Hrank i2 c2 Hi2), H1, H2.
  assert (Hm1 : maxes !! i1 = Some (Some t1)).
  { unfold maxes. by rewrite list_lookup_fmap, Hi1; simpl; rewrite H1. }
  assert (Hm2 : maxes !! i2 = Some (Some t2)).
  { unfold maxes. by rewrite list_lookup_fmap, Hi2; simpl; rewrite H2. }
  destruct Hord as [Hgt|[<- Hlt]].
  - apply (rank_of_later maxes _ (drop (S i1) maxes)); [|done].
    symmetry. by apply take_drop_middle.
  - assert (i1 < i2)%nat as Hlt12.
    { pose proof (group_keys_sorted df) as Hs.
      destruct (Nat.lt_trichotomy i1 i2) as [?|[->|Hgt]]; [done|..].
      - rewrite Hi1 in Hi2. injection Hi2 as ->.
        by rewrite (cmp_refl String.compare) in Hlt.
      - pose proof (StronglySorted_lookup_lt _ _ Hs i2 i1 c2 c1 Hi2 Hi1 Hgt) as H'.
        simpl in H'. rewrite (cmp_antisym String.compare c1 c2), Hlt in H'. done. }
    assert (take i2 maxes
            = take i1 maxes ++ Some t1 :: take (i2 - S i1) (drop (S i1) maxes))
      as ->.
    { rewrite <- (take_drop_middle maxes i1 (Some t1) Hm1) at 1.
      rewrite take_app, length_take_le
        by (apply lookup_lt_Some in Hm1; lia).
      rewrite take_ge by (rewrite length_take; lia).
      f_equal. replace (i2 - i1)%nat with (S (i2 - S i1)) by lia. done. }
    apply rank_of_tied.
Qed.

Lemma X12_sub_group_rank_order_witness :
  ∃ n1 n2,
    merge_rank (calculate_sub_group_rank sample_likes_first) "A" = Some n1
    ∧ merge_rank (calculate_sub_group_rank sample_likes_first) "B" = Some n2
    ∧ (n1 < n2)%nat.
Proof.
  apply (X12_sub_group_rank_order sample_likes_first "A" "B"
           {| epoch_second := 10; microsecond := 0 |}
           {| epoch_second := 5; microsecond := 0 |}).
  - reflexivity.
  - reflexivity.
  - left. reflexivity.
Defined.

(** X13.  Within a channel, a row with a later time has a smaller
    [video_rank_within_group]; of two rows with the same time, the one
    that comes first in the frame has the smaller rank. The ranks start at
    1. *)
Theorem X13_rank_within_group_order (df : list record) (i j : nat)
    (r1 r2 : record) (t1 t2 : datetime) :
  df !! i = Some r1 → df !! j = Some r2 →
  channel_name r1 = channel_name r2 →
  time_of (watched_at r1) = Some t1 → time_of (watched_at r2) = Some t2 →
  compare_datetime t1 t2 = Gt ∨ (t1 = t2 ∧ (i < j)%nat) →
  ∃ n1 n2,
    rank_within_group df !! i = Some (Some n1)
    ∧ rank_within_group df !! j = Some (Some n2)
    ∧ (1 ≤ n1 < n2)%nat.
Proof.
  intros Hi Hj Hc Ht1 Ht2 Hord. unfold rank_within_group.
  rewrite (rank_within_from_lookup df df [] i r1 Hi),
    (rank_within_from_lookup df df [] j r2 Hj), Ht1, Ht2, <- Hc. simpl app.
  set (c := channel_name r1).
  assert (Hall : group_times df c
                 = group_times (take i df) c
                   ++ Some t1 :: group_times (drop (S i) df) c).
  { rewrite <- (take_drop_middle df i r1 Hi) at 1.
    by rewrite group_times_app, group_times_cons, Ht1. }
  destruct (rank_of_bounds _ _ _ _ Hall) as (n & Hn & Hbound).
  assert (∃ n1 n2,
            rank_of (group_times df c) (group_times (take i df) c) (Some t1)
            = Some n1
            ∧ rank_of (group_times df c) (group_times (take j df) c) (Some t2)
              = Some n2 ∧ (n1 < n2)%nat) as (n1 & n2 & Hn1 & Hn2 & Hlt).
  { destruct Hord as [Hgt|[<- Hlt]].
    - by eapply rank_of_later.
    - assert (take j df = take i df ++ r1 :: take (j - S i) (drop (S i) df)) as ->.
      { rewrite <- (take_drop_middle df i r1 Hi) at 1.
        rewrite take_app, length_take_le by (apply lookup_lt_Some in Hi; lia).
        rewrite take_ge by (rewrite length_take; lia).
        f_equal. replace (j - i)%nat with (S (j - S i)) by lia. done. }
      rewrite group_times_app, group_times_cons, Ht1 by done.
      apply rank_of_tied. }
  exists n1, n2. rewrite Hn1, Hn2. split; [done|]. split; [done|].
  rewrite Hn in Hn1. injection Hn1 as <-. lia.
Qed.

Lemma X13_rank_within_group_order_witness :
  ∃ n1 n2,
    rank_within_group sample_tied !! 0%nat = Some (Some n1)
    ∧ rank_within_group sample_tied !! 1%nat = Some (Some n2)
    ∧ (1 ≤ n1 < n2)%nat.
Proof.
  apply (X13_rank_within_group_order sample_tied 0 1
           (rec "1" "A" "sub" 10) (rec "2" "A" "like" 10)
           {| epoch_second := 10; microsecond := 0 |}
           {| epoch_second := 10; microsecond := 0 |});
    try reflexivity.
  right. split; [reflexivity|lia].
Defined.

(** ** More on the order of the ranked frame *)

(** X14.  On a frame with the column [type], [move_type_to_top] returns
    the rows of type "like" followed by the other rows, both in the order
    they had, and no row is lost or repeated. Applying it again changes
    nothing. *)
Theorem X14_move_type_to_top_partition (df : list ranked) :
  typed df →
  (∃ likes others,
     move_type_to_top df = likes ++ others
     ∧ Forall (fun x => type (base x) = Some "like"%string) likes
     ∧ Forall (fun x => type (base x) ≠ Some "like"%string) others
     ∧ likes `sublist_of` df ∧ others `sublist_of` df)
  ∧ move_type_to_top df ≡ₚ df
  ∧ move_type_to_top (move_type_to_top df) = move_type_to_top df.
Proof.
  intros _. split; [|split].
  - eexists _, _. split; [reflexivity|].
    split; [apply Forall_forall; by intros x [? _]%list_elem_of_filter|].
    split; [apply Forall_forall; by intros x [? _]%list_elem_of_filter|].
    split; apply sublist_filter.
  - apply move_type_to_top_Permutation.
  - unfold move_type_to_top. cbv zeta. rewrite !filter_app.
    rewrite (filter_none (fun x => type (base x) = Some "like"%string)
               (filter (fun x => type (base x) ≠ Some "like"%string) df))
      by (by intros x [? _]%list_elem_of_filter).
    rewrite (filter_none (fun x => type (base x) ≠ Some "like"%string)
               (filter (fun x => type (base x) = Some "like"%string) df))
      by (intros x [? _]%list_elem_of_filter; tauto).
    rewrite app_nil_r. simpl.
    f_equal; rewrite list_filter_filter; apply list_filter_iff; tauto.
Qed.

Lemma X14_move_type_to_top_partition_witness :
  move_type_to_top (move_type_to_top (with_ranks sample_tied))
  = move_type_to_top (with_ranks sample_tied).
Proof.
  apply (X14_move_type_to_top_partition (with_ranks sample_tied)).
  repeat constructor; done.
Defined.

(** ** More on [reorder_frame] *)

(** X15.  On a frame that has the column [type], [reorder_frame] returns
    rows of the converted frame, with every video id of the frame once; it
    keeps all rows exactly when the ids of the frame are pairwise
    distinct, and the rows it returns are then the converted rows in
    another order. *)
Theorem X15_reorder_frame_rows (isoparse : string → option datetime)
    (df out : list record) :
  Forall (fun r => type r ≠ None) df →
  reorder_frame isoparse df = Ok out →
  ∃ df', convert_to_datetime isoparse df = Ok df'
    ∧ (∀ r, r ∈ out → r ∈ df')
    ∧ (∀ id, id ∈ video_id <$> out ↔ id ∈ video_id <$> df)
    ∧ NoDup (video_id <$> out)
    ∧ (length out = length df ↔ NoDup (video_id <$> df))
    ∧ (NoDup (video_id <$> df) → out ≡ₚ df').
Proof.
  intros _ H. unfold reorder_frame in H. apply bind_Ok in H as (df' & Hdf' & H).
  injection H as <-. exists df'. split; [done|].
  destruct (convert_to_datetime_columns _ _ _ Hdf') as [Hids _].
  pose proof (convert_to_datetime_length _ _ _ Hdf') as Hlen.
  rewrite <- Hids, <- Hlen.
  assert (Hperm : NoDup (video_id <$> df') → reorder_converted df' ≡ₚ df').
  { intros Hnd. rewrite (rerank_top df' Hnd). apply rerank_top_Permutation. }
  split; [apply reorder_converted_elem_of|].
  assert (Hiff : ∀ id, id ∈ video_id <$> reorder_converted df'
                       ↔ id ∈ video_id <$> df').
  { intros id. split.
    - intros (r & -> & Hr)%list_elem_of_fmap. apply list_elem_of_fmap_2.
      by apply reorder_converted_elem_of.
    - intros (r & -> & Hr)%list_elem_of_fmap. by apply reorder_converted_ids. }
  split; [done|]. split; [apply reorder_converted_NoDup|]. split; [|done].
  split.
  - intros Hl.
    assert (video_id <$> reorder_converted df' ≡ₚ video_id <$> df') as <-;
      [|apply reorder_converted_NoDup].
    apply submseteq_length_Permutation; [|by rewrite !length_fmap, Hl].
    apply NoDup_submseteq; [apply reorder_converted_NoDup|].
    intros id. apply Hiff.
  - intros Hnd. by rewrite (Hperm Hnd).
Qed.

Lemma X15_reorder_frame_rows_witness :
  length [rec "Z" "C" "like" (minute_time 8); rec "X" "A" "like" (minute_time 10);
          rec "Y" "A" "like" (minute_time 7)] = length sample_repeated
  ↔ NoDup (video_id <$> sample_repeated).
Proof.
  destruct (X15_reorder_frame_rows sample_isoparse sample_repeated
              [rec "Z" "C" "like" (minute_time 8);
               rec "X" "A" "like" (minute_time 10);
               rec "Y" "A" "like" (minute_time 7)])
    as (df' & _ & _ & _ & _ & H & _).
  - repeat constructor; done.
  - vm_compute. reflexivity.
  - exact H.
Defined.

(** ** More on [preprocess_data_clai_light] *)

Lemma light_frame_split likes subs df :
  light_frame likes subs = Ok df →
  df = omap light_canonical (Light.tag "like" likes)
       ++ omap light_canonical (Light.tag "sub" subs).
Proof.
  intros ->%light_frame_Ok. by rewrite tagged_sorted, omap_app.
Qed.

Lemma light_frame_columns likes subs :
  light_frame likes subs
  = match missing_columns (light_columns likes subs) with
    | [] =>
        if has_column Light.timestamp (likes ++ subs)
        then Ok (omap light_canonical (Light.tag "like" likes)
                 ++ omap light_canonical (Light.tag "sub" subs))
        else Raise (KeyError ["timestamp"%string])
    | missing => Raise (KeyError missing)
    end.
Proof.
  unfold light_frame. cbv zeta. rewrite !has_column_tagged.
  unfold check_columns at 1. fold (light_columns likes subs).
  destruct (missing_columns (light_columns likes subs)); [|reflexivity]. simpl.
  destruct (has_column Light.timestamp (likes ++ subs)); [|reflexivity]. simpl.
  by rewrite tagged_sorted, omap_app.
Qed.

(** The record of a tagged entry that has URL, title and channel name. *)
Lemma tag_canonical kind entries e :
  e ∈ entries → light_complete e →
  ∃ r u, r ∈ omap light_canonical (Light.tag kind entries)
         ∧ Light.url e = Val u ∧ video_id r = get_video_id u
         ∧ type r = Some kind
         ∧ watched_at r = Light.cell_value (Light.timestamp e).
Proof.
  intros [i Hi]%list_elem_of_lookup_1 (Hu & Ht & Hc).
  destruct (Light.url e) as [| |u] eqn:Eu; try done.
  destruct (Light.title e) as [| |ti] eqn:Et; try done.
  destruct (Light.channelName e) as [| |c] eqn:Ec; try done.
  exists {| video_id := get_video_id u; channel_name := c; title := ti;
            watched_at := Light.cell_value (Light.timestamp e);
            type := Some kind; status := None |}, u.
  split; [|done].
  apply list_elem_of_omap.
  exists {| Light.item := e; Light.order := i; Light.kind := kind |}. split.
  - by apply (elem_of_lookup_imap_2
                (fun i e => {| Light.item := e; Light.order := i;
                               Light.kind := kind |}) entries e i).
  - unfold light_canonical. simpl. by rewrite Eu, Et, Ec.
Qed.

(** X16.  [preprocess_data_clai_light] raises [KeyError] exactly when the
    entries of the two lists together lack one of the columns "url",
    "title" and "channelName", and the error then names those that are
    absent, or when they have these three and lack "timestamp". When both
    lists are empty the error names the three columns. *)
Theorem X16_preprocess_data_clai_light_KeyError (isoparse : string → option datetime)
    (likes subs : list Light.entry) :
  (∀ missing,
     preprocess_data_clai_light isoparse likes subs = Raise (KeyError missing)
     ↔ missing ≠ []
       ∧ missing
         = match missing_columns (light_columns likes subs) with
           | [] => missing_columns
                     [("timestamp"%string,
                       has_column Light.timestamp (likes ++ subs))]
           | absent => absent
           end)
  ∧ preprocess_data_clai_light isoparse [] []
    = Raise (KeyError ["url"; "title"; "channelName"]%string).
Proof.
  split; [|vm_compute; reflexivity]. intros missing.
  unfold preprocess_data_clai_light. rewrite light_frame_columns.
  destruct (missing_columns (light_columns likes subs)) as [|c cs].
  - destruct (has_column Light.timestamp (likes ++ subs)); simpl.
    + split; [|by intros [? ->]]. intros H. exfalso.
      unfold reorder_frame in H.
      pose proof (convert_to_datetime_result isoparse
                    (omap light_canonical (Light.tag "like" likes)
                     ++ omap light_canonical (Light.tag "sub" subs))) as Ho.
      destruct (convert_to_datetime _ _) as [df'|e]; simpl in H; [done|].
      destruct Ho as [-> _]. done.
    + split; [by intros [= <-]|by intros [_ ->]].
  - simpl. split; [by intros [= <-]|by intros [_ ->]].
Qed.

(** X17.  When the four columns are there and some entry with URL, title
    and channel name has no timestamp, or null for it,
    [preprocess_data_clai_light] raises [TypeError]. *)
Theorem X17_preprocess_data_clai_light_TypeError (isoparse : string → option datetime)
    (likes subs : list Light.entry) (e : Light.entry) :
  has_column Light.timestamp (likes ++ subs) = true →
  e ∈ likes ++ subs → light_complete e →
  notna (Light.timestamp e) = false →
  preprocess_data_clai_light isoparse likes subs = Raise TypeError.
Proof.
  intros Hts He Hcomplete Hna.
  assert (missing_columns (light_columns likes subs) = []) as Hcols.
  { destruct Hcomplete as (Hu & Ht & Hc). unfold light_columns, missing_columns.
    assert (∀ A (col : Light.entry → cell A),
              notna (col e) = true → has_column col (likes ++ subs) = true)
      as Hcol.
    { intros A col Hn. apply has_column_true. exists e. split; [done|].
      by destruct (col e). }
    by rewrite !Hcol. }
  unfold preprocess_data_clai_light. rewrite light_frame_columns, Hcols, Hts.
  simpl. unfold reorder_frame.
  pose proof (convert_to_datetime_result isoparse
                (omap light_canonical (Light.tag "like" likes)
                 ++ omap light_canonical (Light.tag "sub" subs))) as Ho.
  destruct (convert_to_datetime _ _) as [df'|e']; simpl.
  - exfalso. destruct Ho as [Ho _]. rewrite Forall_forall in Ho.
    assert (∃ r, r ∈ omap light_canonical (Light.tag "like" likes)
                     ++ omap light_canonical (Light.tag "sub" subs)
                 ∧ watched_at r = Light.cell_value (Light.timestamp e))
      as (r & Hr & Hw).
    { apply elem_of_app in He as [He|He].
      - destruct (tag_canonical "like" likes e He Hcomplete)
          as (r & u & Hr & _ & _ & _ & Hw).
        exists r. split; [|done]. apply elem_of_app. by left.
      - destruct (tag_canonical "sub" subs e He Hcomplete)
          as (r & u & Hr & _ & _ & _ & Hw).
        exists r. split; [|done]. apply elem_of_app. by right. }
    specialize (Ho r Hr). rewrite Hw in Ho.
    by destruct (Light.timestamp e).
  - by destruct Ho as [-> _].
Qed.

Lemma X17_preprocess_data_clai_light_TypeError_witness :
  preprocess_data_clai_light sample_isoparse
    [sample_light "u=l1" (minute_text "10") "t" "A"]
    [{| Light.url := Val "u=s1"%string; Light.timestamp := Null;
        Light.title := Val "t"%string; Light.channelName := Val "B"%string |}]
  = Raise TypeError.
Proof.
  apply (X17_preprocess_data_clai_light_TypeError sample_isoparse
           [sample_light "u=l1" (minute_text "10") "t" "A"]
           [{| Light.url := Val "u=s1"%string; Light.timestamp := Null;
               Light.title := Val "t"%string;
               Light.channelName := Val "B"%string |}]
           {| Light.url := Val "u=s1"%string; Light.timestamp := Null;
              Light.title := Val "t"%string;
              Light.channelName := Val "B"%string |}).
  - reflexivity.
  - apply list_elem_of_lookup_2 with 1%nat. reflexivity.
  - repeat split.
  - reflexivity.
Defined.

Lemma before_sublist {A} (s l : list A) a b :
  s `sublist_of` l → before s a b → before l a b.
Proof.
  intros Hsub (s1 & s2 & s3 & ->).
  apply sublist_app_l in Hsub as (k1 & k2 & -> & _ & Hsub).
  apply sublist_cons_l in Hsub as (k3 & k4 & -> & Hsub).
  apply sublist_app_l in Hsub as (k5 & k6 & -> & _ & Hsub).
  apply sublist_cons_l in Hsub as (k7 & k8 & -> & Hsub).
  exists (k1 ++ k3), (k5 ++ k7), k8. by rewrite <- !app_assoc.
Qed.

Lemma before_cons_inv {A} (x : A) l a b :
  before (x :: l) a b → (x = a ∧ b ∈ l) ∨ before l a b.
Proof.
  intros ([|x' l1] & l2 & l3 & H); simpl in H; injection H as -> ->.
  - left. split; [done|]. set_solver.
  - right. by exists l1, l2, l3.
Qed.

Lemma before_cons {A} (x : A) l a b : before l a b → before (x :: l) a b.
Proof. intros (l1 & l2 & l3 & ->). by exists (x :: l1), l2, l3. Qed.

Lemma before_app_inv {A} (l k : list A) a b :
  before (l ++ k) a b → before l a b ∨ (a ∈ l ∧ b ∈ k) ∨ before k a b.
Proof.
  induction l as [|x l IH]; simpl; [auto|].
  intros [[-> Hb]|Hb]%before_cons_inv.
  - apply elem_of_app in Hb as [Hb|Hb].
    + left. apply list_elem_of_split in Hb as (l1 & l2 & ->). by exists [], l1, l2.
    + right. left. split; [left|done].
  - destruct (IH Hb) as [?|[[? ?]|?]].
    + left. by apply before_cons.
    + right. left. split; [by right|done].
    + auto.
Qed.

(** In the frame [move_type_to_top] makes of a sorted frame, a row is
    never behind a row that the order puts after it, unless that row has
    type "like" and it has not. *)
Lemma move_type_to_top_not_before S x1 x2 :
  compare_ranked x1 x2 = Lt →
  (type (base x2) = Some "like"%string → type (base x1) = Some "like"%string) →
  ¬ before (move_type_to_top (sort_dataframe S)) x2 x1.
Proof.
  intros Hlt Hlike Hb.
  assert (Hgt : compare_ranked x2 x1 = Gt).
  { by rewrite (cmp_antisym compare_ranked x1 x2), Hlt. }
  assert (Hs : StronglySorted (fun a b => compare_ranked a b ≠ Gt)
                              (sort_dataframe S))
    by apply (sort_stable_sorted compare_ranked).
  unfold move_type_to_top in Hb. cbv zeta in Hb.
  apply before_app_inv in Hb as [Hb|[[H2 H1]|Hb]].
  - apply (before_sublist _ (sort_dataframe S)) in Hb; [|apply sublist_filter].
    by apply (sorted_before compare_ranked) in Hb.
  - apply list_elem_of_filter in H2 as [H2 _].
    apply list_elem_of_filter in H1 as [H1 _]. auto.
  - apply (before_sublist _ (sort_dataframe S)) in Hb; [|apply sublist_filter].
    by apply (sorted_before compare_ranked) in Hb.
Qed.

Lemma with_ranks_video_rank df x :
  x ∈ with_ranks df →
  video_rank_within_group x = None ↔ time_of (watched_at (base x)) = None.
Proof.
  intros (l1 & l2 & _ & ->)%with_ranks_elem_of. simpl.
  by destruct (time_of (watched_at (base x))).
Qed.

Lemma reorder_converted_ranked df r :
  r ∈ reorder_converted df →
  ∃ x, base x = r
       ∧ x ∈ drop_duplicates (fun r => video_id (base r))
               (move_type_to_top (sort_dataframe (with_ranks df)))
       ∧ x ∈ with_ranks df.
Proof.
  unfold reorder_converted. cbv zeta. change (map ?f ?l) with (f <$> l).
  intros (x & -> & Hx)%list_elem_of_fmap. exists x. split; [done|].
  split; [done|].
  eapply elem_of_sublist in Hx; [|apply drop_duplicates_sublist].
  rewrite move_type_to_top_Permutation in Hx. unfold sort_dataframe in Hx.
  by rewrite sort_stable_Permutation in Hx.
Qed.

(** X18.  In the frame [preprocess_data_clai_light] returns, a record
    whose timestamp did not parse stands behind every record with a time,
    unless it has type "like" and the other has not. *)
Theorem X18_preprocess_data_clai_light_NaT_last (isoparse : string → option datetime)
    (likes subs : list Light.entry) (out : list record) (r1 r2 : record)
    (t : datetime) :
  preprocess_data_clai_light isoparse likes subs = Ok out →
  r1 ∈ out → r2 ∈ out →
  watched_at r1 = VTime t → watched_at r2 = VNaT →
  (type r2 = Some "like"%string → type r1 = Some "like"%string) →
  before out r1 r2.
Proof.
  intros (df & df' & _ & _ & ->)%preprocess_data_clai_light_Ok H1 H2 Ht1 Ht2 Hlike.
  apply reorder_converted_ranked in H1 as (x1 & <- & Hx1 & Hw1).
  apply reorder_converted_ranked in H2 as (x2 & <- & Hx2 & Hw2).
  assert (compare_ranked x1 x2 = Lt) as Hlt.
  { unfold compare_ranked.
    destruct (video_rank_within_group x1) as [n1|] eqn:Hn1.
    - destruct (video_rank_within_group x2) as [n2|] eqn:Hn2; [|done].
      pose proof (proj2 (with_ranks_video_rank df' x2 Hw2)) as H.
      rewrite Ht2 in H. by rewrite H in Hn2.
    - apply (with_ranks_video_rank df' x1 Hw1) in Hn1. by rewrite Ht1 in Hn1. }
  unfold reorder_converted. cbv zeta. change (map ?f ?l) with (f <$> l).
  apply before_fmap.
  set (top := move_type_to_top (sort_dataframe (with_ranks df'))) in *.
  assert (x1 ≠ x2) as Hne.
  { intros ->. by rewrite (cmp_refl compare_ranked) in Hlt. }
  destruct (before_total _ x1 x2 Hx1 Hx2 Hne) as [|Hb]; [done|].
  exfalso. apply (move_type_to_top_not_before (with_ranks df') x1 x2 Hlt Hlike).
  eapply before_sublist; [|exact Hb]. apply drop_duplicates_sublist.
Qed.

Lemma X18_preprocess_data_clai_light_NaT_last_witness :
  before [rec "l2" "B" "like" (minute_time 30);
          rec "l1" "A" "like" (minute_time 10);
          {| video_id := "l3"; channel_name := "B"; title := "t";
             watched_at := VNaT; type := Some "like"%string; status := None |};
          rec "s1" "A" "sub" (minute_time 50)]
         (rec "l1" "A" "like" (minute_time 10))
         {| video_id := "l3"; channel_name := "B"; title := "t";
            watched_at := VNaT; type := Some "like"%string; status := None |}.
Proof.
  apply (X18_preprocess_data_clai_light_NaT_last sample_isoparse sample_likes
           sample_subs _ _ _ {| epoch_second := minute_time 10; microsecond := 0 |}).
  - vm_compute. reflexivity.
  - apply list_elem_of_lookup_2 with 1%nat. reflexivity.
  - apply list_elem_of_lookup_2 with 2%nat. reflexivity.
  - reflexivity.
  - reflexivity.
  - reflexivity.
Defined.

Lemma NoDup_fmap_eq {A B} (f : A → B) (l : list A) x y :
  NoDup (f <$> l) → x ∈ l → y ∈ l → f x = f y → x = y.
Proof.
  induction l as [|z l IH]; intros Hnd Hx Hy Hf; [by apply elem_of_nil in Hx|].
  rewrite fmap_cons in Hnd. apply NoDup_cons in Hnd as [Hz Hnd].
  apply elem_of_cons in Hx as [->|Hx]; apply elem_of_cons in Hy as [->|Hy].
  - done.
  - exfalso. apply Hz. rewrite Hf. by apply list_elem_of_fmap_2.
  - exfalso. apply Hz. rewrite <- Hf. by apply list_elem_of_fmap_2.
  - by apply IH.
Qed.

(** X19.  A video of the "likes" list is in the frame once, with type
    "like", also when the "subs" list has it too. *)
Theorem X19_preprocess_data_clai_light_like_wins (isoparse : string → option datetime)
    (likes subs : list Light.entry) (out : list record)
    (e : Light.entry) (u : string) :
  preprocess_data_clai_light isoparse likes subs = Ok out →
  e ∈ likes → Light.url e = Val u → light_complete e →
  ∃ r, r ∈ out ∧ video_id r = get_video_id u
       ∧ type r = Some "like"%string
       ∧ ∀ r', r' ∈ out → video_id r' = get_video_id u → r' = r.
Proof.
  intros Hout He Hu Hcomplete.
  pose proof Hout as (df & df' & Hdf & Hdf' & ->)%preprocess_data_clai_light_Ok.
  apply light_frame_split in Hdf.
  destruct (tag_canonical "like" likes e He Hcomplete)
    as (r0 & u' & Hr0 & Hu' & Hid & Hty & _).
  rewrite Hu in Hu'. injection Hu' as <-.
  assert (r0 ∈ df) as Hr0' by (rewrite Hdf; set_solver).
  apply convert_to_datetime_Ok in Hdf'.
  apply list_elem_of_lookup_1 in Hr0' as [i Hi].
  destruct (Forall2_lookup_l _ _ _ _ _ Hdf' Hi) as (r1 & Hi' & v & _ & ->).
  set (x0 := ranked_after df' (take i df') (set_watched_at r0 v)).
  assert (x0 ∈ with_ranks df') as Hx0.
  { apply (with_ranks_split df' _ _ (drop (S i) df')).
    symmetry. by apply take_drop_middle. }
  set (S := sort_dataframe (with_ranks df')).
  set (key := fun r : ranked => video_id (base r)).
  set (L := filter (fun r => type (base r) = Some "like"%string) S).
  set (O := filter (fun r => type (base r) ≠ Some "like"%string) S).
  assert (x0 ∈ filter (fun r => key r = get_video_id u) L) as Hx0L.
  { apply list_elem_of_filter. split; [done|].
    apply list_elem_of_filter. split; [done|].
    unfold S, sort_dataframe. by rewrite sort_stable_Permutation. }
  pose proof (drop_duplicates_first key (get_video_id u) (L ++ O)) as Hfirst.
  rewrite filter_app in Hfirst.
  destruct (filter (fun r => key r = get_video_id u) L) as [|y rest] eqn:HL;
    [by apply elem_of_nil in Hx0L|].
  simpl in Hfirst.
  assert (y ∈ filter (fun r => key r = get_video_id u) L) as Hy
    by (rewrite HL; left).
  apply list_elem_of_filter in Hy as [Hykey Hy].
  apply list_elem_of_filter in Hy as [Hytype _].
  assert (y ∈ drop_duplicates key (L ++ O)) as HyD.
  { assert (y ∈ filter (fun r => key r = get_video_id u)
                       (drop_duplicates key (L ++ O))) as H
      by (rewrite Hfirst; left).
    by apply list_elem_of_filter in H as [_ ?]. }
  assert (base y ∈ reorder_converted df') as Hyout.
  { unfold reorder_converted. cbv zeta. change (map ?f ?l) with (f <$> l).
    by apply list_elem_of_fmap_2. }
  exists (base y). split; [done|]. split; [done|]. split; [done|].
  intros r' Hr' Hid'.
  apply (NoDup_fmap_eq video_id (reorder_converted df')); [|done..|].
  - apply reorder_converted_NoDup.
  - by rewrite Hid'.
Qed.

Lemma X19_preprocess_data_clai_light_like_wins_witness :
  ∃ r, r ∈ [rec "l2" "B" "like" (minute_time 30);
            rec "l1" "A" "like" (minute_time 10);
            {| video_id := "l3"; channel_name := "B"; title := "t";
               watched_at := VNaT; type := Some "like"%string; status := None |};
            rec "s1" "A" "sub" (minute_time 50)]
       ∧ video_id r = get_video_id "u=l2"
       ∧ type r = Some "like"%string
       ∧ ∀ r', r' ∈ [rec "l2" "B" "like" (minute_time 30);
                     rec "l1" "A" "like" (minute_time 10);
                     {| video_id := "l3"; channel_name := "B"; title := "t";
                        watched_at := VNaT; type := Some "like"%string;
                        status := None |};
                     rec "s1" "A" "sub" (minute_time 50)] →
               video_id r' = get_video_id "u=l2" → r' = r.
Proof.
  apply (X19_preprocess_data_clai_light_like_wins sample_isoparse sample_likes
           sample_subs _ (sample_light "u=l2" (minute_text "30") "t" "B")).
  - vm_compute. reflexivity.
  - apply list_elem_of_lookup_2 with 1%nat. reflexivity.
  - reflexivity.
  - repeat split.
Defined.

(** ** More on the dedup gate *)

Lemma prepare_sqs_messages_known df (ids : gset string) file_id :
  (∀ r, r ∈ df → video_id r ∈ ids) →
  prepare_sqs_messages df ids file_id = ([], ids).
Proof.
  intros Hknown. rewrite prepare_sqs_messages_spec. cbv zeta.
  rewrite (filter_none (fun r => video_id r ∉ ids) df) by (intros r Hr; auto).
  simpl. f_equal. set_solver.
Qed.

Lemma prepare_sqs_messages_covers df (ids : gset string) file_id r :
  r ∈ df → video_id r ∈ snd (prepare_sqs_messages df ids file_id).
Proof.
  intros Hr. rewrite prepare_sqs_messages_spec. cbn [snd].
  destruct (decide (video_id r ∈ ids)); [set_solver|].
  apply elem_of_union_l, elem_of_list_to_set, list_elem_of_fmap_2.
  by apply list_elem_of_filter.
Qed.

Lemma prepare_sqs_messages_length df (ids : gset string) file_id :
  NoDup (video_id <$> df) →
  size (snd (prepare_sqs_messages df ids file_id))
  = (size ids + length (fst (prepare_sqs_messages df ids file_id)))%nat.
Proof.
  intros Hnd. rewrite prepare_sqs_messages_spec. cbn [fst snd].
  set (filtered := filter _ df).
  assert (NoDup (video_id <$> filtered)) as Hnd'.
  { eapply sublist_NoDup; [exact Hnd|]. apply fmap_sublist, sublist_filter. }
  rewrite length_imap, size_union, size_list_to_set, length_fmap; [lia|done|].
  intros id (r & -> & [Hr _]%list_elem_of_filter)%elem_of_list_to_set%list_elem_of_fmap.
  done.
Qed.

(** X20.  Running the gate again on the same frame with the set the first
    run left builds no message and leaves the set as it is, whatever the
    file id. *)
Theorem X20_prepare_sqs_messages_again (df : list record) (existing_ids : gset string)
    (file_id file_id' : string) :
  let ids' := snd (prepare_sqs_messages df existing_ids file_id) in
  prepare_sqs_messages df ids' file_id' = ([], ids').
Proof.
  intros ids'. apply prepare_sqs_messages_known.
  intros r Hr. by apply prepare_sqs_messages_covers.
Qed.

(** X21.  The messages follow the rows of the frame whose id is not in the
    set on entry, one message per such row and in their order. A message
    copies id, channel, title and time of its row, takes the row's type or
    the empty text, and carries the file id and the status "NEW" whatever
    the status of the row. The set on return is the set on entry with the
    ids of the messages. *)
Theorem X21_prepare_sqs_messages_rows (df : list record) (existing_ids : gset string)
    (fid : string) :
  let messages := fst (prepare_sqs_messages df existing_ids fid) in
  let ids' := snd (prepare_sqs_messages df existing_ids fid) in
  Forall2 (fun r m =>
             Id m = video_id r
             ∧ body_video_id (MessageBody m) = video_id r
             ∧ body_channel_name (MessageBody m) = channel_name r
             ∧ body_title (MessageBody m) = title r
             ∧ body_watched_at (MessageBody m) = watched_at r
             ∧ body_type (MessageBody m) = default EmptyString (type r)
             ∧ body_status (MessageBody m) = "NEW"%string
             ∧ file_id (MessageBody m) = fid)
          (filter (fun r => video_id r ∉ existing_ids) df) messages
  ∧ Forall (fun m => Id m ∉ existing_ids) messages
  ∧ ids' = existing_ids ∪ list_to_set (Id <$> messages).
Proof.
  cbv zeta. rewrite prepare_sqs_messages_spec. cbn [fst snd].
  set (filtered := filter _ df). set (N := Z.of_nat (length filtered)).
  assert (Hin : ∀ r, r ∈ filtered → video_id r ∉ existing_ids).
  { intros r Hr. by apply list_elem_of_filter in Hr as [? _]. }
  clearbody filtered N.
  assert (Hids : ∀ f : nat → record → message,
             (∀ i r, Id (f i r) = video_id r) →
             Id <$> imap f filtered = video_id <$> filtered).
  { clear. induction filtered as [|r l IH]; intros f Hf; [done|].
    rewrite imap_cons, !fmap_cons, Hf. f_equal. apply IH. intros; apply Hf. }
  split; [|split].
  - clear Hin Hids.
    enough (∀ pos : nat → Z,
              Forall2 (fun r m =>
                         Id m = video_id r
                         ∧ body_video_id (MessageBody m) = video_id r
                         ∧ body_channel_name (MessageBody m) = channel_name r
                         ∧ body_title (MessageBody m) = title r
                         ∧ body_watched_at (MessageBody m) = watched_at r
                         ∧ body_type (MessageBody m) = default EmptyString (type r)
                         ∧ body_status (MessageBody m) = "NEW"%string
                         ∧ file_id (MessageBody m) = fid)
                      filtered
                      (imap (fun i r => message_dict fid N (pos i) r) filtered))
      as H by apply (H (fun i => Z.of_nat i + 1)).
    induction filtered as [|r l IH]; intros pos; [constructor|].
    rewrite imap_cons. constructor; [done|]. apply (IH (pos ∘ S)).
  - apply Forall_forall. intros m Hm.
    apply elem_of_lookup_imap in Hm as (i & r & -> & Hr).
    apply Hin. by eapply list_elem_of_lookup_2.
  - rewrite Hids by done. set_solver.
Qed.

(** X22.  When the ids of the frame are pairwise distinct, the ids of the
    messages are distinct and the set grows by one id per message. *)
Theorem X22_prepare_sqs_messages_count (df : list record) (existing_ids : gset string)
    (file_id : string) :
  NoDup (video_id <$> df) →
  let messages := fst (prepare_sqs_messages df existing_ids file_id) in
  let ids' := snd (prepare_sqs_messages df existing_ids file_id) in
  NoDup (Id <$> messages)
  ∧ size ids' = (size existing_ids + length messages)%nat.
Proof.
  intros Hnd. cbv zeta. split; [|by apply prepare_sqs_messages_length].
  rewrite prepare_sqs_messages_spec. cbn [fst].
  set (filtered := filter _ df).
  assert (Hnd' : NoDup (video_id <$> filtered)).
  { eapply sublist_NoDup; [exact Hnd|]. apply fmap_sublist, sublist_filter. }
  assert (Hids : ∀ f : nat → record → message,
             (∀ i r, Id (f i r) = video_id r) →
             Id <$> imap f filtered = video_id <$> filtered).
  { generalize filtered. clear. intros filtered.
    induction filtered as [|r l IH]; intros f Hf; [done|].
    rewrite imap_cons, !fmap_cons, Hf. f_equal. apply IH. intros; apply Hf. }
  by rewrite Hids.
Qed.

Lemma X22_prepare_sqs_messages_count_witness :
  NoDup (video_id <$> [plain "a"; plain "b"; plain "c"])
  ∧ size (snd (prepare_sqs_messages [plain "a"; plain "b"; plain "c"]
                                    {[ "b"%string ]} "f")) = 3%nat.
Proof.
  assert (H : NoDup (video_id <$> [plain "a"; plain "b"; plain "c"])).
  { repeat constructor; set_solver. }
  split; [exact H|].
  exact (proj2 (X22_prepare_sqs_messages_count [plain "a"; plain "b"; plain "c"]
                  {[ "b"%string ]} "f" H)).
Defined.

(** ** More on the batches *)

Lemma concat_chunks {A} (l : list A) :
  concat ((fun k => take 10 (drop (k * 10) l)) <$> seq 0 ((length l + 9) / 10)%nat)
  = l.
Proof.
  remember ((length l + 9) / 10)%nat as n eqn:Hn.
  revert l Hn. induction n as [|n IH]; intros l Hn.
  - symmetry in Hn. apply Nat.div_small_iff in Hn; [|lia].
    destruct l; [done|simpl in Hn; lia].
  - rewrite <- cons_seq, fmap_cons, <- fmap_S_seq, <- list_fmap_compose.
    simpl concat.
    transitivity (take 10 l ++ drop 10 l); [|apply take_drop].
    rewrite drop_0. f_equal.
    rewrite <- (IH (drop 10 l)).
    + f_equal. apply list_fmap_ext. intros _ k _. simpl.
      by rewrite drop_drop.
    + rewrite length_drop.
      destruct (decide (10 ≤ length l)%nat).
      * replace (length l + 9)%nat
          with (length l - 10 + 9 + 1 * 10)%nat in Hn by lia.
        rewrite Nat.div_add in Hn by lia. lia.
      * assert ((length l + 9) / 10 < 2)%nat.
        { apply Nat.Div0.div_lt_upper_bound. lia. }
        replace (length l - 10)%nat with 0%nat by lia.
        rewrite Nat.div_small by lia. lia.
Qed.

Section Batches.

Context {Q : Type} (send_message_batch : Q → list message → response * Q).

Lemma send_messages_to_sqs_run (messages : list message) (q : Q) :
  let batches := (fun k => take 10 (drop (k * 10) messages))
                   <$> seq 0 ((length messages + 9) / 10)%nat in
  let ran := run_batches send_message_batch q batches in
  send_messages_to_sqs Q send_message_batch messages q
  = {| successful_messages := sum_counts (fst ran);
       queue := snd ran;
       calls := batches |}.
Proof.
  intros batches ran. unfold send_messages_to_sqs.
  rewrite fold_send_step. cbn [successful_messages queue calls app].
  assert ((fun i => take batch_size (drop i messages))
            <$> range 0 (length messages) batch_size = batches) as ->; [|done].
  rewrite (range_spec batch_size ltac:(unfold batch_size; lia)
             ((length messages + 9) / 10)%nat 0%nat (length messages))
    by (unfold batch_size; f_equal; lia).
  rewrite <- list_fmap_compose. apply list_fmap_ext. intros _ k _. reflexivity.
Qed.

(** X23.  No call is made without a message, and no batch is empty or
    holds more than ten entries: every batch but the last holds ten. *)
Theorem X23_send_messages_to_sqs_batch_sizes (messages : list message) (q : Q) :
  let st := send_messages_to_sqs Q send_message_batch messages q in
  (calls st = [] ↔ messages = [])
  ∧ Forall (fun batch => (1 ≤ length batch ≤ 10)%nat) (calls st)
  ∧ ∀ k batch, calls st !! k = Some batch → (S k < length (calls st))%nat →
               length batch = 10%nat.
Proof.
  intros st. subst st. rewrite send_messages_to_sqs_run. cbn [calls].
  set (n := ((length messages + 9) / 10)%nat).
  assert (Hn : (n * 10 < length messages + 10 ∧ length messages ≤ n * 10)%nat).
  { pose proof (Nat.div_mod_eq (length messages + 9) 10) as Hd.
    pose proof (Nat.mod_upper_bound (length messages + 9) 10 ltac:(lia)).
    fold n in Hd. lia. }
  assert (Hk : ∀ k batch,
             ((fun k => take 10 (drop (k * 10) messages)) <$> seq 0 n) !! k
             = Some batch →
             (k < n)%nat ∧ batch = take 10 (drop (k * 10) messages)).
  { intros k batch Hk. rewrite list_lookup_fmap in Hk.
    destruct (seq 0 n !! k) as [k'|] eqn:Hs; [|done].
    apply lookup_seq in Hs as [-> ?]. simpl in Hk. by simplify_eq. }
  split; [|split].
  - split.
    + intros H. apply (f_equal length) in H.
      rewrite length_fmap, length_seq in H. simpl in H.
      destruct messages; [done|simpl in Hn; lia].
    + intros ->. done.
  - apply Forall_forall. intros batch Hb.
    apply list_elem_of_lookup in Hb as [k Hb]. apply Hk in Hb as [? ->].
    rewrite length_take, length_drop. lia.
  - intros k batch Hb. rewrite length_fmap, length_seq. intros ?.
    apply Hk in Hb as [? ->]. rewrite length_take, length_drop. lia.
Qed.

Lemma run_batches_counts (q : Q) (batches : list (list message)) :
  (∀ q batch, (length (Successful (fst (send_message_batch q batch)))
               ≤ length batch)%nat) →
  0 ≤ sum_counts (fst (run_batches send_message_batch q batches))
    ≤ Z.of_nat (length (concat batches)).
Proof.
  intros Hle. revert q. induction batches as [|b bs IH]; intros q.
  - simpl. unfold sum_counts. simpl. lia.
  - cbn [run_batches]. specialize (Hle q b).
    destruct (send_message_batch q b) as [r q']. specialize (IH q').
    destruct (run_batches send_message_batch q' bs) as [counts q''].
    cbn [fst] in *. unfold sum_counts in *. rewrite fmap_cons. simpl foldr.
    simpl concat. rewrite length_app. lia.
Qed.

(** X24.  When the queue never reports more accepted entries than the
    batch it was given holds, the number returned lies between 0 and the
    number of messages. *)
Theorem X24_send_messages_to_sqs_bounds (messages : list message) (q : Q) :
  (∀ q batch, (length (Successful (fst (send_message_batch q batch)))
               ≤ length batch)%nat) →
  0 ≤ successful_messages (send_messages_to_sqs Q send_message_batch messages q)
    ≤ Z.of_nat (length messages).
Proof.
  intros Hle. rewrite send_messages_to_sqs_run. cbn [successful_messages].
  pose proof (run_batches_counts q
                ((fun k => take 10 (drop (k * 10) messages))
                   <$> seq 0 ((length messages + 9) / 10)%nat) Hle) as H.
  by rewrite concat_chunks in H.
Qed.

End Batches.

Lemma X24_send_messages_to_sqs_bounds_witness :
  0 ≤ successful_messages
        (send_messages_to_sqs (list (list message)) sample_send
           [message_dict "f" 2 1 (plain "a"); message_dict "f" 2 2 (plain "b")] [])
    ≤ 2.
Proof.
  apply (X24_send_messages_to_sqs_bounds sample_send
           [message_dict "f" 2 1 (plain "a"); message_dict "f" 2 2 (plain "b")] []).
  intros q batch. simpl. by rewrite length_fmap.
Defined.

(** ** More on the handler *)

Section HandlerMore.

Context (isoparse : string → option datetime)
        (decode_notification : string → result (string * string))
        (splitext : string → string)
        (decode_watch : string → result (list Watch.entry))
        (decode_light : string → result (list Light.entry * list Light.entry))
        {Q : Type} (send_message_batch : Q → list message → response * Q)
        {L : Type} (send_message send_message' : L → forwarded → result L).

Abbreviation handler_with send :=
  (lambda_handler isoparse decode_notification splitext decode_watch
                  decode_light Q send_message_batch L send).
Abbreviation download' :=
  (download_and_preprocess_data isoparse decode_notification splitext
                                decode_watch decode_light Q L).
Abbreviation preprocess' :=
  (preprocess isoparse decode_watch decode_light).

Lemma preprocess_Ok bucket raw_data df :
  preprocess' bucket raw_data = Ok df →
  NoDup (video_id <$> df)
  ∧ ((bucket = CLAI_EXPORTS_BUCKET_NAME
      ∧ ∃ raw, decode_watch raw_data = Ok raw ∧ preprocess_data_clai raw = Ok df)
     ∨ (bucket = CLAI_LIGHT_EXPORTS_BUCKET_NAME
        ∧ ∃ likes subs, decode_light raw_data = Ok (likes, subs)
            ∧ preprocess_data_clai_light isoparse likes subs = Ok df)).
Proof.
  unfold preprocess. intros H.
  destruct (decide (bucket = CLAI_EXPORTS_BUCKET_NAME)) as [->|Hne].
  - apply bind_Ok in H as (raw & Hraw & H). split; [|left; eauto].
    apply preprocess_data_clai_Ok in H as (rows & _ & Hnd & ->).
    by rewrite <- list_fmap_compose.
  - destruct (decide (bucket = CLAI_LIGHT_EXPORTS_BUCKET_NAME)) as [->|Hne'];
      [|done].
    apply bind_Ok in H as ([likes subs] & Hraw & H). split; [|right; eauto].
    simpl in H.
    apply preprocess_data_clai_light_Ok in H as (df0 & df1 & _ & _ & ->).
    apply reorder_converted_NoDup.
Qed.

Lemma download_Ok c ev (w : world Q L) df md :
  download' c ev w = Ok (df, md) →
  ∃ b key raw_data,
    event_body ev = Ok b
    ∧ decode_notification b = Ok (md_s3_bucket md, key)
    ∧ s3_exports w !! (md_s3_bucket md, key) = Some raw_data
    ∧ preprocess' (md_s3_bucket md) raw_data = Ok df
    ∧ md_file_id md = splitext key
    ∧ md_upload_timestamp md = utcnow c.
Proof.
  unfold download_and_preprocess_data. intros H.
  apply bind_Ok in H as (b & Hb & H).
  apply bind_Ok in H as ([bucket key] & Hn & H). simpl in H.
  apply bind_Ok in H as (raw_data & Hraw & H).
  apply bind_Ok in H as (df' & Hdf & H). injection H as -> <-. simpl.
  exists b, key, raw_data. unfold get_object in Hraw.
  destruct (s3_exports w !! (bucket, key)) eqn:Hobj; [|done].
  injection Hraw as ->. done.
Qed.

(** X25.  A frame reaches the dedup gate only from one of the two known
    buckets, after the notification was decoded and the object it names
    was read, and its video ids are pairwise distinct. The file id is the
    object key without its extension, the upload time the UTC clock
    reading. *)
Theorem X25_download_and_preprocess_data_Ok c ev (w : world Q L) df md :
  download' c ev w = Ok (df, md) →
  (∃ b key raw_data,
     event_body ev = Ok b
     ∧ decode_notification b = Ok (md_s3_bucket md, key)
     ∧ s3_exports w !! (md_s3_bucket md, key) = Some raw_data
     ∧ md_file_id md = splitext key
     ∧ ((md_s3_bucket md = CLAI_EXPORTS_BUCKET_NAME
         ∧ ∃ raw, decode_watch raw_data = Ok raw
                  ∧ preprocess_data_clai raw = Ok df)
        ∨ (md_s3_bucket md = CLAI_LIGHT_EXPORTS_BUCKET_NAME
           ∧ ∃ likes subs, decode_light raw_data = Ok (likes, subs)
               ∧ preprocess_data_clai_light isoparse likes subs = Ok df)))
  ∧ md_upload_timestamp md = utcnow c
  ∧ NoDup (video_id <$> df).
Proof.
  intros (b & key & raw_data & Hb & Hn & Hobj & Hpre & Hid & Hts)%download_Ok.
  apply preprocess_Ok in Hpre as [Hnd Hcase].
  split; [|done]. by exists b, key, raw_data.
Qed.


Lemma forward_effects send c ev file_id (w : world Q L) :
  ∃ fwd, effects (forward Q L send c ev file_id w) = effects w ++ fwd
         ∧ Forall is_forward fwd ∧ (length fwd ≤ 1)%nat.
Proof.
  unfold forward. destruct (incoming_body ev) as [b|e].
  - destruct (send _ _) as [l|e].
    + eexists [_]. split; [done|]. split; [by repeat constructor|done].
    + exists []. split; [by rewrite app_nil_r|]. split; [constructor|simpl; lia].
  - exists []. split; [by rewrite app_nil_r|]. split; [constructor|simpl; lia].
Qed.

Lemma download_exports c c' ev (w w' : world Q L) df md :
  s3_exports w' = s3_exports w →
  download' c ev w = Ok (df, md) →
  download' c' ev w'
  = Ok (df, {| md_file_id := md_file_id md; md_s3_bucket := md_s3_bucket md;
               md_upload_timestamp := utcnow c' |}).
Proof.
  intros Hexp (b & key & raw_data & Hb & Hn & Hobj & Hpre & Hid & Hts)%download_Ok.
  unfold download_and_preprocess_data, get_object. rewrite Hb. simpl.
  rewrite Hn. simpl. rewrite Hexp, Hobj. simpl. rewrite Hpre. simpl.
  by rewrite Hid.
Qed.

(** X26.  What a run that returns leaves behind, in order: the batches
    sent to the transcript queue, the item put in the status table under
    the file id, the id snapshot, and at most one message to the labeling
    queue. The batches hold as many entries as ids were added. The
    snapshot is written exactly when ids were added, and the item carries
    [transcripts_last] exactly when none was. The exports are never
    written. *)
Theorem X26_lambda_handler_writes c ev (w w' : world Q L) res :
  handler_with send_message c ev w = (Ok res, w') →
  ∃ batches item snapshot fwd,
    effects w'
    = effects w ++ (SendMessageBatch <$> batches) ++ [PutItem item]
        ++ snapshot ++ fwd
    ∧ Z.of_nat (length (concat batches)) = new_videos_added res
    ∧ item_file_id item = md_file_id (run res)
    ∧ num_videos_file_unique item
      = new_videos_added res + duplicates_not_added res
    ∧ clai_files_status w'
      = <[md_file_id (run res) := item]> (clai_files_status w)
    ∧ ((new_videos_added res = 0 ∧ snapshot = []
        ∧ s3_video_ids w' = s3_video_ids w
        ∧ transcripts_last item = Some (now c))
       ∨ (new_videos_added res > 0
          ∧ (∃ stored, snapshot = [PutObject BUCKET_NAME FILE_NAME stored]
                       ∧ s3_video_ids w' = Some stored)
          ∧ transcripts_last item = None))
    ∧ Forall is_forward fwd ∧ (length fwd ≤ 1)%nat
    ∧ s3_exports w' = s3_exports w.
Proof.
  intros Hrun. unfold lambda_handler in Hrun.
  destruct (download' c ev w) as [[df md]|e] eqn:Hdl; [|done].
  destruct (download_existing_video_ids Q L w) as [ids|e] eqn:Hids; [|done].
  pose proof (download_Ok _ _ _ _ _ Hdl)
    as (b & key & raw_data & _ & _ & _ & [Hnd _]%preprocess_Ok & _).
  pose proof (prepare_sqs_messages_length df ids (md_file_id md) Hnd) as Hlen.
  pose proof (send_messages_to_sqs_run send_message_batch
                (fst (prepare_sqs_messages df ids (md_file_id md)))
                (transcript_queue w)) as Hsent.
  cbv zeta in Hsent.
  destruct (prepare_sqs_messages df ids (md_file_id md))
    as [messages ids'] eqn:Hprep.
  cbn [fst snd] in Hlen, Hsent. injection Hrun as <- <-.
  match goal with |- context [forward _ _ _ _ _ ?f ?w0] =>
    destruct (forward_keeps send_message c ev f w0) as (He & Hv & Ht & _);
    destruct (forward_effects send_message c ev f w0) as (fwd & Hfwd & Hall & Hone)
  end.
  rewrite Hfwd, He, Hv, Ht. cbn [effects s3_exports s3_video_ids clai_files_status
    new_videos_added duplicates_not_added run].
  rewrite Hsent. cbn [calls].
  change (map SendMessageBatch ?l) with (SendMessageBatch <$> l).
  match goal with |- context [PutItem ?i :: ?snap] =>
    exists ((fun k => take 10 (drop (k * 10) messages))
              <$> seq 0 ((length messages + 9) / 10)%nat), i, snap, fwd
  end.
  split; [by rewrite <- !app_assoc|].
  rewrite concat_chunks.
  split; [lia|]. split; [done|].
  split; [cbn [num_videos_file_unique]; lia|]. split; [done|].
  split; [|done]. cbn [transcripts_last].
  case_bool_decide as Hgrew.
  - right. split; [done|]. split; [by exists ids'|].
    by rewrite decide_False by lia.
  - left. split; [lia|]. split; [done|]. split; [done|].
    by rewrite decide_True by lia.
Qed.

(** X27.  A failure of the labeling queue changes nothing else: with any
    two labeling queues the handler returns the same result or raises the
    same exception, and leaves the same snapshot, status table and
    transcript queue and the same writes apart from the forwarded message. *)
Theorem X27_lambda_handler_labeling_best_effort c ev (w : world Q L) :
  let r1 := handler_with send_message c ev w in
  let r2 := handler_with send_message' c ev w in
  fst r1 = fst r2
  ∧ s3_exports (snd r1) = s3_exports (snd r2)
  ∧ s3_video_ids (snd r1) = s3_video_ids (snd r2)
  ∧ clai_files_status (snd r1) = clai_files_status (snd r2)
  ∧ transcript_queue (snd r1) = transcript_queue (snd r2)
  ∧ filter (fun e => ¬ is_forward e) (effects (snd r1))
    = filter (fun e => ¬ is_forward e) (effects (snd r2)).
Proof.
  cbv zeta. unfold lambda_handler.
  destruct (download' c ev w) as [[df md]|e]; [|done].
  destruct (download_existing_video_ids Q L w) as [ids|e]; [|done].
  destruct (prepare_sqs_messages df ids (md_file_id md)) as [messages ids'].
  cbn [fst snd].
  match goal with |- context [forward _ _ _ _ _ ?f ?w0] =>
    destruct (forward_keeps send_message c ev f w0) as (He & Hv & Ht & Hq);
    destruct (forward_keeps send_message' c ev f w0) as (He' & Hv' & Ht' & Hq');
    destruct (forward_effects send_message c ev f w0) as (fwd & Hfwd & Hall & _);
    destruct (forward_effects send_message' c ev f w0) as (fwd' & Hfwd' & Hall' & _)
  end.
  rewrite He, He', Hv, Hv', Ht, Ht', Hq, Hq', Hfwd, Hfwd'.
  repeat (split; [done|]).
  rewrite !filter_app.
  rewrite (filter_none (fun e => ¬ is_forward e) fwd),
    (filter_none (fun e => ¬ is_forward e) fwd'); [done|..].
  - rewrite Forall_forall in Hall'. intros e He0 Hn. auto.
  - rewrite Forall_forall in Hall. intros e He0 Hn. auto.
Qed.

(** X28.  Running the handler again on the event of a run that returned,
    in the world that run left, returns too: it adds no id, sends nothing
    to the transcript queue, leaves the snapshot as it is, and puts an
    item with [transcripts_last] in the status table. *)
Theorem X28_lambda_handler_again c c' ev (w w' : world Q L) res :
  handler_with send_message c ev w = (Ok res, w') →
  ∃ res' w'' item,
    handler_with send_message c' ev w' = (Ok res', w'')
    ∧ new_videos_added res' = 0
    ∧ messages_sent res' = 0
    ∧ num_videos_before res' = num_videos_after res
    ∧ num_videos_after res' = num_videos_after res
    ∧ s3_video_ids w'' = s3_video_ids w'
    ∧ transcript_queue w'' = transcript_queue w'
    ∧ clai_files_status w'' !! md_file_id (run res) = Some item
    ∧ transcripts_last item = Some (now c')
    ∧ filter (fun e => ¬ is_forward e) (effects w'')
      = filter (fun e => ¬ is_forward e) (effects w') ++ [PutItem item].
Proof.
  intros Hrun. unfold lambda_handler in Hrun.
  destruct (download' c ev w) as [[df md]|e] eqn:Hdl; [|done].
  destruct (download_existing_video_ids Q L w) as [ids|e] eqn:Hids; [|done].
  pose proof (prepare_sqs_messages_grows df ids (md_file_id md)) as Hgrow.
  pose proof (fun r => prepare_sqs_messages_covers df ids (md_file_id md) r)
    as Hcover.
  cbv zeta in Hgrow.
  destruct (prepare_sqs_messages df ids (md_file_id md))
    as [messages ids'] eqn:Hprep.
  cbn [snd] in Hgrow, Hcover. destruct Hgrow as (Hsub & Hsize & _).
  injection Hrun as <- <-.
  match goal with |- context [forward _ _ _ _ _ ?f ?w0] =>
    set (w1 := w0);
    destruct (forward_keeps send_message c ev f w1) as (He & Hv & Ht & Hq)
  end.
  set (w' := forward Q L send_message c ev _ w1) in *.
  assert (download_existing_video_ids Q L w' = Ok ids') as Hids'.
  { unfold download_existing_video_ids. rewrite Hv. unfold w1.
    cbn [s3_video_ids new_videos_added]. case_bool_decide as Hgrew; [done|].
    unfold download_existing_video_ids in Hids.
    destruct (s3_video_ids w) as [ids0|]; [|done]. injection Hids as ->.
    f_equal. apply leibniz_equiv.
    apply set_subseteq_size_equiv; [done|lia]. }
  pose proof (download_exports c c' ev w w' df md He Hdl) as Hdl'.
  unfold lambda_handler. rewrite Hdl', Hids'. cbn [md_file_id].
  rewrite (prepare_sqs_messages_known df ids' (md_file_id md)) by auto.
  rewrite send_messages_to_sqs_run. cbn [length]. simpl seq. simpl fmap.
  cbn [run_batches fst snd successful_messages calls queue].
  eexists _, _, _. split; [reflexivity|].
  cbn [new_videos_added messages_sent num_videos_before num_videos_after run
       md_file_id].
  split; [lia|]. split; [done|]. split; [done|]. split; [done|].
  match goal with |- context [forward _ _ _ _ _ ?f ?w0] =>
    destruct (forward_keeps send_message c' ev f w0) as (_ & Hv2 & Ht2 & Hq2);
    destruct (forward_effects send_message c' ev f w0) as (fwd & Hfwd & Hall & _)
  end.
  rewrite Hv2, Ht2, Hq2, Hfwd.
  cbn [s3_video_ids transcript_queue clai_files_status effects item_file_id].
  rewrite bool_decide_false by lia.
  split; [done|]. split; [done|].
  split; [apply lookup_insert_eq|]. split; [done|].
  rewrite !filter_app, (filter_none (fun e => ¬ is_forward e) fwd).
  - simpl. rewrite app_nil_r. f_equal.
  - rewrite Forall_forall in Hall. intros e He0 Hn. auto.
Qed.


(** X29.  When the transcript queue never reports more accepted entries
    than the batch it was given holds, [messages_sent] lies between 0 and
    [new_videos_added]. *)
Theorem X29_lambda_handler_messages_sent c ev (w w' : world Q L) res :
  (∀ q batch, (length (Successful (fst (send_message_batch q batch)))
               ≤ length batch)%nat) →
  handler_with send_message c ev w = (Ok res, w') →
  0 ≤ messages_sent res ≤ new_videos_added res.
Proof.
  intros Hle Hrun. unfold lambda_handler in Hrun.
  destruct (download' c ev w) as [[df md]|e] eqn:Hdl; [|done].
  destruct (download_existing_video_ids Q L w) as [ids|e] eqn:Hids; [|done].
  pose proof (download_Ok _ _ _ _ _ Hdl)
    as (b & key & raw_data & _ & _ & _ & [Hnd _]%preprocess_Ok & _).
  pose proof (prepare_sqs_messages_length df ids (md_file_id md) Hnd) as Hlen.
  pose proof (send_messages_to_sqs_run send_message_batch
                (fst (prepare_sqs_messages df ids (md_file_id md)))
                (transcript_queue w)) as Hsent.
  cbv zeta in Hsent.
  pose proof (run_batches_counts send_message_batch (transcript_queue w)
                ((fun k => take 10 (drop (k * 10)
                              (fst (prepare_sqs_messages df ids (md_file_id md)))))
                   <$> seq 0 ((length (fst (prepare_sqs_messages df ids
                                              (md_file_id md))) + 9) / 10)%nat)
                Hle) as Hcount.
  rewrite concat_chunks in Hcount.
  destruct (prepare_sqs_messages df ids (md_file_id md))
    as [messages ids'] eqn:Hprep.
  cbn [fst snd] in Hlen, Hsent, Hcount. injection Hrun as <- <-.
  cbn [messages_sent new_videos_added]. rewrite Hsent.
  cbn [successful_messages]. lia.
Qed.

(** X30.  After a run that returns, the snapshot holds the id of every row
    of the frame, whatever the transcript queue answered: an id whose
    message was rejected is a known id from then on. *)
Theorem X30_lambda_handler_marks_all c ev (w w' : world Q L) res :
  handler_with send_message c ev w = (Ok res, w') →
  ∃ df md stored,
    download' c ev w = Ok (df, md)
    ∧ s3_video_ids w' = Some stored
    ∧ ∀ r, r ∈ df → video_id r ∈ stored.
Proof.
  intros Hrun. unfold lambda_handler in Hrun.
  destruct (download' c ev w) as [[df md]|e] eqn:Hdl; [|done].
  destruct (download_existing_video_ids Q L w) as [ids|e] eqn:Hids; [|done].
  pose proof (prepare_sqs_messages_grows df ids (md_file_id md)) as Hgrow.
  pose proof (fun r => prepare_sqs_messages_covers df ids (md_file_id md) r)
    as Hcover.
  cbv zeta in Hgrow.
  destruct (prepare_sqs_messages df ids (md_file_id md))
    as [messages ids'] eqn:Hprep.
  cbn [snd] in Hgrow, Hcover. destruct Hgrow as (Hsub & Hsize & _).
  injection Hrun as <- <-.
  match goal with |- context [forward _ _ _ _ _ ?f ?w0] =>
    destruct (forward_keeps send_message c ev f w0) as (_ & Hv & _)
  end.
  exists df, md, ids'. split; [done|]. split; [|done].
  rewrite Hv. cbn [s3_video_ids new_videos_added].
  case_bool_decide as Hgrew; [done|].
  unfold download_existing_video_ids in Hids.
  destruct (s3_video_ids w) as [ids0|]; [|done]. injection Hids as ->.
  f_equal. apply leibniz_equiv.
  apply set_subseteq_size_equiv; [done|lia].
Qed.

End HandlerMore.

Lemma X25_download_and_preprocess_data_Ok_witness :
  NoDup (video_id <$> (plain_watch <$> [("abc12345678", "a", "t1");
                                        ("bbbbbbbbbbb", "b", "t2");
                                        ("ccccccccccc", "c", "t3");
                                        ("ddddddddddd", "d", "t4")]%string)).
Proof.
  apply (X25_download_and_preprocess_data_Ok sample_isoparse sample_notification
           (fun key => key) sample_decode_watch sample_decode_light
           (Q := list (list message)) (L := unit)
           sample_clock (sample_event "good.json") sample_world _
           {| md_file_id := "good.json";
              md_s3_bucket := CLAI_EXPORTS_BUCKET_NAME;
              md_upload_timestamp := "2023-10-01 10:00:00" |}).
  vm_compute. reflexivity.
Defined.

Lemma X26_lambda_handler_writes_witness :
  ∃ res w' (batches : list (list message)),
    sample_handler sample_clock (sample_event "good.json") sample_world
    = (Ok res, w')
    ∧ Z.of_nat (length (concat batches)) = new_videos_added res
    ∧ s3_exports w' = s3_exports sample_world.
Proof.
  destruct (sample_handler sample_clock (sample_event "good.json") sample_world)
    as [[res|e] w'] eqn:Hrun; [|vm_compute in Hrun; discriminate].
  destruct (X26_lambda_handler_writes sample_isoparse sample_notification
              (fun key => key) sample_decode_watch sample_decode_light
              sample_send sample_forward sample_clock
              (sample_event "good.json") sample_world w' res Hrun)
    as (batches & item & snapshot & fwd & _ & Hcount & _ & _ & _ & _ & _ & _ & Hexp).
  exists res, w', batches. by split.
Defined.

Lemma X28_lambda_handler_again_witness :
  ∃ res w' res' w'',
    sample_handler sample_clock (sample_event "good.json") sample_world
    = (Ok res, w')
    ∧ sample_handler sample_clock (sample_event "good.json") w' = (Ok res', w'')
    ∧ new_videos_added res' = 0 ∧ messages_sent res' = 0
    ∧ s3_video_ids w'' = s3_video_ids w'.
Proof.
  destruct (sample_handler sample_clock (sample_event "good.json") sample_world)
    as [[res|e] w'] eqn:Hrun; [|vm_compute in Hrun; discriminate].
  destruct (X28_lambda_handler_again sample_isoparse sample_notification
              (fun key => key) sample_decode_watch sample_decode_light
              sample_send sample_forward sample_clock sample_clock
              (sample_event "good.json") sample_world w' res Hrun)
    as (res' & w'' & item & Hrun' & Hadded & Hsent & _ & _ & Hsnap & _).
  exists res, w', res', w''. by repeat split.
Defined.

Lemma X29_lambda_handler_messages_sent_witness :
  ∃ res w',
    lambda_handler sample_isoparse sample_notification (fun key => key)
      sample_decode_watch sample_decode_light (list (list message))
      sample_reject unit sample_forward
      sample_clock (sample_event "good.json") sample_world
    = (Ok res, w')
    ∧ 0 ≤ messages_sent res ≤ new_videos_added res.
Proof.
  destruct (lambda_handler sample_isoparse sample_notification (fun key => key)
              sample_decode_watch sample_decode_light (list (list message))
              sample_reject unit sample_forward
              sample_clock (sample_event "good.json") sample_world)
    as [[res|e] w'] eqn:Hrun; [|vm_compute in Hrun; discriminate].
  exists res, w'. split; [done|].
  apply (X29_lambda_handler_messages_sent sample_isoparse sample_notification
           (fun key => key) sample_decode_watch sample_decode_light
           sample_reject sample_forward sample_clock
           (sample_event "good.json") sample_world w' res); [|exact Hrun].
  intros q batch. simpl. lia.
Defined.

Lemma X30_lambda_handler_marks_all_witness :
  ∃ res w' df md stored,
    lambda_handler sample_isoparse sample_notification (fun key => key)
      sample_decode_watch sample_decode_light (list (list message))
      sample_reject unit sample_forward
      sample_clock (sample_event "good.json") sample_world
    = (Ok res, w')
    ∧ download_and_preprocess_data sample_isoparse sample_notification
        (fun key => key) sample_decode_watch sample_decode_light
        (list (list message)) unit
        sample_clock (sample_event "good.json") sample_world
      = Ok (df, md)
    ∧ s3_video_ids w' = Some stored
    ∧ ∀ r, r ∈ df → video_id r ∈ stored.
Proof.
  destruct (lambda_handler sample_isoparse sample_notification (fun key => key)
              sample_decode_watch sample_decode_light (list (list message))
              sample_reject unit sample_forward
              sample_clock (sample_event "good.json") sample_world)
    as [[res|e] w'] eqn:Hrun; [|vm_compute in Hrun; discriminate].
  destruct (X30_lambda_handler_marks_all sample_isoparse sample_notification
              (fun key => key) sample_decode_watch sample_decode_light
              sample_reject sample_forward sample_clock
              (sample_event "good.json") sample_world w' res Hrun)
    as (df & md & stored & Hdl & Hsnap & Hall).
  by exists res, w', df, md, stored.
Defined.

(** * The parsers: labels, ids and order *)

(** ** The labels *)

Lemma complete_type e row :
  Watch.complete e = Some row → Watch.r_type row = Watch.type e.
Proof.
  unfold Watch.complete.
  destruct (Watch.titleUrl e), (Watch.title e), (Watch.subtitles e),
    (Watch.time e); try done.
  by intros [= <-].
Qed.

(** C7, as stated, fails: [preprocess_data_clai] adds no category, so a
    record made of an entry without a key "type" has none (and status
    "CREATED"); and a record from the "subs" list is labelled "sub", not
    "subscribe". *)
Lemma C7_counterexample :
  preprocess_data_clai
    [sample_watch "https://www.youtube.com/watch?v=dQw4w9WgXcQ" "a" "ch" "t1"]
  = Ok [ {| video_id := "dQw4w9WgXcQ"; channel_name := "ch"; title := "a";
            watched_at := VStr "t1"; type := None; status := Some "CREATED" |} ]
  ∧ preprocess_data_clai_light sample_isoparse []
      [sample_light "https://www.youtube.com/watch?v=dQw4w9WgXcQ"
                    "2023-10-01T00:00:10" "a" "ch"]
    = Ok [ {| video_id := "dQw4w9WgXcQ"; channel_name := "ch"; title := "a";
              watched_at := VTime {| epoch_second := 1696118410;
                                     microsecond := 0 |};
              type := Some "sub"; status := None |} ].
Proof. split; vm_compute; reflexivity. Qed.

(** C7, amended.  Parser A assigns no category.  Every record it returns
    has status "CREATED" and is made of an entry of the export, and its
    type is what the export gives under the key "type", which the parser
    passes on unread: when no entry has that key the frame has no such
    column and the work unit gets the empty string; when some entry has
    it, the record carries the cell of its own entry as [str] renders it,
    and so does the work unit.  Parser B labels the records made from the
    "likes" list "like" and the records made from the "subs" list "sub". *)
Theorem C7_labels :
  (∀ raw out,
     preprocess_data_clai raw = Ok out →
     Forall (fun r =>
               status r = Some "CREATED"
               ∧ ∃ e, e ∈ raw ∧ watch_source raw e r
                      ∧ if has_column Watch.type raw
                        then type r = Some (str_cell (Watch.type e))
                             ∧ get_type r = str_cell (Watch.type e)
                        else type r = None ∧ get_type r = "")
            out)
  ∧ (∀ isoparse likes subs out,
       preprocess_data_clai_light isoparse likes subs = Ok out →
       Forall (light_row likes subs) out).
Proof.
  split.
  - intros raw out Hout. apply Forall_forall. intros r Hr.
    destruct (preprocess_data_clai_kept raw out r Hout Hr)
      as (channel & row & pre & e & post & -> & Hraw & Hrow & Hchannel & _).
    split; [done|]. exists e. split; [rewrite Hraw; set_solver|].
    split; [by exists row, channel|].
    unfold get_type. simpl. unfold Watch.passed_type.
    rewrite (complete_type e row Hrow).
    by destruct (has_column Watch.type raw).
  - intros isoparse likes subs out H. apply Forall_forall. intros r Hr.
    by eapply preprocess_data_clai_light_rows.
Qed.

Lemma C7_labels_witness :
  Forall (fun r =>
            status r = Some "CREATED"
            ∧ ∃ e, e ∈ sample_typed ∧ watch_source sample_typed e r
                   ∧ if has_column Watch.type sample_typed
                     then type r = Some (str_cell (Watch.type e))
                          ∧ get_type r = str_cell (Watch.type e)
                     else type r = None ∧ get_type r = "")
         [ {| video_id := "dQw4w9WgXcQ"; channel_name := "ch"; title := "a";
              watched_at := VStr "t1"; type := Some "watch";
              status := Some "CREATED" |};
           {| video_id := "aaaaaaaaaaa"; channel_name := "ch"; title := "b";
              watched_at := VStr "t2"; type := Some "like";
              status := Some "CREATED" |};
           {| video_id := "bbbbbbbbbbb"; channel_name := "ch"; title := "c";
              watched_at := VStr "t3"; type := Some "nan";
              status := Some "CREATED" |} ]
  ∧ Forall (light_row
              [sample_light "https://www.youtube.com/watch?v=aaaaaaaaaaa"
                            (minute_text "20") "b" "ch"]
              [sample_light "https://www.youtube.com/watch?v=dQw4w9WgXcQ"
                            (minute_text "10") "a" "ch"])
           [rec_at "aaaaaaaaaaa" "ch" "b" "like" (minute_time 20);
            rec_at "dQw4w9WgXcQ" "ch" "a" "sub" (minute_time 10)].
Proof.
  split.
  - apply (proj1 C7_labels sample_typed). vm_compute. reflexivity.
  - apply (proj2 C7_labels sample_isoparse). vm_compute. reflexivity.
Defined.

(** ** The video ids, and the row that is kept of a repeated id *)

(** A row that [drop_duplicates] keeps stands before every other row with
    its key. *)
Lemma drop_duplicates_before {A} (key : A → string) (l : list A) x x' :
  x ∈ drop_duplicates key l → x' ∈ l → key x' = key x →
  x' = x ∨ before l x x'.
Proof.
  intros Hx Hx' Hkey.
  apply drop_duplicates_from_split in Hx as (pre & post & -> & Hpre).
  apply elem_of_app in Hx' as [Hx'|Hx'].
  - rewrite Forall_forall in Hpre. by destruct (Hpre _ Hx').
  - apply elem_of_cons in Hx' as [->|Hx']; [by left|]. right.
    apply list_elem_of_split in Hx' as (k1 & k2 & ->). by exists pre, k1, k2.
Qed.

(** In the ranked frame a row with a time comes before a row without one,
    and of two rows of one channel the one with the later time comes
    first. *)
Lemma with_ranks_timed df x1 x2 t1 :
  x1 ∈ with_ranks df → x2 ∈ with_ranks df →
  watched_at (base x1) = VTime t1 → time_of (watched_at (base x2)) = None →
  compare_ranked x1 x2 = Lt.
Proof.
  intros H1 H2 Ht1 Ht2. unfold compare_ranked.
  apply (with_ranks_video_rank df x2 H2) in Ht2. rewrite Ht2.
  destruct (video_rank_within_group x1) as [n1|] eqn:Hn1; [done|].
  apply (with_ranks_video_rank df x1 H1) in Hn1. by rewrite Ht1 in Hn1.
Qed.

Lemma with_ranks_later df x1 x2 t1 t2 :
  x1 ∈ with_ranks df → x2 ∈ with_ranks df →
  channel_name (base x1) = channel_name (base x2) →
  watched_at (base x1) = VTime t1 → watched_at (base x2) = VTime t2 →
  compare_datetime t1 t2 = Gt →
  compare_ranked x1 x2 = Lt.
Proof.
  intros (l1 & k1 & Hdf1 & ->)%with_ranks_elem_of
         (l2 & k2 & Hdf2 & ->)%with_ranks_elem_of Hc Ht1 Ht2 Hgt.
  unfold compare_ranked.
  cbn [video_rank_within_group sub_group_rank base ranked_after] in *.
  rewrite Ht1, Ht2, <- Hc. cbn [time_of].
  set (c := channel_name (base x1)).
  assert (Hall : group_times df c
                 = group_times l1 c ++ Some t1 :: group_times k1 c).
  { rewrite Hdf1 at 1. by rewrite group_times_app, group_times_cons, Ht1. }
  destruct (rank_of_later _ _ _ (group_times l2 c) _ _ Hall Hgt)
    as (n1 & n2 & Hn1 & Hn2 & Hlt).
  rewrite Hn1, Hn2. cbn [compare_na_last].
  by apply Nat.compare_lt_iff in Hlt as ->.
Qed.

Lemma with_ranks_top df x :
  x ∈ with_ranks df ↔ x ∈ move_type_to_top (sort_dataframe (with_ranks df)).
Proof.
  rewrite move_type_to_top_Permutation. unfold sort_dataframe.
  by rewrite sort_stable_Permutation.
Qed.

(** Which row [reorder_frame] keeps of the rows with one video id: a row
    of type "like" if there is one, and never a row that has, in the same
    channel and on the same side of the likes, an earlier time than
    another, or none. *)
Lemma reorder_converted_kept df r r' :
  r ∈ reorder_converted df → r' ∈ df → video_id r' = video_id r →
  (type r' = Some "like"%string → type r = Some "like"%string)
  ∧ ∀ t', (type r = Some "like"%string → type r' = Some "like"%string) →
          channel_name r' = channel_name r →
          watched_at r' = VTime t' →
          ∃ t, watched_at r = VTime t ∧ compare_datetime t t' ≠ Lt.
Proof.
  intros (x & <- & Hx & Hw)%reorder_converted_ranked
         (l1 & l2 & Hdf)%list_elem_of_split Hid.
  set (x' := ranked_after df l1 r').
  assert (x' ∈ with_ranks df) as Hw' by by apply (with_ranks_split df l1 r' l2).
  set (top := move_type_to_top (sort_dataframe (with_ranks df))) in *.
  assert (x' ∈ top) as Htop' by by apply with_ranks_top.
  destruct (drop_duplicates_before (fun r => video_id (base r)) top x x'
              Hx Htop' Hid) as [Heq|Hb].
  { rewrite <- Heq. simpl. split; [done|]. intros t' _ _ Ht'. exists t'.
    split; [done|]. by rewrite (cmp_refl compare_datetime). }
  split.
  - intros Hlike'.
    destruct (decide (type (base x) = Some "like"%string)) as [|Hnot]; [done|].
    exfalso. unfold top, move_type_to_top in Hb. cbv zeta in Hb.
    apply before_app_inv in Hb as [Hb|[[Hx1 _]|Hb]].
    + apply before_elem_of in Hb as [Hx1 _].
      by apply list_elem_of_filter in Hx1 as [? _].
    + by apply list_elem_of_filter in Hx1 as [? _].
    + apply before_elem_of in Hb as [_ Hx2].
      by apply list_elem_of_filter in Hx2 as [? _].
  - intros t' Hlike Hc Ht'.
    assert (compare_ranked x' x = Lt → False) as Hno.
    { intros Hlt.
      by apply (move_type_to_top_not_before (with_ranks df) x' x Hlt Hlike). }
    destruct (watched_at (base x)) as [s|t| |] eqn:Ht;
      try (exfalso; apply Hno;
           apply (with_ranks_timed df x' x t' Hw' Hw Ht'); by rewrite Ht).
    exists t. split; [done|]. intros Hlt. apply Hno.
    apply (with_ranks_later df x' x t' t Hw' Hw Hc Ht' Ht).
    by rewrite (cmp_antisym compare_datetime t t'), Hlt.
Qed.

(** C2, as stated, fails for Parser B.  It has no filter on the length of
    the id, so a URL whose text after the last "=" is not 11 characters
    long (here a URL without "=") yields a record with such a video_id.
    And of two entries with one id it is not the first that is kept: the
    second of these two likes, which has the later time, is. *)
Lemma C2_counterexample :
  (preprocess_data_clai_light sample_isoparse
     [sample_light "https://youtu.be/dQw4w9WgXcQ" "2023-10-01T00:00:10" "a" "ch"]
     []
   = Ok [ {| video_id := "https://youtu.be/dQw4w9WgXcQ"; channel_name := "ch";
             title := "a";
             watched_at := VTime {| epoch_second := 1696118410;
                                    microsecond := 0 |};
             type := Some "like"; status := None |} ]
   ∧ String.length "https://youtu.be/dQw4w9WgXcQ" = 28%nat)
  ∧ preprocess_data_clai_light sample_isoparse
      [sample_light "https://www.youtube.com/watch?v=dQw4w9WgXcQ"
                    "2023-10-01T00:00:10" "first" "ch";
       sample_light "https://www.youtube.com/watch?v=dQw4w9WgXcQ"
                    "2023-10-01T00:00:30" "second" "ch"]
      []
    = Ok [ {| video_id := "dQw4w9WgXcQ"; channel_name := "ch";
              title := "second";
              watched_at := VTime {| epoch_second := 1696118430;
                                     microsecond := 0 |};
              type := Some "like"; status := None |} ].
Proof. repeat split; vm_compute; reflexivity. Qed.

(** C2, amended.  Parser A: every record has a video_id of length 11, the
    video_ids are pairwise distinct, and of the entries with one id the
    first in the export is kept (the first that has the four fields).
    Parser B: the video_id of a record is the text after the last "=" of
    the URL of an entry, whatever its length, and the video_ids are
    pairwise distinct; of the rows with one id the one kept is the first
    in the ranked frame with the likes moved to the top, not the first of
    the export: a row of type "like" is kept before any other, and a row
    is never kept when another with its id, of the same channel and on
    the same side of the likes, has a later time. *)
Theorem C2_video_ids :
  (∀ raw out,
     preprocess_data_clai raw = Ok out →
     Forall (fun r => String.length (video_id r) = 11%nat) out
     ∧ NoDup (video_id <$> out)
     ∧ ∀ r, r ∈ out →
            ∃ pre e post,
              raw = pre ++ e :: post
              ∧ watch_source raw e r
              ∧ ∀ e' row', e' ∈ pre → Watch.complete e' = Some row' →
                           watch_id row' ≠ video_id r)
  ∧ (∀ isoparse likes subs out,
       preprocess_data_clai_light isoparse likes subs = Ok out →
       Forall (fun r => ∃ e u, e ∈ likes ++ subs ∧ Light.url e = Val u
                               ∧ video_id r = List.last (split "=" u) "") out
       ∧ NoDup (video_id <$> out)
       ∧ ∃ df df',
           light_frame likes subs = Ok df
           ∧ convert_to_datetime isoparse df = Ok df'
           ∧ (∀ id,
                filter (fun r => video_id r = id) out
                = base <$> take 1 (filter (fun x => video_id (base x) = id)
                                     (move_type_to_top
                                        (sort_dataframe (with_ranks df')))))
           ∧ ∀ r r', r ∈ out → r' ∈ df' → video_id r' = video_id r →
               (type r' = Some "like" → type r = Some "like")
               ∧ ∀ t', (type r = Some "like" → type r' = Some "like") →
                       channel_name r' = channel_name r →
                       watched_at r' = VTime t' →
                       ∃ t, watched_at r = VTime t
                            ∧ compare_datetime t t' ≠ Lt).
Proof.
  split.
  - intros raw out Hout. split; [|split].
    + apply preprocess_data_clai_Ok in Hout as (rows & Hlen & _ & ->).
      apply Forall_fmap. eapply Forall_impl; [exact Hlen|]. done.
    + apply preprocess_data_clai_Ok in Hout as (rows & _ & Hnodup & ->).
      by rewrite <- list_fmap_compose.
    + intros r Hr.
      destruct (preprocess_data_clai_kept raw out r Hout Hr)
        as (channel & row & pre & e & post & -> & -> & Hrow & Hchannel & Hlen
            & Hpre).
      exists pre, e, post. split; [done|]. split; [by exists row, channel|].
      intros e' row' He' Hrow'. simpl.
      destruct (decide (String.length (watch_id row') = 11%nat)) as [H11|H11];
        [|congruence].
      rewrite Forall_forall in Hpre. apply Hpre.
      apply list_elem_of_filter. split; [done|]. apply list_elem_of_omap. eauto.
  - intros isoparse likes subs out H. split; [|split].
    + apply Forall_forall. intros r Hr.
      destruct (preprocess_data_clai_light_rows _ _ _ _ _ H Hr)
        as [(_ & e & He & u & Hu & Hid & _)|(_ & e & He & u & Hu & Hid & _)];
        exists e, u; (split; [set_solver|done]).
    + apply preprocess_data_clai_light_Ok in H as (df & df' & _ & _ & ->).
      apply reorder_converted_NoDup.
    + apply preprocess_data_clai_light_Ok in H as (df & df' & Hdf & Hdf' & ->).
      exists df, df'. split; [done|]. split; [done|]. split.
      * intros id. unfold reorder_converted. cbv zeta.
        change (map ?f ?l) with (f <$> l).
        rewrite filter_fmap. f_equal.
        apply (drop_duplicates_first (fun x => video_id (base x))).
      * intros r r'. apply reorder_converted_kept.
Qed.

Lemma C2_video_ids_witness :
  (Forall (fun r => String.length (video_id r) = 11%nat)
          (plain_watch <$> [("abc12345678", "a", "t1"); ("bbbbbbbbbbb", "b", "t2");
                            ("ccccccccccc", "c", "t3"); ("ddddddddddd", "d", "t4")])
   ∧ NoDup ["abc12345678"; "bbbbbbbbbbb"; "ccccccccccc"; "ddddddddddd"])
  ∧ NoDup ["dQw4w9WgXcQ"]
  ∧ ∀ r', r' ∈ [rec_at "dQw4w9WgXcQ" "ch" "first" "like" (minute_time 10);
                rec_at "dQw4w9WgXcQ" "ch" "second" "like" (minute_time 30)] →
          ∀ t', watched_at r' = VTime t' →
                compare_datetime {| epoch_second := minute_time 30;
                                    microsecond := 0 |} t' ≠ Lt.
Proof.
  split; [|split].
  - destruct (proj1 C2_video_ids sample_entries
                (plain_watch <$> [("abc12345678", "a", "t1");
                                  ("bbbbbbbbbbb", "b", "t2");
                                  ("ccccccccccc", "c", "t3");
                                  ("ddddddddddd", "d", "t4")]))
      as (Hlen & Hnodup & _); [vm_compute; reflexivity|].
    split; [exact Hlen|exact Hnodup].
  - destruct (proj2 C2_video_ids sample_isoparse sample_twice []
                [rec_at "dQw4w9WgXcQ" "ch" "second" "like" (minute_time 30)])
      as (_ & Hnodup & _); [vm_compute; reflexivity|].
    exact Hnodup.
  - destruct (proj2 C2_video_ids sample_isoparse sample_twice []
                [rec_at "dQw4w9WgXcQ" "ch" "second" "like" (minute_time 30)])
      as (_ & _ & df & df' & Hdf & Hdf' & _ & Hkept); [vm_compute; reflexivity|].
    vm_compute in Hdf. injection Hdf as <-.
    vm_compute in Hdf'. injection Hdf' as <-.
    intros r' Hr' t' Ht'.
    destruct (Hkept (rec_at "dQw4w9WgXcQ" "ch" "second" "like" (minute_time 30)) r')
      as [_ Hlater].
    + left.
    + exact Hr'.
    + by repeat (apply elem_of_cons in Hr' as [->|Hr']; [reflexivity|]);
        apply elem_of_nil in Hr'.
    + destruct (Hlater t') as (t & Ht & Hcmp).
      * by repeat (apply elem_of_cons in Hr' as [->|Hr']; [done|]);
          apply elem_of_nil in Hr'.
      * by repeat (apply elem_of_cons in Hr' as [->|Hr']; [reflexivity|]);
          apply elem_of_nil in Hr'.
      * exact Ht'.
      * injection Ht as <-. exact Hcmp.
Defined.

(** ** The order of the frame of Parser B *)







